(** * ICRIN: the goal-inference filter of [ModelWrapper::inferGoals] and the
    nodes around it

    A shallow embedding of [src/icrin/model/src/model_wrapper.cpp]
    ([ModelWrapper::init], [inferGoals], [runModel], [setupModel] and
    [runSims]), of [src/icrin/experiment/src/experiment.cpp] (the class
    [Experiment]), of [planner_wrapper.cpp] (the class [PlannerWrapper]) and
    of [visualizer.cpp] ([Visualizer::split]).

    The C++ code of the filter computes with [float].  Its embedding is
    written once over an arithmetic signature that lists the operations the
    source applies, in the order the source applies them: [Arith] has the
    operations IEEE-754 defines, [Libm] the two functions of the C library
    ([exp], [pow]) it does not.  Two models of the signature are given: exact
    real arithmetic ([R]), in which the statistical statements are proved,
    and IEEE-754 binary32 ([spec_float] with 24 bits of precision), whose
    basic operations compute and whose [exp] and [pow] are parameters.

    Indexing a [std::vector] past its end is undefined behaviour in C++; the
    embedding makes every vector access explicit and returns [OutOfRange]
    (in the nodes: [None]) for the first access that leaves its vector.

    The classes and messages that the nodes use and these sources do not
    define ([SimWrapper], [RVOPlanner], [ROSNavigation], the parameter
    server) appear as interfaces whose operations are arbitrary. *)

From Stdlib Require Import ZArith QArith Qreals Reals Lra Lia.
From Stdlib Require Import SpecFloat Ascii.
From stdpp Require Import base tactics decidable option list strings pretty.

Set Default Proof Using "Type".

(** ** Arithmetic signature *)

Class Arith (F : Type) : Type := {
  f_of_Z : Z -> F;          (* an integer operand converted to float *)
  f_lit : Q -> F;           (* a decimal literal with suffix f *)
  f_PI : F;                 (* the constant PI of line 102 *)
  f_add : F -> F -> F;
  f_sub : F -> F -> F;
  f_mul : F -> F -> F;
  f_div : F -> F -> F;
  f_opp : F -> F;
  f_sqrt : F -> F;          (* sqrtf *)
  f_eqb : F -> F -> bool;   (* == *)
  f_gtb : F -> F -> bool    (* > *)
}.

Class Libm (F : Type) : Type := {
  f_pow : F -> nat -> F;    (* pow; the source's exponents are 2 and 2.0f *)
  f_exp : F -> F            (* exp *)
}.

Declare Scope fl_scope.
Delimit Scope fl_scope with fl.
Notation "x + y" := (f_add x y) : fl_scope.
Notation "x - y" := (f_sub x y) : fl_scope.
Notation "x * y" := (f_mul x y) : fl_scope.
Notation "x / y" := (f_div x y) : fl_scope.
Notation "- x" := (f_opp x) : fl_scope.

(** ** Vector accesses *)

(** The vectors [inferGoals] indexes. *)
Inductive vec : Set :=
  | v_sequence_sim_vels
  | v_agent_sim_vels
  | v_g_likelihoods
  | v_init_liks
  | v_prev_prior
  | v_g_posteriors
  | v_norm_posteriors.

(** The outcome of a computation that indexes vectors: a value, or the first
    access that falls outside its vector. *)
Inductive result (A : Type) : Type :=
  | Ok (a : A)
  | OutOfRange (v : vec) (i : nat).
Arguments Ok {A} a.
Arguments OutOfRange {A} v i.

Global Instance result_bind : MBind result := fun A B k m =>
  match m with
  | Ok a => k a
  | OutOfRange v i => OutOfRange v i
  end.

Definition is_ok {A} (m : result A) : bool :=
  match m with Ok _ => true | OutOfRange _ _ => false end.

(** [v[i]] as an rvalue. *)
Definition at_ {A} (v : vec) (l : list A) (i : nat) : result A :=
  match l !! i with
  | Some x => Ok x
  | None => OutOfRange v i
  end.

(** [v[i] = x]. *)
Definition set_at {A} (v : vec) (l : list A) (i : nat) (x : A) : result (list A) :=
  if decide (i < length l) then Ok (<[i := x]> l) else OutOfRange v i.

(** The iterator range [v.begin() + b, v.begin() + e) copied into a fresh
    vector (lines 115-117). *)
Definition range {A} (v : vec) (l : list A) (b e : nat) : result (list A) :=
  if decide (e <= length l) then Ok (take (e - b) (drop b l)) else OutOfRange v e.

(** [for (size_t i = lo; i < lo + cnt; ++i) body]. *)
Fixpoint for_loop {St} (body : nat -> St -> result St) (lo cnt : nat) (s : St)
    : result St :=
  match cnt with
  | O => Ok s
  | S c => s' ← body lo s; for_loop body (S lo) c s'
  end.

(** ** Data *)

(** [common_msgs::Vector2]. *)
Record Vector2 (F : Type) : Type := mkVector2 { x_ : F; y_ : F }.
Arguments mkVector2 {F} x_ y_.
Arguments x_ {F} v.
Arguments y_ {F} v.

(** The two members of [ModelWrapper] that carry the filter from one call of
    [inferGoals] to the next. *)
Record Filter (F : Type) : Type := mkFilter {
  init_liks_ : list bool;
  prev_prior_ : list F
}.
Arguments mkFilter {F} init_liks_ prev_prior_.
Arguments init_liks_ {F} f.
Arguments prev_prior_ {F} f.

(** The members [inferGoals] reads and does not write: [robot_vel_.linear],
    the sizes of [hypotheses_.agents] and
    [hypotheses_.goal_hypothesis.goal_sequence], and [sequence_sim_vels]. *)
Record Inputs (F : Type) : Type := mkInputs {
  robot_vel_ : Vector2 F;
  agents_size : nat;
  goal_sequence_size : nat;
  sequence_sim_vels : list (Vector2 F)
}.
Arguments mkInputs {F} robot_vel_ agents_size goal_sequence_size sequence_sim_vels.
Arguments robot_vel_ {F} i.
Arguments agents_size {F} i.
Arguments goal_sequence_size {F} i.
Arguments sequence_sim_vels {F} i.

(** The local vectors of one iteration of the agent loop, as they stand when
    the iteration ends.  The function returns nothing: [norm_posteriors] is
    the belief the iteration computes and writes to the log (line 183). *)
Record AgentInference (F : Type) : Type := mkAgentInference {
  g_likelihoods : list F;
  g_posteriors : list F;
  posterior_norm : F;
  norm_posteriors : list F
}.
Arguments mkAgentInference {F} g_likelihoods g_posteriors posterior_norm norm_posteriors.
Arguments g_likelihoods {F} a.
Arguments g_posteriors {F} a.
Arguments posterior_norm {F} a.
Arguments norm_posteriors {F} a.

(** ** The code *)

Section Code.
Context {F : Type} `{Arith F}.
Local Open Scope fl_scope.

(** [ModelWrapper::init], lines 54-55: [resize(3, false)] and [resize(3)]. *)
Definition init : Filter F :=
  mkFilter (replicate 3 false) (replicate 3 (f_lit 0)).

Definition max_acc : F := f_lit (12 # 10).
Definition ros_freq : F := f_lit (1 # 10).
Definition reset_priors : bool := false.

(** Line 149. *)
Definition uniform_prior (n_goals : nat) : F :=
  f_lit 1 / f_of_Z (Z.of_nat n_goals).

(** Lines 150-162, one iteration; the state is [init_liks_],
    [g_posteriors] and [posterior_norm]. *)
Definition posterior_body (reset : bool) (uniform : F)
    (g_lik prev_prior : list F) (goal : nat)
    (s : list bool * list F * F) : result (list bool * list F * F) :=
  let '(init_liks, g_post, norm) := s in
  fresh ← (if reset then Ok true
           else b ← at_ v_init_liks init_liks goal; Ok (negb b));
  '(init_liks, g_post) ←
    (if fresh : bool then
       g_post ← set_at v_g_posteriors g_post goal uniform;
       init_liks ← set_at v_init_liks init_liks goal true;
       Ok (init_liks, g_post)
     else
       l ← at_ v_g_likelihoods g_lik goal;
       q ← at_ v_prev_prior prev_prior goal;
       g_post ← set_at v_g_posteriors g_post goal (l * q);
       Ok (init_liks, g_post));
  p ← at_ v_g_posteriors g_post goal;
  Ok (init_liks, g_post, norm + p).

(** Lines 167-182, one iteration; the state is [prev_prior_] and
    [norm_posteriors].  ([norm_posterior] is assigned in either branch
    before it is read, so it is local to the iteration.) *)
Definition normalise_body (uniform : F) (g_post : list F) (norm : F)
    (goal : nat) (s : list F * list F) : result (list F * list F) :=
  let '(prev_prior, norm_post) := s in
  if f_eqb norm (f_of_Z 0) then
    norm_post ← set_at v_norm_posteriors norm_post goal uniform;
    Ok (prev_prior, norm_post)
  else
    p ← at_ v_g_posteriors g_post goal;
    let norm_posterior := p / norm in
    prev_prior ←
      (if f_gtb norm_posterior (f_lit (1 # 100))
       then set_at v_prev_prior prev_prior goal norm_posterior
       else set_at v_prev_prior prev_prior goal (f_lit (5 # 1000)));
    norm_post ← set_at v_norm_posteriors norm_post goal norm_posterior;
    Ok (prev_prior, norm_post).

(** Lines 146-184: what one iteration of the agent loop does once the
    likelihoods are there (the update of the goal belief), with the value
    of the local [reset_priors] as a parameter. *)
Definition update (reset : bool) (n_goals : nat) (g_lik : list F) (st : Filter F)
    : result (Filter F * AgentInference F) :=
  '(init_liks, g_post, norm) ←
    for_loop (posterior_body reset (uniform_prior n_goals) g_lik (prev_prior_ st))
      0 n_goals (init_liks_ st, replicate n_goals (f_lit 0), f_lit 0);
  '(prev_prior, norm_post) ←
    for_loop (normalise_body (uniform_prior n_goals) g_post norm) 0 n_goals
      (prev_prior_ st, replicate n_goals (f_lit 0));
  _ ← at_ v_norm_posteriors norm_post 0;
  _ ← at_ v_norm_posteriors norm_post 1;
  _ ← at_ v_norm_posteriors norm_post 2;
  Ok (mkFilter init_liks prev_prior,
      mkAgentInference g_lik g_post norm norm_post).

Context `{Libm F}.

(** Lines 126-141: the bivariate Gaussian of one goal. *)
Definition goal_likelihood (curr_vel sim_vel : Vector2 F) : F :=
  let x := x_ sim_vel in
  let y := y_ sim_vel in
  let ux := x_ curr_vel in
  let uy := y_ curr_vel in
  let ox := (max_acc / f_of_Z 2) * ros_freq in
  let oy := (max_acc / f_of_Z 2) * ros_freq in
  let o2x := f_pow ox 2 in
  let o2y := f_pow oy 2 in
  let corr := f_lit 0 in
  let corr2 := f_pow corr 2 in
  let t1 := f_pow (x - ux) 2 / o2x in
  let t2 := f_pow (y - uy) 2 / o2y in
  let t3 := (f_of_Z 2 * corr * (x - ux) * (y - uy)) / (ox * oy) in
  let p := f_of_Z 1 / (f_of_Z 2 * f_PI * ox * oy * f_sqrt (f_of_Z 1 - corr2)) in
  let e := f_exp (- (f_of_Z 1 / (f_of_Z 2 * (f_of_Z 1 - corr2))) * (t1 + t2 - t3)) in
  p * e.

(** Lines 119-144, one iteration. *)
Definition likelihood_body (curr_vel : Vector2 F) (agent_sim_vels : list (Vector2 F))
    (goal : nat) (g_lik : list F) : result (list F) :=
  v ← at_ v_agent_sim_vels agent_sim_vels goal;
  set_at v_g_likelihoods g_lik goal (goal_likelihood curr_vel v).

(** Lines 110-184: one iteration of the agent loop. *)
Definition inferGoals_agent (reset : bool) (inp : Inputs F) (agent : nat)
    (st : Filter F) : result (Filter F * AgentInference F) :=
  let curr_vel := robot_vel_ inp in
  let n_goals := goal_sequence_size inp in
  let begin_ := (agent * n_goals)%nat in
  let end_ := (begin_ + n_goals)%nat in
  agent_sim_vels ← range v_sequence_sim_vels (sequence_sim_vels inp) begin_ end_;
  g_lik ← for_loop (likelihood_body curr_vel agent_sim_vels) 0 n_goals
            (replicate n_goals (f_lit 0));
  update reset n_goals g_lik st.

(** Lines 109-185: the agent loop; the state is the filter and the
    inferences made so far, in agent order. *)
Definition agent_body (reset : bool) (inp : Inputs F) (agent : nat)
    (s : Filter F * list (AgentInference F))
    : result (Filter F * list (AgentInference F)) :=
  '(st, r) ← inferGoals_agent reset inp agent (fst s);
  Ok (st, snd s ++ [r]).

Definition inferGoals_from (reset : bool) (inp : Inputs F) (st : Filter F)
    : result (Filter F * list (AgentInference F)) :=
  for_loop (agent_body reset inp) 0 (agents_size inp) (st, []).

(** [ModelWrapper::inferGoals]. *)
Definition inferGoals (inp : Inputs F) (st : Filter F)
    : result (Filter F * list (AgentInference F)) :=
  inferGoals_from reset_priors inp st.

(** The agent loop from agent [lo] on, as a recursion over the agents. *)
Fixpoint agents_run (reset : bool) (inp : Inputs F) (lo cnt : nat) (st : Filter F)
    : result (Filter F * list (AgentInference F)) :=
  match cnt with
  | O => Ok (st, [])
  | S c =>
      '(st1, r) ← inferGoals_agent reset inp lo st;
      '(st2, rs) ← agents_run reset inp (S lo) c st1;
      Ok (st2, r :: rs)
  end.

(** Successive calls of [inferGoals], one per tick, each on the filter the
    previous one left. *)
Fixpoint run_ticks (ticks : list (Inputs F)) (st : Filter F) : result (Filter F) :=
  match ticks with
  | [] => Ok st
  | inp :: rest => '(st', _) ← inferGoals inp st; run_ticks rest st'
  end.

End Code.

(** ** Exact real arithmetic *)

Definition Reqb (x y : R) : bool := if Req_dec_T x y then true else false.
Definition Rgtb (x y : R) : bool := if Rgt_dec x y then true else false.

Global Instance R_arith : Arith R := {|
  f_of_Z := IZR;
  f_lit := Q2R;
  f_PI := PI;
  f_add := Rplus;
  f_sub := Rminus;
  f_mul := Rmult;
  f_div := Rdiv;
  f_opp := Ropp;
  f_sqrt := sqrt;
  f_eqb := Reqb;
  f_gtb := Rgtb
|}.

Global Instance R_libm : Libm R := {|
  f_pow := pow;
  f_exp := exp
|}.

(** ** IEEE-754 binary32 *)

Module B32.

Definition prec : Z := 24.
Definition emax : Z := 128.

Definition of_Z (z : Z) : spec_float := binary_normalize prec emax z 0 false.

(** The float nearest to a fraction. *)
Definition of_Q (q : Q) : spec_float :=
  let den := S754_finite false (Qden q) 0 in
  match Qnum q with
  | Z0 => S754_zero false
  | Zpos p => SFdiv prec emax (S754_finite false p 0) den
  | Zneg p => SFdiv prec emax (S754_finite true p 0) den
  end.

(** 0x40490FDB, the float nearest to 3.14159265358979323846. *)
Definition PI : spec_float := S754_finite false 13176795 (-22).

Definition nan : spec_float := S754_nan.

Global Instance arith : Arith spec_float := {|
  f_of_Z := of_Z;
  f_lit := of_Q;
  f_PI := PI;
  f_add := SFadd prec emax;
  f_sub := SFsub prec emax;
  f_mul := SFmul prec emax;
  f_div := SFdiv prec emax;
  f_opp := SFopp;
  f_sqrt := SFsqrt prec emax;
  f_eqb := SFeqb;
  f_gtb := fun x y => SFltb y x
|}.

(** [expf] and [powf] of the C library, which IEEE-754 does not define. *)
Record libm : Type := mkLibm {
  expf : spec_float -> spec_float;
  powf : spec_float -> spec_float -> spec_float
}.

Definition libm_of (m : libm) : Libm spec_float := {|
  f_pow := fun x n => powf m x (of_Z (Z.of_nat n));
  f_exp := expf m
|}.

End B32.

(** ** Notions the statements use *)

Section Notions.
Context {F : Type} `{Arith F}.
Local Open Scope fl_scope.

(** The value line 175 or line 177 stores in [prev_prior_]. *)
Definition stored_prior (norm_posterior : F) : F :=
  if f_gtb norm_posterior (f_lit (1 # 100)) then norm_posterior
  else f_lit (5 # 1000).

(** What lines 152-157 leave in [g_posteriors[goal]], read off the filter
    as it stood before the loop. *)
Definition posterior_entry (reset : bool) (uniform : F)
    (init_liks : list bool) (g_lik prev_prior : list F) (goal : nat) (p : F) : Prop :=
  ((reset = true \/ init_liks !! goal = Some false) /\ p = uniform) \/
  (reset = false /\ init_liks !! goal = Some true /\
   exists l q, g_lik !! goal = Some l /\ prev_prior !! goal = Some q /\ p = l * q).

(** Everything a completed [update] establishes. *)
Record update_post (reset : bool) (n_goals : nat) (g_lik : list F)
    (st st' : Filter F) (r : AgentInference F) : Prop := {
  post_three : (3 <= n_goals)%nat;
  post_init_len : (n_goals <= length (init_liks_ st))%nat;
  post_lik : g_likelihoods r = g_lik;
  post_len_post : length (g_posteriors r) = n_goals;
  post_len_norm : length (norm_posteriors r) = n_goals;
  post_len_init : length (init_liks_ st') = length (init_liks_ st);
  post_len_prior : length (prev_prior_ st') = length (prev_prior_ st);
  post_entry : forall g, (g < n_goals)%nat ->
    exists p, g_posteriors r !! g = Some p /\
              posterior_entry reset (uniform_prior n_goals) (init_liks_ st)
                g_lik (prev_prior_ st) g p;
  post_norm : posterior_norm r = foldl f_add (f_lit 0) (g_posteriors r);
  post_flags : forall g, (g < n_goals)%nat -> init_liks_ st' !! g = Some true;
  post_flags_rest : forall g, (n_goals <= g)%nat ->
    init_liks_ st' !! g = init_liks_ st !! g;
  post_normalise :
    if f_eqb (posterior_norm r) (f_of_Z 0) then
      prev_prior_ st' = prev_prior_ st /\
      norm_posteriors r = replicate n_goals (uniform_prior n_goals)
    else
      (n_goals <= length (prev_prior_ st))%nat /\
      (forall g, (g < n_goals)%nat ->
         exists p, g_posteriors r !! g = Some p /\
                   norm_posteriors r !! g = Some (p / posterior_norm r) /\
                   prev_prior_ st' !! g = Some (stored_prior (p / posterior_norm r))) /\
      (forall g, (n_goals <= g)%nat -> prev_prior_ st' !! g = prev_prior_ st !! g)
}.

(** The filter as [init] sizes it: three flags and three stored priors. *)
Definition sized (st : Filter F) : Prop :=
  length (init_liks_ st) = 3%nat /\ length (prev_prior_ st) = 3%nat.

(** Every goal of the current hypothesis set has had its first update. *)
Definition initialised (n_goals : nat) (st : Filter F) : Prop :=
  forall g, (g < n_goals)%nat -> init_liks_ st !! g = Some true.

Context `{Libm F}.

(** The likelihoods of agent [agent]: [goal_likelihood] over its slice of
    [sequence_sim_vels]. *)
Definition agent_likelihoods (inp : Inputs F) (agent : nat) : list F :=
  goal_likelihood (robot_vel_ inp)
    <$> take (goal_sequence_size inp)
          (drop (agent * goal_sequence_size inp) (sequence_sim_vels inp)).

End Notions.

Section RealNotions.
Local Open Scope R_scope.

(** The density the specification writes for the likelihood: a bivariate
    Gaussian with no correlation and the same deviation on both axes. *)
Definition gaussian_density (s : R) (observed predicted : Vector2 R) : R :=
  1 / (2 * PI * s ^ 2)
  * exp (- ((x_ observed - x_ predicted) ^ 2 + (y_ observed - y_ predicted) ^ 2)
         / (2 * s ^ 2)).

(** The deviation of lines 130-131. *)
Definition sigma : R := (@max_acc R _ / 2) * @ros_freq R _.

Definition sum_list (l : list R) : R := foldr Rplus 0 l.

(** A belief as the specification wants it: entries that are not negative
    and add up to one. *)
Definition normalised (belief : list R) : Prop :=
  sum_list belief = 1 /\ Forall (fun b => 0 <= b) belief.

(** No stored prior that the filter will read is negative. *)
Definition prior_nonneg (st : Filter R) : Prop :=
  forall g q, init_liks_ st !! g = Some true -> prev_prior_ st !! g = Some q -> 0 <= q.

(** The scenario of the specification: three goals, one agent, observed
    velocity (1,0), predicted velocities (1,0), (0,1) and (-1,0). *)
Definition observed : Vector2 R := mkVector2 1 0.
Definition predicted : list (Vector2 R) :=
  [mkVector2 1 0; mkVector2 0 1; mkVector2 (-1) 0].
Definition scenario : Inputs R := mkInputs observed 1 3 predicted.

(** The filter with every flag set and the uniform prior stored. *)
Definition thirds : Filter R :=
  mkFilter [true; true; true] [1 / 3; 1 / 3; 1 / 3].

(** The three likelihoods of the scenario. *)
Definition lik_on : R := goal_likelihood observed (mkVector2 1 0).
Definition lik_side : R := goal_likelihood observed (mkVector2 0 1).
Definition lik_back : R := goal_likelihood observed (mkVector2 (-1) 0).

(** A tick with five goals and no agent. *)
Definition five_goals_no_agent : Inputs R := mkInputs observed 0 5 [].

(** A tick with three goals and one agent, and no predicted velocity. *)
Definition no_predictions : Inputs R := mkInputs observed 1 3 [].

(** A filter whose stored priors favour the first goal. *)
Definition skewed : Filter R :=
  mkFilter [true; true; true] [9 / 10; 5 / 1000; 5 / 1000].

(** Predictions that all equal the observed velocity. *)
Definition stay : list (Vector2 R) := [observed; observed; observed].

(** Two agents, each with its own slice of predicted velocities. *)
Definition two_agents (first second : list (Vector2 R)) : Inputs R :=
  mkInputs observed 2 3 (first ++ second).

End RealNotions.

Section FloatNotions.

(** In binary32: the filter with every flag set and the uniform prior
    stored, as a first tick with three goals leaves it. *)
Definition thirds32 : Filter spec_float :=
  mkFilter [true; true; true] (replicate 3 (uniform_prior 3)).

(** Likelihoods that have all underflowed to zero. *)
Definition underflowed : list spec_float := replicate 3 (S754_zero false).

(** Likelihoods of which only the first has not underflowed. *)
Definition peaked : list spec_float :=
  [B32.of_Z 44; S754_zero false; S754_zero false].

(** An observed velocity with a component that is not a number. *)
Definition nan_inputs : Inputs spec_float :=
  mkInputs (mkVector2 B32.nan (B32.of_Z 0)) 1 3
    [mkVector2 (B32.of_Z 1) (B32.of_Z 0);
     mkVector2 (B32.of_Z 0) (B32.of_Z 1);
     mkVector2 (B32.of_Z (-1)) (B32.of_Z 0)].

End FloatNotions.

(** ** Further notions *)

Section FurtherNotions.
Local Open Scope R_scope.

(** Every stored prior that the filter will read is the floor of line 177,
    or a belief that passed the test of line 174: none lies below 0.005 or
    between 0.005 and 0.01, and none exceeds one. *)
Definition prior_floored (st : Filter R) : Prop :=
  forall g q, init_liks_ st !! g = Some true -> prev_prior_ st !! g = Some q ->
    q = 5 / 1000 \/ 1 / 100 < q <= 1.


(** In binary32: no stored prior is NaN. *)
Definition prior_clean (st : Filter spec_float) : Prop :=
  Forall (fun q => q <> S754_nan) (prev_prior_ st).

(** The scenario in binary32, and a tick with the same predictions whose
    observed velocity (5,5) is far from all of them. *)
Definition scenario32 : Inputs spec_float :=
  mkInputs (mkVector2 (B32.of_Z 1) (B32.of_Z 0)) 1 3
    [mkVector2 (B32.of_Z 1) (B32.of_Z 0);
     mkVector2 (B32.of_Z 0) (B32.of_Z 1);
     mkVector2 (B32.of_Z (-1)) (B32.of_Z 0)].

Definition far32 : Inputs spec_float :=
  mkInputs (mkVector2 (B32.of_Z 5) (B32.of_Z 5)) 1 3
    [mkVector2 (B32.of_Z 1) (B32.of_Z 0);
     mkVector2 (B32.of_Z 0) (B32.of_Z 1);
     mkVector2 (B32.of_Z (-1)) (B32.of_Z 0)].

(** What the run in binary32 asks of the C library.  The square that [pow]
    returns, stored in a [float], is the product rounded once: with the
    exponent 2 of lines 132-133 the operands are converted to [double], in
    which the product of two floats is exact, and with the exponent 2.0f
    the squares the run meets are whole numbers.  [exp] of zero is one.
    [exp] of an argument below -104, stored in a [float], is zero: the
    exponential is then less than 2^-150, half the least positive
    [float]. *)
Record underflows (m : B32.libm) : Prop := {
  pow_square : forall x,
    B32.powf m x (B32.of_Z 2) = SFmul B32.prec B32.emax x x;
  exp_zero : forall s, B32.expf m (S754_zero s) = B32.of_Z 1;
  exp_underflow : forall x,
    SFltb x (B32.of_Z (-104)) = true -> B32.expf m x = S754_zero false
}.

(** A library that meets [underflows].  Its [expf] is one wherever it is not
    zero; the statements read it at zero and below -104 only. *)
Definition flushing : B32.libm :=
  B32.mkLibm
    (fun x => if SFltb x (B32.of_Z (-104)) then S754_zero false else B32.of_Z 1)
    (fun x _ => SFmul B32.prec B32.emax x x).

End FurtherNotions.

(** ** Vector accesses in the nodes *)

(** [v[i] = x] on a vector, with [None] for an index past the end. *)
Definition write {A} (l : list A) (i : nat) (x : A) : option (list A) :=
  if decide (i < length l) then Some (<[i := x]> l) else None.

(** [for (i = lo; i < lo + cnt; ++i) body], with [None] for an access past
    the end of a vector. *)
Fixpoint loop {St} (body : nat -> St -> option St) (lo cnt : nat) (s : St)
    : option St :=
  match cnt with
  | O => Some s
  | S c => s' ← body lo s; loop body (S lo) c s'
  end.

(** ** The model node around the filter: [runModel], [setupModel], [runSims] *)

Module Node.

(** [model_msgs::ModelHypotheses], the fields the node reads. *)
Record GoalHypothesis (Goal Space Resolution : Type) : Type := mkGoalHypothesis {
  sampling : bool;
  sample_space : Space;
  sample_resolution : Resolution;
  goal_sequence : list Goal
}.
Arguments mkGoalHypothesis {Goal Space Resolution} sampling sample_space
  sample_resolution goal_sequence.
Arguments sampling {Goal Space Resolution} g.
Arguments sample_space {Goal Space Resolution} g.
Arguments sample_resolution {Goal Space Resolution} g.
Arguments goal_sequence {Goal Space Resolution} g.

Record ModelHypotheses (Agent Goal Space Resolution : Type) : Type :=
  mkModelHypotheses {
    agents : list Agent;
    goals : bool;
    awareness : bool;
    goal_hypothesis : GoalHypothesis Goal Space Resolution
  }.
Arguments mkModelHypotheses {Agent Goal Space Resolution} agents goals awareness
  goal_hypothesis.
Arguments agents {Agent Goal Space Resolution} _.
Arguments goals {Agent Goal Space Resolution} _.
Arguments awareness {Agent Goal Space Resolution} _.
Arguments goal_hypothesis {Agent Goal Space Resolution} _.

(** [environment_msgs::EnvironmentData], the fields the node reads. *)
Record EnvironmentData (Pose Twist : Type) : Type := mkEnvironmentData {
  agent_poses : list Pose;
  agent_vels : list Twist
}.
Arguments mkEnvironmentData {Pose Twist} agent_poses agent_vels.
Arguments agent_poses {Pose Twist} e.
Arguments agent_vels {Pose Twist} e.

(** What the node uses and its source does not define: the messages it only
    stores and hands on, the reading of a twist's linear [x] and [y] as
    [float] (lines 106-107), and the class [SimWrapper] with the member
    functions the node calls. *)
Class Outside (F : Type) : Type := {
  Pose : Type;
  Twist : Type;
  Agent : Type;
  Goal : Type;
  Space : Type;
  Resolution : Type;
  SequenceSims : Type;
  SamplingSims : Type;
  SimWrapper : Type;
  linear_xy : Twist -> Vector2 F;
  setRobotModel : bool -> SimWrapper -> SimWrapper;
  setRobotGoal : Pose -> SimWrapper -> SimWrapper;
  setEnvironment : list Pose -> list Twist -> SimWrapper -> SimWrapper;
  setModelAgents : list Agent -> SimWrapper -> SimWrapper;
  goalSampling : Space -> Resolution -> SimWrapper -> SimWrapper * SamplingSims;
  goalSequence : list Goal -> SimWrapper -> SimWrapper * SequenceSims;
  calcSimVels : SequenceSims -> nat -> SimWrapper -> SimWrapper * list (Vector2 F)
}.

Section Node.
Context {F : Type} `{Arith F} `{Libm F} `{Outside F}.

(** The members of [ModelWrapper] that [runModel] reads or writes. *)
Record wrapper : Type := mkWrapper {
  robot_model_ : bool;
  robot_pose_ : Pose;
  robot_goal_ : Pose;
  robot_vel_ : Twist;
  env_data_ : EnvironmentData Pose Twist;
  hypotheses_ : ModelHypotheses Agent Goal Space Resolution;
  sampling_sims_ : SamplingSims;
  sequence_sims_ : SequenceSims;
  sequence_sim_vels : list (Vector2 F);
  filter : Filter F;
  sim_wrapper_ : SimWrapper
}.

Definition set_sims (sampling_sims : SamplingSims) (sequence_sims : SequenceSims)
    (sim : SimWrapper) (w : wrapper) : wrapper :=
  mkWrapper (robot_model_ w) (robot_pose_ w) (robot_goal_ w) (robot_vel_ w)
    (env_data_ w) (hypotheses_ w) sampling_sims sequence_sims
    (sequence_sim_vels w) (filter w) sim.

Definition set_sim_vels (sim_vels : list (Vector2 F)) (sim : SimWrapper)
    (w : wrapper) : wrapper :=
  mkWrapper (robot_model_ w) (robot_pose_ w) (robot_goal_ w) (robot_vel_ w)
    (env_data_ w) (hypotheses_ w) (sampling_sims_ w) (sequence_sims_ w)
    sim_vels (filter w) sim.

Definition set_filter (st : Filter F) (w : wrapper) : wrapper :=
  mkWrapper (robot_model_ w) (robot_pose_ w) (robot_goal_ w) (robot_vel_ w)
    (env_data_ w) (hypotheses_ w) (sampling_sims_ w) (sequence_sims_ w)
    (sequence_sim_vels w) st (sim_wrapper_ w).

(** [ModelWrapper::setupModel], lines 189-218. *)
Definition setupModel (w : wrapper) : wrapper :=
  let sim := setRobotModel (robot_model_ w) (sim_wrapper_ w) in
  let '(agent_poses_, agent_vels_, sim) :=
    if robot_model_ w
    then ([robot_pose_ w], [robot_vel_ w], setRobotGoal (robot_goal_ w) sim)
    else ([], [], sim) in
  let agent_poses_ := agent_poses_ ++ agent_poses (env_data_ w) in
  let agent_vels_ := agent_vels_ ++ agent_vels (env_data_ w) in
  let sim := setEnvironment agent_poses_ agent_vels_ sim in
  let sim := setModelAgents (agents (hypotheses_ w)) sim in
  if goals (hypotheses_ w) then
    if sampling (goal_hypothesis (hypotheses_ w)) then
      let '(sim, sims) :=
        goalSampling (sample_space (goal_hypothesis (hypotheses_ w)))
          (sample_resolution (goal_hypothesis (hypotheses_ w))) sim in
      set_sims sims (sequence_sims_ w) sim w
    else
      let '(sim, sims) :=
        goalSequence (goal_sequence (goal_hypothesis (hypotheses_ w))) sim in
      set_sims (sampling_sims_ w) sims sim w
  else set_sims (sampling_sims_ w) (sequence_sims_ w) sim w.

(** [ModelWrapper::runSims], lines 220-238. *)
Definition runSims (w : wrapper) : wrapper :=
  let w := set_sim_vels [] (sim_wrapper_ w) w in
  if goals (hypotheses_ w) then
    if sampling (goal_hypothesis (hypotheses_ w)) then w
    else
      let n_goals := length (goal_sequence (goal_hypothesis (hypotheses_ w))) in
      let '(sim, sim_vels) := calcSimVels (sequence_sims_ w) n_goals (sim_wrapper_ w) in
      set_sim_vels sim_vels sim w
  else w.

(** What [inferGoals] reads of the object (lines 105-109). *)
Definition inputs (w : wrapper) : Inputs F :=
  mkInputs (linear_xy (robot_vel_ w)) (length (agents (hypotheses_ w)))
    (length (goal_sequence (goal_hypothesis (hypotheses_ w))))
    (sequence_sim_vels w).

(** [ModelWrapper::runModel], lines 93-97; the result is the object and the
    inferences of [inferGoals]. *)
Definition runModel (w : wrapper) : result (wrapper * list (AgentInference F)) :=
  let w := runSims (setupModel w) in
  '(st, rs) ← inferGoals (inputs w) (filter w);
  Ok (set_filter st w, rs).

End Node.

(** A simulator to run the node with: it predicts, for every agent and
    goal, the velocity (1,0). *)
Definition still : Outside R := {|
  Pose := unit;
  Twist := Vector2 R;
  Agent := nat;
  Goal := nat;
  Space := unit;
  Resolution := unit;
  SequenceSims := nat;
  SamplingSims := unit;
  SimWrapper := nat;
  linear_xy := fun t => t;
  setRobotModel := fun _ sim => sim;
  setRobotGoal := fun _ sim => sim;
  setEnvironment := fun _ _ sim => sim;
  setModelAgents := fun agents _ => length agents;
  goalSampling := fun _ _ sim => (sim, tt);
  goalSequence := fun goals sim => (sim, sim);
  calcSimVels := fun sims n_goals sim =>
    (sim, replicate (sims * n_goals) (mkVector2 1 0)%R)
|}.

(** A node with one agent and three goals that is asked to sample goals. *)
Definition sampling_node : @wrapper R still :=
  @mkWrapper R still true tt tt (mkVector2 1 0)%R (mkEnvironmentData [] [])
    (mkModelHypotheses [0] true false (mkGoalHypothesis true tt tt [0; 1; 2]))
    tt 0 [mkVector2 1 0; mkVector2 0 1; mkVector2 (-1) 0]%R init 0.

(** The same node asked for the sequence of its three goals. *)
Definition sequence_node : @wrapper R still :=
  @mkWrapper R still true tt tt (mkVector2 1 0)%R (mkEnvironmentData [] [])
    (mkModelHypotheses [0] true false (mkGoalHypothesis false tt tt [0; 1; 2]))
    tt 0 [] init 0.

End Node.

(** ** The experiment node: [src/icrin/experiment/src/experiment.cpp] *)

Module Experiment.

(** [geometry_msgs::Pose2D] over the type [D] of its coordinates. *)
Record Pose2D (D : Type) : Type := mkPose2D { x : D; y : D; theta : D }.
Arguments mkPose2D {D} x y theta.

(** [experiment_msgs::Plan]; goal numbers are read as the comparison with the
    [size_t] [goal_no_] on line 222 reads them, as unsigned numbers. *)
Record Plan : Type := mkPlan { repeat : bool; sequence : list nat }.

(** The members of [Experiment] that the functions below read or write. *)
Record state (D : Type) : Type := mkState {
  robots_ : list string;
  goal_no_ : nat;
  goals_ : list (Pose2D D);          (* goals_.goal *)
  plans_ : list Plan;                (* plans_.plan *)
  setup_plans_ : list Plan;          (* setup_plans_.plan *)
  robots_planning_ : list bool;
  robots_ready_ : bool;
  prog_ : nat;
  interrupted_ : bool
}.
Arguments mkState {D} robots_ goal_no_ goals_ plans_ setup_plans_
  robots_planning_ robots_ready_ prog_ interrupted_.
Arguments robots_ {D} s.
Arguments goal_no_ {D} s.
Arguments goals_ {D} s.
Arguments plans_ {D} s.
Arguments setup_plans_ {D} s.
Arguments robots_planning_ {D} s.
Arguments robots_ready_ {D} s.
Arguments prog_ {D} s.
Arguments interrupted_ {D} s.

(** The parameter server, as [ros::param] shows it to [loadParams]: [has],
    and [get] by the type of the variable it fills ([None] when [get] returns
    false and leaves the variable as it was). *)
Record params (D : Type) : Type := mkParams {
  has : string -> bool;
  get_strings : string -> option (list string);
  get_int : string -> option Z;
  get_double : string -> option D;
  get_bool : string -> option bool;
  get_ints : string -> option (list Z)
}.
Arguments has {D} p key.
Arguments get_strings {D} p key.
Arguments get_int {D} p key.
Arguments get_double {D} p key.
Arguments get_bool {D} p key.
Arguments get_ints {D} p key.

Section Experiment.
Context {D : Type}.

(** The members as the constructor finds them: the vectors empty; the
    scalars are all assigned by [loadParams] or [init] before they are
    read. *)
Definition fresh : state D := mkState [] 0 [] [] [] [] false 0 false.

Definition set_goals (goal_no : nat) (goals : list (Pose2D D)) (e : state D) : state D :=
  mkState (robots_ e) goal_no goals (plans_ e) (setup_plans_ e)
    (robots_planning_ e) (robots_ready_ e) (prog_ e) (interrupted_ e).

Definition set_plans (plans : list Plan) (e : state D) : state D :=
  mkState (robots_ e) (goal_no_ e) (goals_ e) plans (setup_plans_ e)
    (robots_planning_ e) (robots_ready_ e) (prog_ e) (interrupted_ e).

Definition set_planning (planning : list bool) (e : state D) : state D :=
  mkState (robots_ e) (goal_no_ e) (goals_ e) (plans_ e) (setup_plans_ e)
    planning (robots_ready_ e) (prog_ e) (interrupted_ e).

(** [Experiment::init], lines 97-102. *)
Definition init (e : state D) : state D :=
  mkState (robots_ e) (goal_no_ e) (goals_ e) (plans_ e) (setup_plans_ e)
    (resize (length (robots_ e)) false (robots_planning_ e)) false 0 false.

(** [Experiment::loadParams], lines 131-146: the goal of index [i]. *)
Definition load_goal (zero : D) (ps : params D) (i : nat) : option (Pose2D D) :=
  let key := "/experiment/goals/g_" +:+ pretty i in
  if has ps key then
    Some (mkPose2D (default zero (get_double ps (key +:+ "/x")))
                   (default zero (get_double ps (key +:+ "/y")))
                   (default zero (get_double ps (key +:+ "/theta"))))
  else None.

(** Lines 131-146: the loop; the state is [goals_.goal] and whether
    [ros::shutdown] was called. *)
Fixpoint load_goals (zero : D) (ps : params D) (i cnt : nat)
    (goals : list (Pose2D D)) (shutdown : bool) : list (Pose2D D) * bool :=
  match cnt with
  | O => (goals, shutdown)
  | S c =>
      match load_goal zero ps i with
      | Some goal => load_goals zero ps (S i) c (goals ++ [goal]) shutdown
      | None => load_goals zero ps (S i) c goals true
      end
  end.

(** Lines 151-164: the plan and the set-up plan of one robot.  [repeat] is
    not initialised on line 152: [indeterminate] is what it holds when the
    parameter is missing.  [id_of_int] is the conversion of line 158 from
    [int] to the element type of the message. *)
Definition load_plan (indeterminate : bool) (id_of_int : Z -> nat)
    (ps : params D) (robot : string) : Plan * Plan :=
  let repeat :=
    default indeterminate (get_bool ps ("/experiment/plans/" +:+ robot +:+ "/repeat")) in
  let sequence :=
    default [] (get_ints ps ("/experiment/plans/" +:+ robot +:+ "/sequence")) in
  let plan := mkPlan repeat (id_of_int <$> sequence) in
  (plan, mkPlan false (resize 1 0 (Experiment.sequence plan))).

(** Lines 150-165: the loop over the robots. *)
Fixpoint load_plans (indeterminate : bool) (id_of_int : Z -> nat)
    (ps : params D) (robots : list string) (plans setup_plans : list Plan)
    : list Plan * list Plan :=
  match robots with
  | [] => (plans, setup_plans)
  | robot :: rest =>
      let '(plan, setup) := load_plan indeterminate id_of_int ps robot in
      load_plans indeterminate id_of_int ps rest (plans ++ [plan]) (setup_plans ++ [setup])
  end.

(** [Experiment::loadParams]; the result is the object and whether
    [ros::shutdown] was called. *)
Definition loadParams (zero : D) (indeterminate : bool) (id_of_int : Z -> nat)
    (ps : params D) (e : state D) : state D * bool :=
  let robots := default (robots_ e) (get_strings ps "/experiment/robots") in
  let goal_n := default 0%Z (get_int ps "/experiment/goals/number") in
  let goal_no := Z.to_nat (goal_n mod 2 ^ 64) in
  let '(goals, shutdown) :=
    if decide (goal_no = 0) then (goals_ e, true)
    else load_goals zero ps 0 goal_no (goals_ e) false in
  let '(plans, setup_plans) :=
    load_plans indeterminate id_of_int ps robots (plans_ e) (setup_plans_ e) in
  (mkState robots goal_no goals plans setup_plans
     (robots_planning_ e) (robots_ready_ e) (prog_ e) (interrupted_ e),
   shutdown).

(** The constructor, lines 86-91, without the topics it advertises. *)
Definition construct (zero : D) (indeterminate : bool) (id_of_int : Z -> nat)
    (ps : params D) : state D * bool :=
  let '(e, shutdown) := loadParams zero indeterminate id_of_int ps fresh in
  (init e, shutdown).

(** [Experiment::planningCB], lines 194-199, from robot [i] on. *)
Fixpoint planningCB_loop (data : bool) (robot : string) (robots : list string)
    (i : nat) (planning : list bool) : option (list bool) :=
  match robots with
  | [] => Some planning
  | r :: rest =>
      if String.eqb robot r then write planning i data
      else planningCB_loop data robot rest (S i) planning
  end.

Definition planningCB (data : bool) (robot : string) (e : state D)
    : option (state D) :=
  planning ← planningCB_loop data robot (robots_ e) 0 (robots_planning_ e);
  Some (set_planning planning e).

(** [Experiment::setGoal], lines 202-213; the result is the object and
    [res.ok]. *)
Definition setGoal (req_goal_no : nat) (req_goal : Pose2D D) (e : state D)
    : state D * bool :=
  if decide (req_goal_no < length (goals_ e)) then
    (set_goals (goal_no_ e) (<[req_goal_no := req_goal]> (goals_ e)) e, true)
  else
    let goals := goals_ e ++ [req_goal] in
    (set_goals (length goals) goals e, true).

(** Lines 221-226: [sequence_ok] after the inner loop. *)
Fixpoint sequence_ok (goal_no : nat) (sequence : list nat) : bool :=
  match sequence with
  | [] => true
  | id :: rest => if decide (goal_no <= id) then false else sequence_ok goal_no rest
  end.

(** Lines 219-235, from robot [i] on; the result is [plans_.plan], [res.ok]
    and [sequence_ok]. *)
Fixpoint setPlan_loop (req_robot : string) (req_plan : Plan) (goal_no : nat)
    (robots : list string) (i : nat) (plans : list Plan)
    : option (list Plan * bool * bool) :=
  match robots with
  | [] => Some (plans, false, true)
  | r :: rest =>
      if String.eqb req_robot r then
        if sequence_ok goal_no (sequence req_plan) then
          plans ← write plans i req_plan; Some (plans, true, true)
        else Some (plans, false, false)
      else setPlan_loop req_robot req_plan goal_no rest (S i) plans
  end.

(** [Experiment::setPlan], lines 215-240; the result is the object and
    [res.ok]. *)
Definition setPlan (req_robot : string) (req_plan : Plan) (e : state D)
    : option (state D * bool) :=
  '(plans, ok, _) ←
    setPlan_loop req_robot req_plan (goal_no_ e) (robots_ e) 0 (plans_ e);
  Some (set_plans plans e, ok).

(** [Experiment::stopExperiment], line 254. *)
Definition stopExperiment (e : state D) : state D :=
  set_planning (replicate (length (robots_ e)) false) e.

(** The calls of the two services. *)
Inductive call : Type :=
  | SetGoal (goal_no : nat) (goal : Pose2D D)
  | SetPlan (robot : string) (plan : Plan).

Definition serve (c : call) (e : state D) : option (state D) :=
  match c with
  | SetGoal goal_no goal => Some (fst (setGoal goal_no goal e))
  | SetPlan robot plan => fst <$> setPlan robot plan e
  end.

Fixpoint serve_all (calls : list call) (e : state D) : option (state D) :=
  match calls with
  | [] => Some e
  | c :: rest => e' ← serve c e; serve_all rest e'
  end.

(** Every plan names goals that exist, and [goal_no_] is the number of
    goals. *)
Definition plans_valid (e : state D) : Prop :=
  goal_no_ e = length (goals_ e) /\
  length (plans_ e) = length (robots_ e) /\
  Forall (fun p => Forall (fun id => id < length (goals_ e)) (sequence p)) (plans_ e).

End Experiment.

(** [Experiment::waitReturn], lines 259-270, on the characters that
    [std::cin] still holds; the result is [interrupted_] and the characters
    left.  At the end of the input [get] returns [EOF] on every call, which
    is neither of the two keys, and the loop does not end: [None]. *)
Fixpoint waitReturn (input : list ascii) (interrupted : bool)
    : option (bool * list ascii) :=
  match input with
  | [] => None
  | key :: rest =>
      if Ascii.eqb key "010"%char then Some (interrupted, rest)
      else if Ascii.eqb key "q"%char then Some (true, rest)
      else waitReturn rest interrupted
  end.

(** The topic of a robot's planning flag, lines 107 and 109. *)
Definition planning_topic (robot : string) : string :=
  "/" +:+ robot +:+ "/environment/planning".

(** [Experiment::rosSetup], lines 105-112, run for at most [fuel] tests of
    the loop condition ([None]: more are needed); the state is the topics of
    [planning_pub_], which are those of [planning_sub_] too.  The counter
    [i] is a [uint8_t]: incrementing 255 gives 0. *)
Fixpoint rosSetup_loop (fuel : nat) (i : nat) (robots : list string)
    (topics : list string) : option (list string) :=
  match fuel with
  | O => None
  | S fuel =>
      if decide (i < length robots) then
        rosSetup_loop fuel ((i + 1) mod 256) robots
          (topics ++ [planning_topic (robots !!! i)])
      else Some topics
  end.

(** An example object: two robots, two goals. *)
Definition two_robots : state Z :=
  mkState ["youbot_1"; "youbot_2"] 2 [mkPose2D 0 0 0; mkPose2D 1 1 0]%Z
    [mkPlan true [0; 1]; mkPlan false [1]] [mkPlan false [0]; mkPlan false [1]]
    [false; false] false 0 false.

End Experiment.

(** ** The planner node: [planner_wrapper.cpp] ([src/unnamed/part_001]) *)

Module Planner.

(** [geometry_msgs::Pose2D], [geometry_msgs::Twist] and
    [geometry_msgs::PoseStamped] (the fields the node touches) over the type
    [D] of their numbers. *)
Record Pose2D (D : Type) : Type := mkPose2D { x : D; y : D; theta : D }.
Arguments mkPose2D {D} x y theta.
Arguments x {D} p.
Arguments y {D} p.
Arguments theta {D} p.

Record Twist (D : Type) : Type := mkTwist {
  linear_x : D; linear_y : D; linear_z : D;
  angular_x : D; angular_y : D; angular_z : D
}.
Arguments mkTwist {D} linear_x linear_y linear_z angular_x angular_y angular_z.
Arguments linear_x {D} t.
Arguments linear_y {D} t.
Arguments linear_z {D} t.
Arguments angular_x {D} t.
Arguments angular_y {D} t.
Arguments angular_z {D} t.

Record PoseStamped (D : Type) : Type := mkPoseStamped {
  position_x : D; position_y : D;
  orientation_x : D; orientation_y : D; orientation_z : D; orientation_w : D
}.
Arguments mkPoseStamped {D} position_x position_y
  orientation_x orientation_y orientation_z orientation_w.
Arguments position_x {D} p.
Arguments position_y {D} p.
Arguments orientation_x {D} p.
Arguments orientation_y {D} p.
Arguments orientation_z {D} p.
Arguments orientation_w {D} p.

(** [environment_msgs::EnvironmentData]. *)
Record EnvironmentData (D Ids : Type) : Type := mkEnvironmentData {
  tracker_ids : Ids;
  agent_poses : list (Pose2D D);
  agent_vels : list (Twist D)
}.
Arguments mkEnvironmentData {D Ids} tracker_ids agent_poses agent_vels.
Arguments tracker_ids {D Ids} e.
Arguments agent_poses {D Ids} e.
Arguments agent_vels {D Ids} e.

(** What the node uses and its source does not define: the numbers of the
    messages ([D], with the literals 0.0 and 1.0), the numbers of
    [common_msgs::Vector2] ([F], with 0.0f) and the conversions between
    them, and the classes [RVOPlanner] and [ROSNavigation] with the member
    functions the node calls. *)
Class Outside (D F Ids Settings RVO Nav : Type) : Type := {
  zero_D : D;
  one_D : D;
  zero_F : F;
  to_F : D -> F;
  to_D : F -> D;
  RVO_PLANNER : N;
  ROS_NAVIGATION : N;
  new_RVOPlanner : RVO;
  new_ROSNavigation : Nav;
  setPlannerSettings : F -> Settings -> RVO -> RVO;
  planStep : RVO -> RVO * Vector2 F;
  getArrived : RVO -> bool;
  setCurrVel : Vector2 F -> RVO -> RVO;
  setCurrPose : Vector2 F -> RVO -> RVO;
  setPlannerGoal : Vector2 F -> RVO -> RVO;
  setupEnvironment : Ids -> list (Vector2 F) -> list (Vector2 F) -> RVO -> RVO;
  nav_planStep : Nav -> Nav;
  nav_getArrived : Nav -> bool;
  nav_getAborted : Nav -> bool;
  nav_setPlannerGoal : PoseStamped D -> Nav -> Nav
}.

(** The members of [PlannerWrapper].  A pointer member is [None] until it is
    assigned. *)
Record state (D F Ids RVO Nav : Type) : Type := mkState {
  use_rvo_planner_ : bool;
  use_ros_navigation_ : bool;
  planning_ : bool;
  arrived_ : bool;
  aborted_ : bool;
  planner_init : bool;
  curr_pose_ : Vector2 F;
  goal_pose_ : Vector2 F;
  target_pose_ : PoseStamped D;
  cmd_vel_ : Twist D;
  null_vect_ : Vector2 F;
  rvo_planner_vel_ : Vector2 F;
  environment_ : EnvironmentData D Ids;
  rvo_planner_ : option RVO;
  ros_navigation_ : option Nav
}.
Arguments mkState {D F Ids RVO Nav} use_rvo_planner_ use_ros_navigation_ planning_
  arrived_ aborted_ planner_init curr_pose_ goal_pose_ target_pose_ cmd_vel_
  null_vect_ rvo_planner_vel_ environment_ rvo_planner_ ros_navigation_.
Arguments use_rvo_planner_ {D F Ids RVO Nav} s.
Arguments use_ros_navigation_ {D F Ids RVO Nav} s.
Arguments planning_ {D F Ids RVO Nav} s.
Arguments arrived_ {D F Ids RVO Nav} s.
Arguments aborted_ {D F Ids RVO Nav} s.
Arguments planner_init {D F Ids RVO Nav} s.
Arguments curr_pose_ {D F Ids RVO Nav} s.
Arguments goal_pose_ {D F Ids RVO Nav} s.
Arguments target_pose_ {D F Ids RVO Nav} s.
Arguments cmd_vel_ {D F Ids RVO Nav} s.
Arguments null_vect_ {D F Ids RVO Nav} s.
Arguments rvo_planner_vel_ {D F Ids RVO Nav} s.
Arguments environment_ {D F Ids RVO Nav} s.
Arguments rvo_planner_ {D F Ids RVO Nav} s.
Arguments ros_navigation_ {D F Ids RVO Nav} s.

(** What the node publishes. *)
Inductive published (D : Type) : Type :=
  | on_cmd_vel (msg : Twist D)
  | on_planning (data : bool)
  | on_arrived (data : bool).
Arguments on_cmd_vel {D} msg.
Arguments on_planning {D} data.
Arguments on_arrived {D} data.

Section Planner.
Context {D F Ids Settings RVO Nav : Type} `{Outside D F Ids Settings RVO Nav}.

(** The object, over the types of this section. *)
Definition wrapper : Type := state D F Ids RVO Nav.

(** [PlannerWrapper::init], lines 27-48, on the object as the constructor
    finds it. *)
Definition init (s : wrapper) : wrapper :=
  let curr_pose := mkVector2 zero_F zero_F in
  mkState false false false false (aborted_ s) false
    curr_pose curr_pose
    (mkPoseStamped (position_x (target_pose_ s)) (position_y (target_pose_ s))
       zero_D zero_D zero_D one_D)
    (mkTwist zero_D zero_D zero_D zero_D zero_D zero_D)
    (mkVector2 zero_F zero_F) (rvo_planner_vel_ s) (environment_ s)
    (rvo_planner_ s) (ros_navigation_ s).

(** [PlannerWrapper::pubPlanning], lines 79-84. *)
Definition pubPlanning (planning : bool) (s : wrapper) : wrapper * list (published D) :=
  (mkState (use_rvo_planner_ s) (use_ros_navigation_ s) planning (arrived_ s)
     (aborted_ s) (planner_init s) (curr_pose_ s) (goal_pose_ s) (target_pose_ s)
     (cmd_vel_ s) (null_vect_ s) (rvo_planner_vel_ s) (environment_ s)
     (rvo_planner_ s) (ros_navigation_ s),
   [on_planning planning]).

(** [PlannerWrapper::pubArrived], lines 86-91. *)
Definition pubArrived (arrived : bool) (s : wrapper) : wrapper * list (published D) :=
  (mkState (use_rvo_planner_ s) (use_ros_navigation_ s) (planning_ s) arrived
     (aborted_ s) (planner_init s) (curr_pose_ s) (goal_pose_ s) (target_pose_ s)
     (cmd_vel_ s) (null_vect_ s) (rvo_planner_vel_ s) (environment_ s)
     (rvo_planner_ s) (ros_navigation_ s),
   [on_arrived arrived]).

(** [PlannerWrapper::setupNewPlanner], lines 93-109; the result is the
    object and [res.ok]. *)
Definition setupNewPlanner (planner_type : N) (s : wrapper) : wrapper * bool :=
  if (planner_type =? RVO_PLANNER)%N && negb (planner_init s) then
    (mkState true (use_ros_navigation_ s) (planning_ s) (arrived_ s)
       (aborted_ s) true (curr_pose_ s) (goal_pose_ s) (target_pose_ s)
       (cmd_vel_ s) (null_vect_ s) (rvo_planner_vel_ s) (environment_ s)
       (Some new_RVOPlanner) (ros_navigation_ s),
     true)
  else if (planner_type =? ROS_NAVIGATION)%N && negb (planner_init s) then
    (mkState (use_rvo_planner_ s) true (planning_ s) (arrived_ s)
       (aborted_ s) true (curr_pose_ s) (goal_pose_ s) (target_pose_ s)
       (cmd_vel_ s) (null_vect_ s) (rvo_planner_vel_ s) (environment_ s)
       (rvo_planner_ s) (Some new_ROSNavigation),
     true)
  else (s, false).

Definition set_rvo (rvo : RVO) (s : wrapper) : wrapper :=
  mkState (use_rvo_planner_ s) (use_ros_navigation_ s) (planning_ s) (arrived_ s)
    (aborted_ s) (planner_init s) (curr_pose_ s) (goal_pose_ s) (target_pose_ s)
    (cmd_vel_ s) (null_vect_ s) (rvo_planner_vel_ s) (environment_ s)
    (Some rvo) (ros_navigation_ s).

Definition set_nav (nav : Nav) (s : wrapper) : wrapper :=
  mkState (use_rvo_planner_ s) (use_ros_navigation_ s) (planning_ s) (arrived_ s)
    (aborted_ s) (planner_init s) (curr_pose_ s) (goal_pose_ s) (target_pose_ s)
    (cmd_vel_ s) (null_vect_ s) (rvo_planner_vel_ s) (environment_ s)
    (rvo_planner_ s) (Some nav).

(** [PlannerWrapper::setupRVOPlanner], lines 111-117: [rvo_planner_] is
    dereferenced whatever [use_rvo_planner_] says. *)
Definition setupRVOPlanner (time_step : F) (defaults : Settings) (s : wrapper)
    : option (wrapper * bool) :=
  rvo ← rvo_planner_ s;
  Some (set_rvo (setPlannerSettings time_step defaults rvo) s, true).

(** [PlannerWrapper::plannerStep], lines 119-143. *)
Definition plannerStep (s : wrapper) : option (wrapper * list (published D)) :=
  '(s, out) ←
    (if planning_ s then
       if use_rvo_planner_ s then
         rvo ← rvo_planner_ s;
         let '(rvo, vel) := planStep rvo in
         let cmd_vel :=
           mkTwist (to_D (x_ vel)) (to_D (y_ vel)) (linear_z (cmd_vel_ s))
             (angular_x (cmd_vel_ s)) (angular_y (cmd_vel_ s))
             (angular_z (cmd_vel_ s)) in
         Some (mkState (use_rvo_planner_ s) (use_ros_navigation_ s) (planning_ s)
                 (getArrived rvo) (aborted_ s) (planner_init s) (curr_pose_ s)
                 (goal_pose_ s) (target_pose_ s) cmd_vel (null_vect_ s) vel
                 (environment_ s) (Some rvo) (ros_navigation_ s),
               [on_cmd_vel cmd_vel])
       else if use_ros_navigation_ s then
         nav ← ros_navigation_ s;
         let nav := nav_planStep nav in
         Some (mkState (use_rvo_planner_ s) (use_ros_navigation_ s) (planning_ s)
                 (nav_getArrived nav) (nav_getAborted nav) (planner_init s)
                 (curr_pose_ s) (goal_pose_ s) (target_pose_ s) (cmd_vel_ s)
                 (null_vect_ s) (rvo_planner_vel_ s) (environment_ s)
                 (rvo_planner_ s) (Some nav),
               [])
       else Some (s, [])
     else Some (s, []));
  let '(s, out) :=
    if planning_ s && arrived_ s then
      let '(s, out') := pubArrived true s in (s, out ++ out')
    else (s, out) in
  if negb (planning_ s) && use_rvo_planner_ s then
    rvo ← rvo_planner_ s;
    Some (set_rvo (setCurrVel (null_vect_ s) rvo) s, out)
  else Some (s, out).

(** [PlannerWrapper::currPoseCB], lines 145-153. *)
Definition currPoseCB (msg : Pose2D D) (s : wrapper) : option wrapper :=
  let curr_pose := mkVector2 (to_F (x msg)) (to_F (y msg)) in
  let s :=
    mkState (use_rvo_planner_ s) (use_ros_navigation_ s) (planning_ s) (arrived_ s)
      (aborted_ s) (planner_init s) curr_pose (goal_pose_ s) (target_pose_ s)
      (cmd_vel_ s) (null_vect_ s) (rvo_planner_vel_ s) (environment_ s)
      (rvo_planner_ s) (ros_navigation_ s) in
  if use_rvo_planner_ s then
    rvo ← rvo_planner_ s; Some (set_rvo (setCurrPose curr_pose rvo) s)
  else Some s.

(** [PlannerWrapper::targetGoalCB], lines 155-166. *)
Definition targetGoalCB (msg : Pose2D D) (s : wrapper) : option wrapper :=
  let goal_pose := mkVector2 (to_F (x msg)) (to_F (y msg)) in
  let s :=
    mkState (use_rvo_planner_ s) (use_ros_navigation_ s) (planning_ s) (arrived_ s)
      (aborted_ s) (planner_init s) (curr_pose_ s) goal_pose (target_pose_ s)
      (cmd_vel_ s) (null_vect_ s) (rvo_planner_vel_ s) (environment_ s)
      (rvo_planner_ s) (ros_navigation_ s) in
  if use_rvo_planner_ s then
    rvo ← rvo_planner_ s; Some (set_rvo (setPlannerGoal goal_pose rvo) s)
  else if use_ros_navigation_ s then
    nav ← ros_navigation_ s;
    let target_pose :=
      mkPoseStamped (to_D (x_ goal_pose)) (to_D (y_ goal_pose))
        (orientation_x (target_pose_ s)) (orientation_y (target_pose_ s))
        (orientation_z (target_pose_ s)) (orientation_w (target_pose_ s)) in
    Some (mkState (use_rvo_planner_ s) (use_ros_navigation_ s) (planning_ s)
            (arrived_ s) (aborted_ s) (planner_init s) (curr_pose_ s)
            (goal_pose_ s) target_pose (cmd_vel_ s) (null_vect_ s)
            (rvo_planner_vel_ s) (environment_ s) (rvo_planner_ s)
            (Some (nav_setPlannerGoal target_pose nav)))
  else Some s.

(** [PlannerWrapper::planningCB], lines 168-170. *)
Definition planningCB (data : bool) (s : wrapper) : wrapper :=
  fst (pubPlanning data s).

(** Lines 181-186, one iteration: the state is the two local vectors. *)
Definition copy_agent (env : EnvironmentData D Ids) (i : nat)
    (s : list (Vector2 F) * list (Vector2 F))
    : option (list (Vector2 F) * list (Vector2 F)) :=
  let '(poses, vels) := s in
  p ← agent_poses env !! i;
  poses ← write poses i (mkVector2 (to_F (x p)) (to_F (y p)));
  v ← agent_vels env !! i;
  vels ← write vels i (mkVector2 (to_F (linear_x v)) (to_F (linear_y v)));
  Some (poses, vels).

(** Lines 176-186: the two vectors handed to the planner. *)
Definition environment_vectors (env : EnvironmentData D Ids)
    : option (list (Vector2 F) * list (Vector2 F)) :=
  let nAgents := length (agent_poses env) in
  let blank := replicate nAgents (mkVector2 zero_F zero_F) in
  loop (copy_agent env) 0 nAgents (blank, blank).

(** [PlannerWrapper::environmentDataCB], lines 172-192. *)
Definition environmentDataCB (msg : EnvironmentData D Ids) (s : wrapper)
    : option wrapper :=
  let s :=
    mkState (use_rvo_planner_ s) (use_ros_navigation_ s) (planning_ s) (arrived_ s)
      (aborted_ s) (planner_init s) (curr_pose_ s) (goal_pose_ s) (target_pose_ s)
      (cmd_vel_ s) (null_vect_ s) (rvo_planner_vel_ s) msg
      (rvo_planner_ s) (ros_navigation_ s) in
  if use_rvo_planner_ s then
    '(poses, vels) ← environment_vectors msg;
    rvo ← rvo_planner_ s;
    Some (set_rvo (setupEnvironment (tracker_ids msg) poses vels rvo) s)
  else Some s.

(** What reaches the node: the calls of its two services, its four
    subscriptions, and the step of its main loop. *)
Inductive event : Type :=
  | SetupNewPlanner (planner_type : N)
  | SetupRVOPlanner (time_step : F) (defaults : Settings)
  | CurrPose (msg : Pose2D D)
  | TargetGoal (msg : Pose2D D)
  | Planning (data : bool)
  | Environment (msg : EnvironmentData D Ids)
  | Step.

Definition handle (ev : event) (s : wrapper) : option (wrapper * list (published D)) :=
  match ev with
  | SetupNewPlanner planner_type => Some (fst (setupNewPlanner planner_type s), [])
  | SetupRVOPlanner time_step defaults =>
      '(s, _) ← setupRVOPlanner time_step defaults s; Some (s, [])
  | CurrPose msg => s ← currPoseCB msg s; Some (s, [])
  | TargetGoal msg => s ← targetGoalCB msg s; Some (s, [])
  | Planning data => Some (planningCB data s, [])
  | Environment msg => s ← environmentDataCB msg s; Some (s, [])
  | Step => plannerStep s
  end.

Fixpoint run (evs : list event) (s : wrapper) : option (wrapper * list (published D)) :=
  match evs with
  | [] => Some (s, [])
  | ev :: rest =>
      '(s, out) ← handle ev s;
      '(s, out') ← run rest s;
      Some (s, out ++ out')
  end.

(** The flags say which pointer is assigned, and at most one is. *)
Definition planner_ok (s : wrapper) : Prop :=
  (use_rvo_planner_ s = true <-> rvo_planner_ s <> None) /\
  (use_ros_navigation_ s = true <-> ros_navigation_ s <> None) /\
  ~ (use_rvo_planner_ s = true /\ use_ros_navigation_ s = true) /\
  (planner_init s = true <->
   use_rvo_planner_ s = true \/ use_ros_navigation_ s = true).

(** The event needs nothing that is not there: [setupRVOPlanner] has a
    planner to configure, and the environment has a velocity for every
    pose the RVO planner is given. *)
Definition handled (ev : event) (s : wrapper) : Prop :=
  match ev with
  | SetupRVOPlanner _ _ => use_rvo_planner_ s = true
  | Environment msg =>
      use_rvo_planner_ s = true -> length (agent_poses msg) <= length (agent_vels msg)
  | _ => True
  end.

End Planner.

(** A planner to run the node with: it counts its steps and reports arrival
    after the third. *)
Definition counting : Outside Z Z (list nat) unit nat nat := {|
  zero_D := 0%Z;
  one_D := 1%Z;
  zero_F := 0%Z;
  to_F := fun z => z;
  to_D := fun z => z;
  RVO_PLANNER := 0%N;
  ROS_NAVIGATION := 1%N;
  new_RVOPlanner := 0;
  new_ROSNavigation := 0;
  setPlannerSettings := fun _ _ rvo => rvo;
  planStep := fun rvo => (S rvo, mkVector2 1%Z 0%Z);
  getArrived := fun rvo => bool_decide (3 <= rvo);
  setCurrVel := fun _ rvo => rvo;
  setCurrPose := fun _ rvo => rvo;
  setPlannerGoal := fun _ rvo => rvo;
  setupEnvironment := fun _ _ _ rvo => rvo;
  nav_planStep := S;
  nav_getArrived := fun nav => bool_decide (3 <= nav);
  nav_getAborted := fun _ => false;
  nav_setPlannerGoal := fun _ nav => nav
|}.

(** An object whose pointers are not assigned. *)
Definition unassigned : state Z Z (list nat) nat nat :=
  (mkState true true true true true true (mkVector2 5 5) (mkVector2 5 5)
    (mkPoseStamped 5 5 5 5 5 5) (mkTwist 5 5 5 5 5 5) (mkVector2 5 5)
    (mkVector2 5 5) (mkEnvironmentData [] [] []) None None)%Z.

(** A session with that planner: the RVO planner is set up and configured,
    planning is switched on, an environment with one agent arrives, the main
    loop steps three times, and a second planner is asked for. *)
Definition session : list (@event Z Z (list nat) unit) :=
  [SetupNewPlanner 0%N; SetupRVOPlanner 1%Z tt; Planning true;
   Environment (mkEnvironmentData [7] [mkPose2D 1 2 0]%Z [mkTwist 0 1 0 0 0 0]%Z);
   Step; Step; Step; SetupNewPlanner 1%N].

End Planner.

(** ** The visualizer: [visualizer.cpp] ([src/unnamed/part_000]), splitting a line *)

Module Visualizer.

(** What [std::getline (ss, item, delim)] extracts from a stream that still
    holds [s]: the characters before the first [delim], and what follows
    it (the delimiter itself is dropped). *)
Fixpoint read_item (delim : ascii) (s : list ascii) : list ascii * list ascii :=
  match s with
  | [] => ([], [])
  | c :: rest =>
      if Ascii.eqb c delim then ([], rest)
      else let '(item, rest') := read_item delim rest in (c :: item, rest')
  end.

(** [std::getline (ss, item, delim)] as a condition: it fails, with nothing
    extracted, on a stream at its end. *)
Definition getline (s : list ascii) (delim : ascii)
    : option (list ascii * list ascii) :=
  match s with
  | [] => None
  | _ :: _ => Some (read_item delim s)
  end.

(** The loop of [Visualizer::split2], lines 149-151, run for at most [fuel]
    iterations. *)
Fixpoint split2_loop (fuel : nat) (ss : list ascii) (delim : ascii)
    (elems : list (list ascii)) : list (list ascii) :=
  match fuel with
  | O => elems
  | S fuel =>
      match getline ss delim with
      | Some (item, ss) => split2_loop fuel ss delim (elems ++ [item])
      | None => elems
      end
  end.

(** [Visualizer::split2], lines 145-153.  Every iteration but the last
    extracts a character, so one iteration more than the string has
    characters is enough. *)
Definition split2 (s : list ascii) (delim : ascii) (elems : list (list ascii))
    : list (list ascii) :=
  split2_loop (S (length s)) s delim elems.

(** [Visualizer::split], lines 156-160. *)
Definition split (s : list ascii) (delim : ascii) : list (list ascii) :=
  split2 s delim [].

(** The items written one after the other with [delim] between them. *)
Fixpoint join (delim : ascii) (items : list (list ascii)) : list ascii :=
  match items with
  | [] => []
  | [item] => item
  | item :: rest => item ++ delim :: join delim rest
  end.

End Visualizer.

(** ** Reasoning about [result] and [for_loop] *)

Section Monad.
Context {A B : Type}.

Lemma bind_Ok (m : result A) (k : A -> result B) (b : B) :
  m ≫= k = Ok b <-> exists a, m = Ok a /\ k a = Ok b.
Proof.
  destruct m as [a|v i]; simpl; split.
  - intros Hk. exists a. auto.
  - intros (a' & [= <-] & Hk). exact Hk.
  - discriminate.
  - intros (a' & Hm & _). discriminate.
Qed.

Lemma at_Ok (v : vec) (l : list A) (i : nat) (x : A) :
  at_ v l i = Ok x <-> l !! i = Some x.
Proof.
  unfold at_. destruct (l !! i); split; intros Heq; congruence.
Qed.

Lemma at_lt (v : vec) (l : list A) (i : nat) :
  i < length l -> exists x, at_ v l i = Ok x /\ l !! i = Some x.
Proof.
  intros Hi. destruct (lookup_lt_is_Some_2 l i Hi) as [x Hx].
  exists x. split; [by apply at_Ok | done].
Qed.

Lemma at_ge (v : vec) (l : list A) (i : nat) :
  length l <= i -> at_ v l i = OutOfRange v i.
Proof.
  intros Hi. unfold at_. by rewrite (lookup_ge_None_2 l i Hi).
Qed.

Lemma set_at_Ok (v : vec) (l l' : list A) (i : nat) (x : A) :
  set_at v l i x = Ok l' <-> i < length l /\ l' = <[i := x]> l.
Proof.
  unfold set_at. destruct (decide (i < length l)); split.
  - intros [= <-]. auto.
  - intros [_ ->]. reflexivity.
  - discriminate.
  - intros [Hi _]. contradiction.
Qed.

Lemma set_at_lt (v : vec) (l : list A) (i : nat) (x : A) :
  i < length l -> set_at v l i x = Ok (<[i := x]> l).
Proof. intros Hi. by apply set_at_Ok. Qed.

Lemma set_at_ge (v : vec) (l : list A) (i : nat) (x : A) :
  length l <= i -> set_at v l i x = OutOfRange v i.
Proof.
  intros Hi. unfold set_at. destruct (decide (i < length l)); [lia | done].
Qed.

Lemma range_Ok (v : vec) (l l' : list A) (b n : nat) :
  range v l b (b + n) = Ok l' <->
  b + n <= length l /\ l' = take n (drop b l).
Proof.
  unfold range. replace (b + n - b) with n by lia.
  destruct (decide (b + n <= length l)); split.
  - intros [= <-]. auto.
  - intros [_ ->]. reflexivity.
  - discriminate.
  - intros [Hi _]. contradiction.
Qed.

Lemma range_le (v : vec) (l : list A) (b n : nat) :
  b + n <= length l -> range v l b (b + n) = Ok (take n (drop b l)).
Proof. intros Hle. by apply range_Ok. Qed.
End Monad.

Section Loops.
Context {St : Type}.
Implicit Types (body : nat -> St -> result St) (I : nat -> St -> Prop).

Lemma for_loop_app body lo a b s :
  for_loop body lo (a + b) s = for_loop body lo a s ≫= for_loop body (lo + a) b.
Proof.
  revert lo s. induction a as [|a IH]; intros lo s; simpl.
  - by rewrite Nat.add_0_r.
  - destruct (body lo s) as [s'|v i]; simpl; [|done].
    rewrite IH. by replace (S lo + a) with (lo + S a) by lia.
Qed.

(** Partial correctness: an invariant the body preserves holds when the
    loop ends. *)
Lemma for_loop_inv I body lo cnt s s' :
  for_loop body lo cnt s = Ok s' ->
  I lo s ->
  (forall i t t', lo <= i < lo + cnt -> I i t -> body i t = Ok t' -> I (S i) t') ->
  I (lo + cnt) s'.
Proof.
  revert lo s. induction cnt as [|c IH]; intros lo s Hrun Hs Hstep; simpl in Hrun.
  - injection Hrun as <-. by rewrite Nat.add_0_r.
  - apply bind_Ok in Hrun as (t & Hbody & Hrest).
    replace (lo + S c) with (S lo + c) by lia.
    apply (IH (S lo) t Hrest).
    + apply (Hstep lo s t); [lia | done | done].
    + intros i u u' Hi. apply Hstep. lia.
Qed.

(** Total correctness: if the body succeeds under the invariant, so does
    the loop. *)
Lemma for_loop_total I body lo cnt s :
  I lo s ->
  (forall i t, lo <= i < lo + cnt -> I i t ->
     exists t', body i t = Ok t' /\ I (S i) t') ->
  exists s', for_loop body lo cnt s = Ok s' /\ I (lo + cnt) s'.
Proof.
  revert lo s. induction cnt as [|c IH]; intros lo s Hs Hstep; simpl.
  - exists s. by rewrite Nat.add_0_r.
  - destruct (Hstep lo s) as (t & -> & Ht); [lia | done |]. simpl.
    replace (lo + S c) with (S lo + c) by lia.
    apply IH; [done|]. intros i u Hi. apply Hstep. lia.
Qed.

(** The first iteration that leaves its vector ends the loop. *)
Lemma for_loop_fault body lo a b s t v i :
  for_loop body lo a s = Ok t ->
  body (lo + a) t = OutOfRange v i ->
  for_loop body lo (a + S b) s = OutOfRange v i.
Proof.
  intros Hrun Hbody. rewrite for_loop_app, Hrun. simpl. by rewrite Hbody.
Qed.
End Loops.

(** ** What the goal loops compute *)

Section UpdateLoops.
Context {F : Type} `{Arith F}.
Local Open Scope fl_scope.

Lemma posterior_loop_inv reset u g_lik prev_prior n init0 z init_liks g_post norm :
  for_loop (posterior_body reset u g_lik prev_prior) 0 n (init0, replicate n z, f_lit 0)
    = Ok (init_liks, g_post, norm) ->
  length g_post = n /\ length init_liks = length init0 /\ (n <= length init0)%nat /\
  (forall g, (g < n)%nat -> init_liks !! g = Some true) /\
  (forall g, (n <= g)%nat -> init_liks !! g = init0 !! g) /\
  (forall g, (g < n)%nat ->
     exists p, g_post !! g = Some p /\
               posterior_entry reset u init0 g_lik prev_prior g p) /\
  norm = foldl f_add (f_lit 0) g_post.
Proof.
  intros Hrun.
  apply (for_loop_inv (fun i '(il, gp, nm) =>
           length gp = n /\ length il = length init0 /\ (i <= length init0)%nat /\
           (forall g, (g < i)%nat -> il !! g = Some true) /\
           (forall g, (i <= g)%nat -> il !! g = init0 !! g) /\
           (forall g, (g < i)%nat ->
              exists p, gp !! g = Some p /\
                        posterior_entry reset u init0 g_lik prev_prior g p) /\
           nm = foldl f_add (f_lit 0) (take i gp))) in Hrun.
  - simpl in Hrun. destruct Hrun as (Hlen & Hil & Hn & Hset & Hrest & Hpost & Hnorm).
    rewrite take_ge in Hnorm by lia. done.
  - rewrite length_replicate. repeat split; try done; try lia; intros g Hg; lia.
  - intros i [[il gp] nm] [[il' gp'] nm'] Hi
      (Hlen & Hil & Hn & Hset & Hrest & Hpost & Hnorm) Hbody.
    unfold posterior_body in Hbody.
    apply bind_Ok in Hbody as (fresh & Hfresh & Hbody).
    apply bind_Ok in Hbody as ([il1 gp1] & Hbranch & Hbody).
    apply bind_Ok in Hbody as (p & Hp%at_Ok & [= <- <- <-]).
    assert (length gp1 = n /\ length il1 = length init0 /\ (S i <= length init0)%nat /\
            (forall g, g <> i -> gp1 !! g = gp !! g) /\
            (forall g, g <> i -> il1 !! g = il !! g) /\
            il1 !! i = Some true /\
            posterior_entry reset u init0 g_lik prev_prior i p) as
      (Hlen1 & Hil1 & Hn1 & Hgp1 & Hil1' & Hflag & Hentry).
    { destruct fresh.
      - apply bind_Ok in Hbranch as (gp2 & (Hlt & ->)%set_at_Ok & Hbranch).
        apply bind_Ok in Hbranch as (il2 & (Hlt2 & ->)%set_at_Ok & [= <- <-]).
        rewrite list_lookup_insert_eq in Hp by done. injection Hp as <-.
        rewrite !length_insert. repeat split; try done; try lia.
        + intros g Hg. by rewrite list_lookup_insert_ne.
        + intros g Hg. by rewrite list_lookup_insert_ne.
        + by apply list_lookup_insert_eq.
        + left. split; [|done]. destruct reset; [by left|right].
          apply bind_Ok in Hfresh as (b & Hb%at_Ok & [= Hnb]).
          destruct b; [done|]. rewrite <- Hrest by lia. done.
      - destruct reset; [done|].
        apply bind_Ok in Hfresh as (b & Hb%at_Ok & [= Hnb]).
        destruct b; [|done].
        apply bind_Ok in Hbranch as (l & Hl%at_Ok & Hbranch).
        apply bind_Ok in Hbranch as (q & Hq%at_Ok & Hbranch).
        apply bind_Ok in Hbranch as (gp2 & (Hlt & ->)%set_at_Ok & [= <- <-]).
        rewrite list_lookup_insert_eq in Hp by done. injection Hp as <-.
        rewrite !length_insert. apply lookup_lt_Some in Hb as Hlt'.
        repeat split; try done; try lia.
        + intros g Hg. by rewrite list_lookup_insert_ne.
        + right. split; [done|]. split; [by rewrite <- Hrest by lia|].
          by exists l, q. }
    repeat split; try done.
    + intros g Hg. destruct (decide (g = i)) as [->|Hne]; [done|].
      rewrite Hil1' by done. apply Hset. lia.
    + intros g Hg. rewrite Hil1' by lia. apply Hrest. lia.
    + intros g Hg. destruct (decide (g = i)) as [->|Hne]; [by exists p|].
      rewrite Hgp1 by done. apply Hpost. lia.
    + rewrite (take_S_r gp1 i p Hp), foldl_snoc. f_equal.
      rewrite Hnorm. f_equal. apply list_eq. intros g.
      destruct (decide (g < i)%nat).
      * rewrite !lookup_take_lt by done. symmetry. apply Hgp1. lia.
      * rewrite !lookup_take_ge by lia. done.
Qed.

Lemma posterior_loop_total reset u g_lik prev_prior cnt init0 post0 z :
  (cnt <= length init0)%nat -> (cnt <= length g_lik)%nat ->
  (cnt <= length prev_prior)%nat -> (cnt <= length post0)%nat ->
  exists il gp nm,
    for_loop (posterior_body reset u g_lik prev_prior) 0 cnt (init0, post0, z)
      = Ok (il, gp, nm) /\
    length il = length init0 /\ length gp = length post0.
Proof.
  intros Hinit Hlik Hprior Hpost.
  destruct (for_loop_total (fun _ '(il, gp, _) =>
              length gp = length post0 /\ length il = length init0)
              (posterior_body reset u g_lik prev_prior) 0 cnt
              (init0, post0, z)) as ([[il gp] nm] & Hs & Hgp & Hil).
  - done.
  - intros i [[il gp] nm] Hi [Hlen Hil]. unfold posterior_body.
    destruct (at_lt v_init_liks il i) as (b & Hb & _); [lia|].
    destruct (at_lt v_g_likelihoods g_lik i) as (l & Hl & _); [lia|].
    destruct (at_lt v_prev_prior prev_prior i) as (q & Hq & _); [lia|].
    assert (exists fresh, (if reset then Ok true
              else at_ v_init_liks il i ≫= fun b => Ok (negb b)) = Ok fresh)
      as [fresh ->].
    { destruct reset; [by exists true|]. rewrite Hb. by eexists. }
    simpl. destruct fresh.
    + repeat (rewrite set_at_lt by lia; simpl).
      destruct (at_lt v_g_posteriors (<[i:=u]> gp) i) as (p & -> & _);
        [rewrite length_insert; lia|]. simpl.
      eexists. split; [done|]. simpl. by rewrite !length_insert.
    + rewrite Hl, Hq. simpl. rewrite set_at_lt by lia. simpl.
      destruct (at_lt v_g_posteriors (<[i:=l * q]> gp) i) as (p & -> & _);
        [rewrite length_insert; lia|]. simpl.
      eexists. split; [done|]. simpl. by rewrite !length_insert.
  - by exists il, gp, nm.
Qed.

Lemma normalise_loop_inv u g_post norm n prior0 z prev_prior norm_post :
  for_loop (normalise_body u g_post norm) 0 n (prior0, replicate n z)
    = Ok (prev_prior, norm_post) ->
  length norm_post = n /\ length prev_prior = length prior0 /\
  if f_eqb norm (f_of_Z 0) then
    prev_prior = prior0 /\ norm_post = replicate n u
  else
    (n <= length prior0)%nat /\
    (forall g, (g < n)%nat ->
       exists p, g_post !! g = Some p /\ norm_post !! g = Some (p / norm) /\
                 prev_prior !! g = Some (stored_prior (p / norm))) /\
    (forall g, (n <= g)%nat -> prev_prior !! g = prior0 !! g).
Proof.
  intros Hrun.
  apply (for_loop_inv (fun i '(pp, np) =>
           length np = n /\ length pp = length prior0 /\
           if f_eqb norm (f_of_Z 0) then
             pp = prior0 /\ forall g, (g < i)%nat -> np !! g = Some u
           else
             (i <= length prior0)%nat /\
             (forall g, (g < i)%nat ->
                exists p, g_post !! g = Some p /\ np !! g = Some (p / norm) /\
                          pp !! g = Some (stored_prior (p / norm))) /\
             (forall g, (i <= g)%nat -> pp !! g = prior0 !! g))) in Hrun.
  - simpl in Hrun. destruct Hrun as (Hlen & Hpp & Hcase).
    split; [done|]. split; [done|].
    destruct (f_eqb norm (f_of_Z 0)); [|done].
    destruct Hcase as [-> Hnp]. split; [done|].
    apply list_eq. intros g. destruct (decide (g < n)%nat).
    + rewrite Hnp by done. by rewrite lookup_replicate_2.
    + rewrite (lookup_ge_None_2 norm_post) by lia.
      symmetry. apply lookup_replicate_None. lia.
  - rewrite length_replicate. split; [done|]. split; [done|].
    destruct (f_eqb norm (f_of_Z 0)).
    + split; [done|]. intros g Hg. lia.
    + split; [lia|]. split; [intros g Hg; lia | done].
  - intros i [pp np] [pp' np'] Hi (Hlen & Hpp & Hcase) Hbody.
    unfold normalise_body in Hbody.
    destruct (f_eqb norm (f_of_Z 0)).
    + apply bind_Ok in Hbody as (np1 & (Hlt & ->)%set_at_Ok & [= <- <-]).
      destruct Hcase as [-> Hnp]. rewrite length_insert.
      repeat split; try done. intros g Hg.
      destruct (decide (g = i)) as [->|Hne].
      * by apply list_lookup_insert_eq.
      * rewrite list_lookup_insert_ne by done. apply Hnp. lia.
    + apply bind_Ok in Hbody as (p & Hp%at_Ok & Hbody).
      apply bind_Ok in Hbody as (pp1 & Hstore & Hbody).
      apply bind_Ok in Hbody as (np1 & (Hlt & ->)%set_at_Ok & [= <- <-]).
      assert (set_at v_prev_prior pp i (stored_prior (p / norm)) = Ok pp1)
        as (Hlt' & ->)%set_at_Ok.
      { unfold stored_prior. by destruct (f_gtb _ _). }
      destruct Hcase as (Hn & Hdone & Hrest). rewrite !length_insert.
      repeat split; try done; try lia.
      * intros g Hg. destruct (decide (g = i)) as [->|Hne].
        -- exists p. by rewrite !list_lookup_insert_eq.
        -- rewrite !list_lookup_insert_ne by done. apply Hdone. lia.
      * intros g Hg. rewrite list_lookup_insert_ne by lia. apply Hrest. lia.
Qed.

Lemma normalise_loop_total u g_post norm n prior0 z :
  (n <= length g_post)%nat -> (n <= length prior0)%nat ->
  exists s, for_loop (normalise_body u g_post norm) 0 n (prior0, replicate n z) = Ok s.
Proof.
  intros Hpost Hprior.
  destruct (for_loop_total (fun _ '(pp, np) =>
              length np = n /\ length pp = length prior0)
              (normalise_body u g_post norm) 0 n (prior0, replicate n z))
    as (s & Hs & _).
  - by rewrite length_replicate.
  - intros i [pp np] Hi [Hlen Hpp]. unfold normalise_body.
    destruct (f_eqb norm (f_of_Z 0)).
    + rewrite set_at_lt by lia. simpl. eexists. split; [done|].
      simpl. by rewrite length_insert.
    + destruct (at_lt v_g_posteriors g_post i) as (p & -> & _); [lia|]. simpl.
      destruct (f_gtb _ _); repeat (rewrite set_at_lt by lia; simpl);
        (eexists; split; [done|]; simpl; by rewrite !length_insert).
  - by exists s.
Qed.

(** *** The update *)

Lemma update_inv reset n g_lik st st' r :
  update reset n g_lik st = Ok (st', r) ->
  update_post reset n g_lik st st' r.
Proof.
  unfold update. intros Hrun.
  apply bind_Ok in Hrun as ([[il gp] nm] & Hpost & Hrun).
  apply bind_Ok in Hrun as ([pp np] & Hnorm & Hrun).
  apply bind_Ok in Hrun as (b0 & Hb0%at_Ok & Hrun).
  apply bind_Ok in Hrun as (b1 & Hb1%at_Ok & Hrun).
  apply bind_Ok in Hrun as (b2 & Hb2%at_Ok%lookup_lt_Some & [= <- <-]).
  apply posterior_loop_inv in Hpost
    as (Hlen_post & Hlen_init & Hn_init & Hflags & Hrest & Hentry & Hsum).
  apply normalise_loop_inv in Hnorm as (Hlen_norm & Hlen_prior & Hcase).
  split; simpl; try done. lia.
Qed.

Lemma update_total reset n g_lik st :
  (3 <= n)%nat -> (n <= length g_lik)%nat ->
  (n <= length (init_liks_ st))%nat -> (n <= length (prev_prior_ st))%nat ->
  exists st' r, update reset n g_lik st = Ok (st', r).
Proof.
  intros Hn Hlik Hinit Hprior. unfold update.
  destruct (posterior_loop_total reset (uniform_prior n) g_lik (prev_prior_ st)
              n (init_liks_ st) (replicate n (f_lit 0)) (f_lit 0))
    as (il & gp & nm & Hpost & _ & Hlen_post); try lia.
  { by rewrite length_replicate. }
  rewrite Hpost. simpl. rewrite length_replicate in Hlen_post.
  destruct (normalise_loop_total (uniform_prior n) gp nm n (prev_prior_ st) (f_lit 0))
    as ([pp np] & Hnorm); try lia.
  rewrite Hnorm. simpl. apply normalise_loop_inv in Hnorm as (Hlen_norm & _).
  destruct (at_lt v_norm_posteriors np 0) as (b0 & -> & _); [lia|].
  destruct (at_lt v_norm_posteriors np 1) as (b1 & -> & _); [lia|].
  destruct (at_lt v_norm_posteriors np 2) as (b2 & -> & _); [lia|].
  simpl. by eexists _, _.
Qed.

(** The read-out of line 183 leaves [norm_posteriors] when there are fewer
    than three goals. *)
Lemma update_few reset n g_lik st :
  (n < 3)%nat -> (n <= length g_lik)%nat ->
  (n <= length (init_liks_ st))%nat -> (n <= length (prev_prior_ st))%nat ->
  update reset n g_lik st = OutOfRange v_norm_posteriors n.
Proof.
  intros Hn Hlik Hinit Hprior. unfold update.
  destruct (posterior_loop_total reset (uniform_prior n) g_lik (prev_prior_ st)
              n (init_liks_ st) (replicate n (f_lit 0)) (f_lit 0))
    as (il & gp & nm & Hpost & _ & Hlen_post); try lia.
  { by rewrite length_replicate. }
  rewrite Hpost. simpl. rewrite length_replicate in Hlen_post.
  destruct (normalise_loop_total (uniform_prior n) gp nm n (prev_prior_ st) (f_lit 0))
    as ([pp np] & Hnorm); try lia.
  rewrite Hnorm. simpl. apply normalise_loop_inv in Hnorm as (Hlen_norm & _).
  destruct n as [|[|[|n]]]; [| | |lia].
  - by rewrite (at_ge _ np 0) by lia.
  - destruct (at_lt v_norm_posteriors np 0) as (b0 & -> & _); [lia|]. simpl.
    by rewrite (at_ge _ np 1) by lia.
  - destruct (at_lt v_norm_posteriors np 0) as (b0 & -> & _); [lia|]. simpl.
    destruct (at_lt v_norm_posteriors np 1) as (b1 & -> & _); [lia|]. simpl.
    by rewrite (at_ge _ np 2) by lia.
Qed.

(** The posterior loop leaves [init_liks_] when there are more goals than
    flags. *)
Lemma update_many reset n g_lik st :
  (length (init_liks_ st) < n)%nat ->
  (length (init_liks_ st) <= length g_lik)%nat ->
  (length (init_liks_ st) <= length (prev_prior_ st))%nat ->
  update reset n g_lik st = OutOfRange v_init_liks (length (init_liks_ st)).
Proof.
  intros Hn Hlik Hprior. unfold update.
  set (k := length (init_liks_ st)) in *.
  destruct (posterior_loop_total reset (uniform_prior n) g_lik (prev_prior_ st)
              k (init_liks_ st) (replicate n (f_lit 0)) (f_lit 0))
    as (il & gp & nm & Hpost & Hlen_il & Hlen_post); try lia.
  { rewrite length_replicate. lia. }
  rewrite length_replicate in Hlen_post.
  pose proof (for_loop_fault _ 0 k (n - k - 1) _ _ v_init_liks k Hpost) as Hfault.
  replace (k + S (n - k - 1))%nat with n in Hfault by lia.
  rewrite Hfault; [done|].
  simpl. destruct reset; simpl.
  - rewrite (set_at_lt _ gp) by lia. simpl. by rewrite (set_at_ge _ il) by lia.
  - by rewrite (at_ge _ il) by lia.
Qed.

(** With three goals, three flags and three stored priors the update is the
    following function. *)
Lemma update_three reset l0 l1 l2 b0 b1 b2 q0 q1 q2 :
  let u := uniform_prior 3 in
  let p0 := if reset || negb b0 then u else l0 * q0 in
  let p1 := if reset || negb b1 then u else l1 * q1 in
  let p2 := if reset || negb b2 then u else l2 * q2 in
  let Z := f_lit 0 + p0 + p1 + p2 in
  update reset 3 [l0; l1; l2] (mkFilter [b0; b1; b2] [q0; q1; q2])
  = Ok (mkFilter [true; true; true]
          (if f_eqb Z (f_of_Z 0) then [q0; q1; q2]
           else [stored_prior (p0 / Z); stored_prior (p1 / Z); stored_prior (p2 / Z)]),
        mkAgentInference [l0; l1; l2] [p0; p1; p2] Z
          (if f_eqb Z (f_of_Z 0) then [u; u; u] else [p0 / Z; p1 / Z; p2 / Z])).
Proof.
  cbv zeta. unfold stored_prior.
  destruct reset, b0, b1, b2;
    cbv -[f_eqb f_gtb f_add f_mul f_div f_lit f_of_Z];
    match goal with |- context [f_eqb ?a ?b] => destruct (f_eqb a b) end;
    repeat match goal with
           | |- context [f_gtb ?a ?b] =>
               destruct (f_gtb a b);
               cbv -[f_eqb f_gtb f_add f_mul f_div f_lit f_of_Z]
           end;
    reflexivity.
Qed.
End UpdateLoops.

(** ** One iteration of the agent loop, and the loop *)

Section AgentLoop.
Context {F : Type} `{Arith F} `{Libm F}.
Local Open Scope fl_scope.

Lemma likelihood_loop_inv curr_vel sims n z g_lik :
  for_loop (likelihood_body curr_vel sims) 0 n (replicate n z) = Ok g_lik ->
  length g_lik = n /\
  forall g, (g < n)%nat ->
    exists v, sims !! g = Some v /\ g_lik !! g = Some (goal_likelihood curr_vel v).
Proof.
  intros Hrun.
  apply (for_loop_inv (fun i gl => length gl = n /\
           forall g, (g < i)%nat ->
             exists v, sims !! g = Some v /\
                       gl !! g = Some (goal_likelihood curr_vel v))) in Hrun.
  - exact Hrun.
  - split; [apply length_replicate | intros g Hg; lia].
  - intros i gl gl' Hi [Hlen Hpre] Hbody. unfold likelihood_body in Hbody.
    apply bind_Ok in Hbody as (v & Hv%at_Ok & (Hlt & ->)%set_at_Ok).
    split; [by rewrite length_insert|].
    intros g Hg. destruct (decide (g = i)) as [->|Hne].
    + exists v. split; [done|]. by apply list_lookup_insert_eq.
    + destruct (Hpre g) as (w & Hw & Hgl); [lia|].
      exists w. split; [done|]. by rewrite list_lookup_insert_ne.
Qed.

(** The likelihood loop maps [goal_likelihood] over the agent's slice. *)
Lemma likelihood_loop_eq curr_vel sims n z :
  (n <= length sims)%nat ->
  for_loop (likelihood_body curr_vel sims) 0 n (replicate n z)
  = Ok (goal_likelihood curr_vel <$> take n sims).
Proof.
  intros Hn.
  destruct (for_loop_total (fun _ gl => length gl = n)
              (likelihood_body curr_vel sims) 0 n (replicate n z))
    as (gl & Hgl & _).
  - apply length_replicate.
  - intros i gl Hi Hlen. unfold likelihood_body.
    destruct (at_lt v_agent_sim_vels sims i) as (v & -> & _); [lia|]. simpl.
    rewrite set_at_lt by lia. eexists. split; [done|]. by rewrite length_insert.
  - rewrite Hgl. f_equal. apply likelihood_loop_inv in Hgl as [Hlen Hpoint].
    apply list_eq. intros g. rewrite list_lookup_fmap.
    destruct (decide (g < n)%nat) as [Hlt|Hge].
    + destruct (Hpoint g Hlt) as (v & Hv & ->).
      by rewrite lookup_take_lt, Hv.
    + rewrite lookup_ge_None_2 by lia. by rewrite lookup_take_ge by lia.
Qed.

Lemma agent_likelihoods_length inp agent :
  (agent * goal_sequence_size inp + goal_sequence_size inp
     <= length (sequence_sim_vels inp))%nat ->
  length (agent_likelihoods inp agent) = goal_sequence_size inp.
Proof.
  intros Hrange. unfold agent_likelihoods.
  rewrite length_fmap, length_take, length_drop. lia.
Qed.


(** An iteration whose slice exists is the update on the slice's
    likelihoods. *)
Lemma inferGoals_agent_eq reset inp agent st :
  (agent * goal_sequence_size inp + goal_sequence_size inp
     <= length (sequence_sim_vels inp))%nat ->
  inferGoals_agent reset inp agent st
  = update reset (goal_sequence_size inp) (agent_likelihoods inp agent) st.
Proof.
  intros Hrange. unfold inferGoals_agent. cbv zeta.
  rewrite range_le by exact Hrange. cbn [mbind result_bind].
  rewrite likelihood_loop_eq by (rewrite length_take, length_drop; lia).
  by rewrite take_idemp.
Qed.

(** Lines 115-117 leave [sequence_sim_vels] when it is too short. *)
Lemma inferGoals_agent_short reset inp agent st :
  (length (sequence_sim_vels inp)
     < agent * goal_sequence_size inp + goal_sequence_size inp)%nat ->
  inferGoals_agent reset inp agent st
    = OutOfRange v_sequence_sim_vels
        (agent * goal_sequence_size inp + goal_sequence_size inp).
Proof.
  intros Hshort. unfold inferGoals_agent, range.
  destruct (decide _); [lia | done].
Qed.

Lemma inferGoals_agent_inv reset inp agent st st' r :
  inferGoals_agent reset inp agent st = Ok (st', r) ->
  (agent * goal_sequence_size inp + goal_sequence_size inp
     <= length (sequence_sim_vels inp))%nat /\
  update reset (goal_sequence_size inp) (agent_likelihoods inp agent) st = Ok (st', r).
Proof.
  intros Hrun.
  destruct (decide (agent * goal_sequence_size inp + goal_sequence_size inp
                      <= length (sequence_sim_vels inp))%nat) as [Hle|Hgt].
  - split; [done|]. by rewrite <- inferGoals_agent_eq.
  - rewrite inferGoals_agent_short in Hrun by lia. done.
Qed.

(** *** The agent loop *)

Lemma agent_loop_run reset inp lo cnt st acc :
  for_loop (agent_body reset inp) lo cnt (st, acc)
  = '(st', rs) ← agents_run reset inp lo cnt st; Ok (st', acc ++ rs).
Proof.
  revert lo st acc. induction cnt as [|c IH]; intros lo st acc; simpl.
  - by rewrite app_nil_r.
  - change (agent_body reset inp lo (st, acc))
      with ('(st1, r) ← inferGoals_agent reset inp lo st; Ok (st1, acc ++ [r])).
    destruct (inferGoals_agent reset inp lo st) as [[st1 r]|v i]; simpl; [|done].
    rewrite IH. destruct (agents_run reset inp (S lo) c st1) as [[st2 rs]|v i];
      simpl; [|done].
    by rewrite <- app_assoc.
Qed.

Lemma inferGoals_from_run reset inp st :
  inferGoals_from reset inp st = agents_run reset inp 0 (agents_size inp) st.
Proof.
  unfold inferGoals_from. rewrite agent_loop_run.
  by destruct (agents_run _ _ _ _ _) as [[st' rs]|v i].
Qed.

Lemma agents_run_app reset inp lo a b st :
  agents_run reset inp lo (a + b) st
  = '(st1, rs1) ← agents_run reset inp lo a st;
    '(st2, rs2) ← agents_run reset inp (lo + a) b st1;
    Ok (st2, rs1 ++ rs2).
Proof.
  revert lo st. induction a as [|a IH]; intros lo st; simpl.
  - rewrite Nat.add_0_r.
    by destruct (agents_run reset inp lo b st) as [[st2 rs2]|v i].
  - destruct (inferGoals_agent reset inp lo st) as [[st1 r]|v i]; simpl; [|done].
    rewrite IH. replace (S lo + a)%nat with (lo + S a)%nat by lia.
    destruct (agents_run reset inp (S lo) a st1) as [[st2 rs1]|v i]; simpl; [|done].
    by destruct (agents_run reset inp (lo + S a) b st2) as [[st3 rs2]|v i].
Qed.

Lemma agents_run_length reset inp lo cnt st st' rs :
  agents_run reset inp lo cnt st = Ok (st', rs) -> length rs = cnt.
Proof.
  revert lo st st' rs. induction cnt as [|c IH]; intros lo st st' rs; simpl.
  - by intros [= <- <-].
  - intros ([st1 r] & Hr & Hrun)%bind_Ok.
    apply bind_Ok in Hrun as ([st2 rs'] & Hrs & [= <- <-]).
    simpl. f_equal. by eapply IH.
Qed.

(** The inference of agent [a] is made by [inferGoals_agent] on the filter
    the agents before [a] left. *)
Lemma agents_run_lookup reset inp cnt st st' rs a r :
  agents_run reset inp 0 cnt st = Ok (st', rs) ->
  rs !! a = Some r ->
  exists st_a st_a' rs_a,
    agents_run reset inp 0 a st = Ok (st_a, rs_a) /\
    rs_a = take a rs /\
    inferGoals_agent reset inp a st_a = Ok (st_a', r).
Proof.
  intros Hrun Hr. pose proof (agents_run_length _ _ _ _ _ _ _ Hrun) as Hlen.
  apply lookup_lt_Some in Hr as Ha.
  replace cnt with (a + S (cnt - a - 1))%nat in Hrun by lia.
  rewrite agents_run_app in Hrun.
  apply bind_Ok in Hrun as ([st_a rs_a] & Hpre & Hrun).
  apply bind_Ok in Hrun as ([st2 rs2] & Hsuf & [= <- <-]).
  simpl in Hsuf.
  apply bind_Ok in Hsuf as ([st_a' r'] & Hagent & Hsuf).
  apply bind_Ok in Hsuf as ([st3 rs3] & _ & [= <- <-]).
  apply agents_run_length in Hpre as Hlen_a.
  rewrite lookup_app_r in Hr by lia.
  replace (a - length rs_a)%nat with 0%nat in Hr by lia.
  injection Hr as ->. exists st_a, st_a', rs_a.
  split; [done|]. split; [|done]. by rewrite take_app_length'.
Qed.

(** Every inference of a completed tick is an [update], on the filter the
    agents before left and the likelihoods of the agent's own slice. *)
Lemma tick_is_updates inp st st' rs a r :
  inferGoals inp st = Ok (st', rs) ->
  rs !! a = Some r ->
  exists st_a st_b rs_a,
    agents_run reset_priors inp 0 a st = Ok (st_a, rs_a) /\
    update reset_priors (goal_sequence_size inp) (agent_likelihoods inp a) st_a
    = Ok (st_b, r).
Proof.
  unfold inferGoals. rewrite inferGoals_from_run. intros Hrun Hr.
  destruct (agents_run_lookup _ _ _ _ _ _ _ _ Hrun Hr)
    as (st_a & st_b & rs_a & Hpre & _ & Hagent).
  apply inferGoals_agent_inv in Hagent as [_ Hupd]. by exists st_a, st_b, rs_a.
Qed.

(** Flags are set and never cleared. *)
Lemma agents_run_initialised reset inp lo cnt st st' rs :
  agents_run reset inp lo cnt st = Ok (st', rs) ->
  initialised (goal_sequence_size inp) st ->
  initialised (goal_sequence_size inp) st'.
Proof.
  revert lo st st' rs. induction cnt as [|c IH]; intros lo st st' rs; simpl.
  - by intros [= <- <-].
  - intros ([st1 r] & Hr & Hrun)%bind_Ok Hinit.
    apply bind_Ok in Hrun as ([st2 rs'] & Hrs & [= <- <-]).
    apply (IH _ _ _ _ Hrs).
    apply inferGoals_agent_inv in Hr as [_ Hupd%update_inv].
    intros g Hg. by apply (post_flags _ _ _ _ _ _ Hupd).
Qed.

(** With a filter of three flags and three priors, three goals and a long
    enough [sequence_sim_vels], the loop completes. *)
Lemma agents_run_total reset inp lo cnt st :
  goal_sequence_size inp = 3%nat -> sized st ->
  ((lo + cnt) * 3 <= length (sequence_sim_vels inp))%nat ->
  exists st' rs, agents_run reset inp lo cnt st = Ok (st', rs) /\ sized st'.
Proof.
  intros Hthree. revert lo st. induction cnt as [|c IH]; intros lo st Hsized Hlen; simpl.
  - by exists st, [].
  - destruct Hsized as [Hil Hpp].
    rewrite inferGoals_agent_eq by (rewrite Hthree; lia).
    destruct (update_total reset (goal_sequence_size inp)
                (agent_likelihoods inp lo) st) as (st1 & r & Hupd).
    + lia.
    + rewrite agent_likelihoods_length; [lia|]. rewrite Hthree. lia.
    + lia.
    + lia.
    + rewrite Hupd. simpl. apply update_inv in Hupd.
      destruct (IH (S lo) st1) as (st2 & rs & -> & Hsized2).
      * split.
        -- rewrite (post_len_init _ _ _ _ _ _ Hupd). done.
        -- rewrite (post_len_prior _ _ _ _ _ _ Hupd). done.
      * lia.
      * simpl. by exists st2, (r :: rs).
Qed.

(** Whether [inferGoals] completes depends on sizes alone. *)
Lemma inferGoals_from_ok reset inp st :
  sized st ->
  is_ok (inferGoals_from reset inp st) = true <->
  agents_size inp = 0%nat \/
  (goal_sequence_size inp = 3%nat /\
   (agents_size inp * 3 <= length (sequence_sim_vels inp))%nat).
Proof.
  intros Hsized. rewrite inferGoals_from_run. split.
  - destruct (agents_run reset inp 0 (agents_size inp) st) as [[st' rs]|v i] eqn:Hrun;
      [intros _ | done].
    destruct (agents_size inp) as [|k] eqn:Hk; [by left | right].
    pose proof (agents_run_length _ _ _ _ _ _ _ Hrun) as Hlen.
    destruct (lookup_lt_is_Some_2 rs 0) as [r0 Hr0]; [lia|].
    destruct (lookup_lt_is_Some_2 rs k) as [rk Hrk]; [lia|].
    destruct (agents_run_lookup _ _ _ _ _ _ _ _ Hrun Hr0)
      as (st0 & st0' & rs0 & Hpre0 & _ & Hagent0).
    simpl in Hpre0. injection Hpre0 as <- <-.
    apply inferGoals_agent_inv in Hagent0 as [_ Hupd0%update_inv].
    destruct Hsized as [Hil Hpp].
    assert (goal_sequence_size inp = 3%nat) as Hthree.
    { pose proof (post_three _ _ _ _ _ _ Hupd0).
      pose proof (post_init_len _ _ _ _ _ _ Hupd0). lia. }
    split; [done|].
    destruct (agents_run_lookup _ _ _ _ _ _ _ _ Hrun Hrk)
      as (stk & stk' & rsk & _ & _ & Hagentk).
    apply inferGoals_agent_inv in Hagentk as [Hrange _]. lia.
  - intros [Hzero|[Hthree Hlen]].
    + rewrite Hzero. done.
    + destruct (agents_run_total reset inp 0 (agents_size inp) st)
        as (st' & rs & -> & _); done.
Qed.

(** An iteration reads [robot_vel_], the number of goals and its own slice
    of [sequence_sim_vels], and nothing else of the inputs. *)
Lemma inferGoals_agent_slice reset inp inp' agent st x x' :
  robot_vel_ inp = robot_vel_ inp' ->
  goal_sequence_size inp = goal_sequence_size inp' ->
  take ((agent + 1) * goal_sequence_size inp) (sequence_sim_vels inp)
  = take ((agent + 1) * goal_sequence_size inp) (sequence_sim_vels inp') ->
  inferGoals_agent reset inp agent st = Ok x ->
  inferGoals_agent reset inp' agent st = Ok x' ->
  x = x'.
Proof.
  intros Hvel Hn Hsims Hrun Hrun'. destruct x as [st1 r], x' as [st1' r'].
  apply inferGoals_agent_inv in Hrun as [Hrange Hupd].
  apply inferGoals_agent_inv in Hrun' as [Hrange' Hupd'].
  assert (agent_likelihoods inp agent = agent_likelihoods inp' agent) as Hlik.
  { unfold agent_likelihoods. rewrite <- Hvel, <- Hn. f_equal.
    set (n := goal_sequence_size inp) in *.
    rewrite !take_drop_commute.
    replace (agent * n + n)%nat with ((agent + 1) * n)%nat by lia.
    by rewrite Hsims. }
  rewrite Hlik, Hn in Hupd. congruence.
Qed.

(** The agents up to [lo + cnt] read the slices up to [lo + cnt]. *)
Lemma agents_run_slices reset inp inp' lo cnt st x x' :
  robot_vel_ inp = robot_vel_ inp' ->
  goal_sequence_size inp = goal_sequence_size inp' ->
  take ((lo + cnt) * goal_sequence_size inp) (sequence_sim_vels inp)
  = take ((lo + cnt) * goal_sequence_size inp) (sequence_sim_vels inp') ->
  agents_run reset inp lo cnt st = Ok x ->
  agents_run reset inp' lo cnt st = Ok x' ->
  x = x'.
Proof.
  intros Hvel Hn. revert lo st x x'.
  induction cnt as [|c IH]; intros lo st x x' Hsims; simpl.
  - congruence.
  - intros ([st1 r] & Hr & Hrun)%bind_Ok ([st1' r'] & Hr' & Hrun')%bind_Ok.
    apply bind_Ok in Hrun as ([st2 rs] & Hrs & [= <-]).
    apply bind_Ok in Hrun' as ([st2' rs'] & Hrs' & [= <-]).
    assert ((st1, r) = (st1', r')) as [= <- <-].
    { apply (inferGoals_agent_slice reset inp inp' lo st); try done.
      apply (f_equal (take ((lo + 1) * goal_sequence_size inp))) in Hsims.
      rewrite !take_take in Hsims.
      by replace (((lo + 1) * goal_sequence_size inp)
                    `min` ((lo + S c) * goal_sequence_size inp))%nat
        with ((lo + 1) * goal_sequence_size inp)%nat in Hsims by lia. }
    assert ((st2, rs) = (st2', rs')) as [= <- <-]; [|done].
    apply (IH (S lo) st1); try done.
    by replace (S lo + c)%nat with (lo + S c)%nat by lia.
Qed.
End AgentLoop.

(** ** Exact real arithmetic *)

Section RealModel.
Local Open Scope R_scope.

Lemma Reqb_true (x y : R) : Reqb x y = true <-> x = y.
Proof. unfold Reqb. destruct (Req_dec_T x y); split; (done || congruence). Qed.

Lemma Reqb_false (x y : R) : Reqb x y = false <-> x <> y.
Proof. unfold Reqb. destruct (Req_dec_T x y); split; (done || congruence). Qed.

Lemma Rgtb_true (x y : R) : Rgtb x y = true <-> x > y.
Proof. unfold Rgtb. destruct (Rgt_dec x y); split; (done || congruence). Qed.

Lemma Rgtb_false (x y : R) : Rgtb x y = false <-> x <= y.
Proof.
  unfold Rgtb. destruct (Rgt_dec x y); split; intros Hxy;
    first [done | lra | congruence].
Qed.

Lemma Q2R_0 : Q2R 0 = 0.
Proof. unfold Q2R. simpl. lra. Qed.

Lemma Q2R_1 : Q2R 1 = 1.
Proof. unfold Q2R. simpl. lra. Qed.

Lemma Q2R_centi : Q2R (1 # 100) = 1 / 100.
Proof. unfold Q2R. simpl. lra. Qed.

Lemma Q2R_floor : Q2R (5 # 1000) = 5 / 1000.
Proof. unfold Q2R. simpl. lra. Qed.

Lemma sigma_value : sigma = 6 / 100.
Proof. unfold sigma, max_acc, ros_freq. simpl. unfold Q2R. simpl. lra. Qed.

Lemma sigma_pos : 0 < sigma.
Proof. rewrite sigma_value. lra. Qed.

(** The likelihood of lines 126-141 is the Gaussian density. *)
Lemma goal_likelihood_gaussian (curr_vel sim_vel : Vector2 R) :
  goal_likelihood curr_vel sim_vel = gaussian_density sigma curr_vel sim_vel.
Proof.
  unfold goal_likelihood, gaussian_density.
  change ((@max_acc R _ / f_of_Z 2 * ros_freq)%fl) with sigma.
  cbn [f_of_Z f_lit f_PI f_add f_sub f_mul f_div f_opp f_pow f_sqrt f_exp
       R_arith R_libm].
  rewrite Q2R_0. replace (1 - 0 ^ 2) with 1 by ring. rewrite sqrt_1.
  pose proof PI_neq0 as Hpi.
  assert (sigma <> 0) as Hsigma by (rewrite sigma_value; lra).
  f_equal; [field; done|]. f_equal. field. done.
Qed.

Lemma gaussian_density_pos (s : R) (observed predicted : Vector2 R) :
  0 < s -> 0 < gaussian_density s observed predicted.
Proof.
  intros Hs. unfold gaussian_density. apply Rmult_lt_0_compat; [|apply exp_pos].
  apply Rdiv_lt_0_compat; [lra|].
  pose proof PI_RGT_0. assert (0 < s ^ 2) by (apply pow_lt; done). nra.
Qed.

Lemma goal_likelihood_pos (curr_vel sim_vel : Vector2 R) :
  0 < goal_likelihood curr_vel sim_vel.
Proof. rewrite goal_likelihood_gaussian. apply gaussian_density_pos, sigma_pos. Qed.

Lemma agent_likelihoods_pos (inp : Inputs R) (agent : nat) :
  Forall (fun l => 0 < l) (agent_likelihoods inp agent).
Proof.
  unfold agent_likelihoods. apply Forall_fmap, Forall_true.
  intros v. apply goal_likelihood_pos.
Qed.

(** *** Sums *)

Lemma foldl_Rplus (a : R) (l : list R) : foldl Rplus a l = a + sum_list l.
Proof.
  revert a. induction l as [|x l IH]; intros a; simpl; [lra|].
  rewrite IH. lra.
Qed.

Lemma sum_list_nonneg (l : list R) : Forall (fun x => 0 <= x) l -> 0 <= sum_list l.
Proof. induction 1 as [|x l Hx _ IH]; simpl; lra. Qed.

Lemma sum_list_lookup_le (l : list R) (g : nat) (p : R) :
  Forall (fun x => 0 <= x) l -> l !! g = Some p -> p <= sum_list l.
Proof.
  intros Hl. revert g. induction Hl as [|x l Hx Hl IH]; intros g; [done|].
  pose proof (sum_list_nonneg l Hl).
  destruct g as [|g]; simpl.
  - intros [= ->]. lra.
  - intros Hg%IH. lra.
Qed.

Lemma sum_list_replicate (n : nat) (x : R) : sum_list (replicate n x) = INR n * x.
Proof.
  induction n as [|n IH]; [simpl; lra|].
  change (sum_list (replicate (S n) x)) with (x + sum_list (replicate n x)).
  rewrite IH, S_INR. lra.
Qed.

Lemma sum_list_div (l : list R) (z : R) :
  sum_list ((fun p => p / z) <$> l) = sum_list l / z.
Proof.
  induction l as [|x l IH]; [simpl; lra|].
  change (sum_list ((fun p => p / z) <$> x :: l))
    with (x / z + sum_list ((fun p => p / z) <$> l)).
  change (sum_list (x :: l)) with (x + sum_list l).
  rewrite IH. lra.
Qed.

Lemma uniform_prior_R (n : nat) : uniform_prior n = 1 / INR n.
Proof. unfold uniform_prior. simpl. by rewrite Q2R_1, INR_IZR_INZ. Qed.

Lemma uniform_prior_pos (n : nat) : (0 < n)%nat -> 0 < uniform_prior n.
Proof.
  intros Hn. rewrite uniform_prior_R. apply Rdiv_lt_0_compat; [lra|].
  by apply lt_0_INR.
Qed.

Lemma stored_prior_pos (b : R) : 0 < stored_prior b.
Proof.
  unfold stored_prior. simpl. rewrite Q2R_centi, Q2R_floor.
  destruct (Rgtb b (1 / 100)) eqn:Hb; [|lra].
  apply Rgtb_true in Hb. lra.
Qed.

(** *** Normalisation *)

(** The update reports a normalised belief and keeps the stored priors from
    turning negative. *)
Lemma update_normalised reset n g_lik st st' r :
  prior_nonneg st ->
  Forall (fun l => 0 < l) g_lik ->
  update reset n g_lik st = Ok (st', r) ->
  normalised (norm_posteriors r) /\ prior_nonneg st'.
Proof.
  intros Hinv Hlik_pos Hrun. destruct (update_inv _ _ _ _ _ _ Hrun)
    as [Hthree Hinit_len Hlik Hlen_post Hlen_norm Hlen_init Hlen_prior
        Hentry Hsum Hflags Hflags_rest Hnorm].
  pose proof (uniform_prior_pos n ltac:(lia)) as Hu.
  assert (forall g p, g_posteriors r !! g = Some p ->
            0 <= p /\ (init_liks_ st !! g <> Some true -> 0 < p)) as Hp.
  { intros g p Hg. apply lookup_lt_Some in Hg as Hlt. rewrite Hlen_post in Hlt.
    destruct (Hentry g Hlt) as (p' & Hp' & Hcase).
    assert (p' = p) as -> by congruence.
    destruct Hcase as [[_ ->]|(_ & Hflag & l & q & Hl & Hq & ->)].
    - split; [lra | done].
    - split; [|done].
      pose proof (proj1 (Forall_lookup _ _) Hlik_pos g l Hl) as Hl_pos.
      pose proof (Hinv g q Hflag Hq). cbn [f_mul R_arith] in *.
      apply Rmult_le_pos; lra. }
  assert (Forall (fun x => 0 <= x) (g_posteriors r)) as Hpost_nonneg.
  { apply Forall_lookup. intros g p Hg. by apply Hp in Hg as [? _]. }
  assert (posterior_norm r = sum_list (g_posteriors r)) as HZ.
  { rewrite Hsum. cbn [f_add f_lit R_arith]. rewrite foldl_Rplus, Q2R_0. lra. }
  pose proof (sum_list_nonneg _ Hpost_nonneg) as HZ_nonneg.
  cbn [f_eqb f_of_Z f_div R_arith] in Hnorm.
  destruct (Reqb (posterior_norm r) 0) eqn:Hzero.
  - apply Reqb_true in Hzero. destruct Hnorm as [Hprior ->]. split.
    + split.
      * rewrite sum_list_replicate, uniform_prior_R. field.
        apply not_0_INR. lia.
      * apply Forall_lookup. intros g b [-> _]%lookup_replicate. lra.
    + intros g q Hflag Hq. rewrite Hprior in Hq.
      destruct (decide (g < n)%nat) as [Hlt|Hge].
      * destruct (Hentry g Hlt) as (p & Hg & _).
        destruct (Hp g p Hg) as [_ Hfresh].
        destruct (decide (init_liks_ st !! g = Some true)) as [Hset|Hunset].
        -- by apply (Hinv g q).
        -- apply Hfresh in Hunset.
           pose proof (sum_list_lookup_le _ g p Hpost_nonneg Hg). lra.
      * rewrite Hflags_rest in Hflag by lia. by apply (Hinv g q).
  - apply Reqb_false in Hzero. destruct Hnorm as (Hn_prior & Hdone & Hrest).
    assert (0 < posterior_norm r) as HZ_pos by lra.
    assert (norm_posteriors r = (fun p => p / posterior_norm r) <$> g_posteriors r)
      as Hbelief.
    { apply list_eq. intros g. rewrite list_lookup_fmap.
      destruct (decide (g < n)%nat) as [Hlt|Hge].
      - destruct (Hdone g Hlt) as (p & -> & -> & _). done.
      - rewrite !lookup_ge_None_2 by lia. done. }
    split.
    + split.
      * rewrite Hbelief, sum_list_div, <- HZ. by field.
      * rewrite Hbelief. apply Forall_fmap. eapply Forall_impl; [exact Hpost_nonneg|].
        simpl. intros p Hp0. apply Rle_mult_inv_pos; done.
    + intros g q Hflag Hq. destruct (decide (g < n)%nat) as [Hlt|Hge].
      * destruct (Hdone g Hlt) as (p & _ & _ & Hstored).
        assert (q = stored_prior (p / posterior_norm r)) as -> by congruence.
        apply Rlt_le, stored_prior_pos.
      * rewrite Hflags_rest in Hflag by lia. rewrite Hrest in Hq by lia.
        by apply (Hinv g q).
Qed.

Lemma agents_run_normalised reset inp lo cnt st st' rs :
  prior_nonneg st ->
  agents_run reset inp lo cnt st = Ok (st', rs) ->
  Forall (fun r => normalised (norm_posteriors r)) rs /\ prior_nonneg st'.
Proof.
  revert lo st st' rs. induction cnt as [|c IH]; intros lo st st' rs Hinv; simpl.
  - by intros [= <- <-].
  - intros ([st1 r] & Hr & Hrun)%bind_Ok.
    apply bind_Ok in Hrun as ([st2 rs'] & Hrs & [= <- <-]).
    apply inferGoals_agent_inv in Hr as [_ Hupd].
    apply update_normalised in Hupd as [Hnorm Hinv1];
      [|done|apply agent_likelihoods_pos].
    destruct (IH _ _ _ _ Hinv1 Hrs) as [Hall Hinv2].
    split; [by constructor | done].
Qed.


(** No run of ticks from [init] makes a stored prior that is read
    negative. *)
Lemma run_ticks_prior_nonneg (ticks : list (Inputs R)) (st st' : Filter R) :
  prior_nonneg st -> run_ticks ticks st = Ok st' -> prior_nonneg st'.
Proof.
  revert st. induction ticks as [|inp rest IH]; intros st Hinv; simpl.
  - by intros [= <-].
  - intros ([st1 rs] & Hrun & Hrest)%bind_Ok.
    unfold inferGoals in Hrun. rewrite inferGoals_from_run in Hrun.
    apply (IH st1); [|done].
    by destruct (agents_run_normalised _ _ _ _ _ _ _ Hinv Hrun).
Qed.
End RealModel.

(** ** Exact real arithmetic: three goals *)

Section RealThree.
Local Open Scope R_scope.

Lemma stored_prior_keep (b : R) : b > 1 / 100 -> stored_prior b = b.
Proof.
  intros Hb. unfold stored_prior. simpl. rewrite Q2R_centi.
  by rewrite (proj2 (Rgtb_true _ _) Hb).
Qed.

Lemma stored_prior_floor (b : R) : b <= 1 / 100 -> stored_prior b = 5 / 1000.
Proof.
  intros Hb. unfold stored_prior. simpl. rewrite Q2R_centi, Q2R_floor.
  by rewrite (proj2 (Rgtb_false _ _) Hb).
Qed.

(** [update_three] with the arithmetic read in [R]. *)
Lemma update_three_R reset l0 l1 l2 b0 b1 b2 q0 q1 q2 p0 p1 p2 Z :
  p0 = (if reset || negb b0 then 1 / 3 else l0 * q0) ->
  p1 = (if reset || negb b1 then 1 / 3 else l1 * q1) ->
  p2 = (if reset || negb b2 then 1 / 3 else l2 * q2) ->
  Z = p0 + p1 + p2 -> Z <> 0 ->
  update reset 3 [l0; l1; l2] (mkFilter [b0; b1; b2] [q0; q1; q2])
  = Ok (mkFilter [true; true; true]
          [stored_prior (p0 / Z); stored_prior (p1 / Z); stored_prior (p2 / Z)],
        mkAgentInference [l0; l1; l2] [p0; p1; p2] Z [p0 / Z; p1 / Z; p2 / Z]).
Proof.
  intros Hp0 Hp1 Hp2 HZ Hnz. rewrite update_three.
  assert (@uniform_prior R _ 3 = 1 / 3) as -> by (rewrite uniform_prior_R; simpl; lra).
  cbn [f_add f_mul f_div f_lit f_of_Z f_eqb R_arith].
  rewrite <- Hp0, <- Hp1, <- Hp2.
  replace (Q2R 0 + p0 + p1 + p2) with Z by (rewrite Q2R_0, HZ; lra).
  by rewrite (proj2 (Reqb_false Z 0) Hnz).
Qed.

Lemma Rdiv_gt_bound (a z c : R) : 0 < z -> c * z < a -> a / z > c.
Proof.
  intros Hz Hlt. apply Rlt_gt, (Rmult_lt_reg_r z); [done|].
  unfold Rdiv. rewrite Rmult_assoc, Rinv_l by lra. lra.
Qed.

Lemma Rdiv_lt_bound (a z c : R) : 0 < z -> a < c * z -> a / z < c.
Proof.
  intros Hz Hlt. apply (Rmult_lt_reg_r z); [done|].
  unfold Rdiv. rewrite Rmult_assoc, Rinv_l by lra. lra.
Qed.

Lemma exp_neg_bound (a : R) : 0 < a -> exp (- a) < 1 / (1 + a).
Proof.
  intros Ha. rewrite exp_Ropp. unfold Rdiv. rewrite Rmult_1_l.
  apply Rinv_lt_contravar.
  - apply Rmult_lt_0_compat; [lra | apply exp_pos].
  - apply exp_ineq1. lra.
Qed.

(** The likelihoods of the scenario: the one of the observed velocity, and
    two that are less than a 278th of it. *)
Lemma scenario_likelihoods :
  agent_likelihoods scenario 0 = [lik_on; lik_side; lik_back].
Proof. reflexivity. Qed.

Lemma lik_bounds :
  0 < lik_on /\ 0 < lik_side /\ 0 < lik_back /\
  278 * lik_side < lik_on /\ 278 * lik_back < lik_on.
Proof.
  unfold lik_on, lik_side, lik_back.
  repeat split; try apply goal_likelihood_pos.
  all: rewrite !goal_likelihood_gaussian; unfold gaussian_density, observed;
    cbn [x_ y_]; rewrite sigma_value.
  all: replace (- ((1 - 1) ^ 2 + (0 - 0) ^ 2) / (2 * (6 / 100) ^ 2)) with 0 by field;
    rewrite exp_0.
  all: assert (0 < 1 / (2 * PI * (6 / 100) ^ 2)) as Hc
      by (apply Rdiv_lt_0_compat; [lra|]; pose proof PI_RGT_0; nra).
  - replace (- ((1 - 0) ^ 2 + (0 - 1) ^ 2) / (2 * (6 / 100) ^ 2))
      with (- (2500 / 9)) by field.
    pose proof (exp_neg_bound (2500 / 9) ltac:(lra)) as Hexp.
    pose proof (exp_pos (- (2500 / 9))). nra.
  - replace (- ((1 - -1) ^ 2 + (0 - 0) ^ 2) / (2 * (6 / 100) ^ 2))
      with (- (5000 / 9)) by field.
    pose proof (exp_neg_bound (5000 / 9) ltac:(lra)) as Hexp.
    pose proof (exp_pos (- (5000 / 9))). nra.
Qed.

(** A first update (no flag set) or a reset: the belief is uniform and the
    uniform prior is stored. *)
Lemma update_uniform_R reset l0 l1 l2 b0 b1 b2 q0 q1 q2 :
  reset = true \/ (b0 = false /\ b1 = false /\ b2 = false) ->
  update reset 3 [l0; l1; l2] (mkFilter [b0; b1; b2] [q0; q1; q2])
  = Ok (thirds,
        mkAgentInference [l0; l1; l2] [1 / 3; 1 / 3; 1 / 3] 1 [1 / 3; 1 / 3; 1 / 3]).
Proof.
  intros Hfresh.
  rewrite (update_three_R reset l0 l1 l2 b0 b1 b2 q0 q1 q2 (1 / 3) (1 / 3) (1 / 3) 1);
    try lra;
    try (destruct Hfresh as [->|(-> & -> & ->)]; [reflexivity | by destruct reset]).
  replace (1 / 3 / 1) with (1 / 3) by lra.
  rewrite stored_prior_keep by lra. reflexivity.
Qed.

(** An update in which the first goal's likelihood dominates and its prior
    is the largest: the belief of the first goal exceeds 0.98, the others
    fall below 0.01 and their stored priors are floored. *)
Lemma update_dominant_R l0 l1 l2 q0 q1 q2 :
  0 < l0 -> 0 < l1 -> 0 < l2 -> 278 * l1 < l0 -> 278 * l2 < l0 ->
  0 < q1 <= q0 -> 0 < q2 <= q0 ->
  exists b0 b1 b2,
    update false 3 [l0; l1; l2] (mkFilter [true; true; true] [q0; q1; q2])
    = Ok (mkFilter [true; true; true] [b0; 5 / 1000; 5 / 1000],
          mkAgentInference [l0; l1; l2] [l0 * q0; l1 * q1; l2 * q2]
            (l0 * q0 + l1 * q1 + l2 * q2) [b0; b1; b2]) /\
    b0 = l0 * q0 / (l0 * q0 + l1 * q1 + l2 * q2) /\
    b1 = l1 * q1 / (l0 * q0 + l1 * q1 + l2 * q2) /\
    b2 = l2 * q2 / (l0 * q0 + l1 * q1 + l2 * q2) /\
    b0 > 98 / 100 /\ 0 < b1 < 1 / 100 /\ 0 < b2 < 1 / 100.
Proof.
  intros Hl0 Hl1 Hl2 H01 H02 [Hq1 Hq10] [Hq2 Hq20].
  set (Z := l0 * q0 + l1 * q1 + l2 * q2).
  assert (0 < l0 * q0) as Hp0 by (apply Rmult_lt_0_compat; lra).
  assert (0 < l1 * q1) as Hp1 by (apply Rmult_lt_0_compat; lra).
  assert (0 < l2 * q2) as Hp2 by (apply Rmult_lt_0_compat; lra).
  assert (278 * (l1 * q1) < l0 * q0) as Hd1.
  { apply Rle_lt_trans with (278 * l1 * q0); [|apply Rmult_lt_compat_r; lra].
    rewrite Rmult_assoc. apply Rmult_le_compat_l; [lra|].
    apply Rmult_le_compat_l; lra. }
  assert (278 * (l2 * q2) < l0 * q0) as Hd2.
  { apply Rle_lt_trans with (278 * l2 * q0); [|apply Rmult_lt_compat_r; lra].
    rewrite Rmult_assoc. apply Rmult_le_compat_l; [lra|].
    apply Rmult_le_compat_l; lra. }
  assert (0 < Z) as HZ by (unfold Z; lra).
  assert (l0 * q0 / Z > 98 / 100) as Hb0.
  { apply Rdiv_gt_bound; [done|]. unfold Z. lra. }
  assert (0 < l1 * q1 / Z < 1 / 100) as Hb1.
  { split; [by apply Rdiv_lt_0_compat|]. apply Rdiv_lt_bound; [done|]. unfold Z. lra. }
  assert (0 < l2 * q2 / Z < 1 / 100) as Hb2.
  { split; [by apply Rdiv_lt_0_compat|]. apply Rdiv_lt_bound; [done|]. unfold Z. lra. }
  exists (l0 * q0 / Z), (l1 * q1 / Z), (l2 * q2 / Z).
  split; [|done].
  rewrite (update_three_R false l0 l1 l2 true true true q0 q1 q2
             (l0 * q0) (l1 * q1) (l2 * q2) Z); try reflexivity; [|lra].
  rewrite stored_prior_keep by lra.
  rewrite !stored_prior_floor by lra. reflexivity.
Qed.

(** An update in which all likelihoods are equal: the belief is the stored
    prior, renormalised. *)
Lemma update_equal_R l q0 q1 q2 :
  0 < l -> 0 < q0 + q1 + q2 ->
  update false 3 [l; l; l] (mkFilter [true; true; true] [q0; q1; q2])
  = Ok (mkFilter [true; true; true]
          [stored_prior (q0 / (q0 + q1 + q2)); stored_prior (q1 / (q0 + q1 + q2));
           stored_prior (q2 / (q0 + q1 + q2))],
        mkAgentInference [l; l; l] [l * q0; l * q1; l * q2]
          (l * q0 + l * q1 + l * q2)
          [q0 / (q0 + q1 + q2); q1 / (q0 + q1 + q2); q2 / (q0 + q1 + q2)]).
Proof.
  intros Hl Hq.
  rewrite (update_three_R false l l l true true true q0 q1 q2
             (l * q0) (l * q1) (l * q2) (l * q0 + l * q1 + l * q2));
    try reflexivity; [|nra].
  replace (l * q0 / (l * q0 + l * q1 + l * q2)) with (q0 / (q0 + q1 + q2))
    by (field; split; nra).
  replace (l * q1 / (l * q0 + l * q1 + l * q2)) with (q1 / (q0 + q1 + q2))
    by (field; split; nra).
  replace (l * q2 / (l * q0 + l * q1 + l * q2)) with (q2 / (q0 + q1 + q2))
    by (field; split; nra).
  reflexivity.
Qed.
End RealThree.

(** ** Runs of the scenario *)

Section Runs.
Local Open Scope R_scope.

(** A tick with one agent is one update. *)
Lemma inferGoals_one_agent {F : Type} `{Arith F} `{Libm F} (inp : Inputs F)
    (st : Filter F) :
  agents_size inp = 1%nat ->
  (goal_sequence_size inp <= length (sequence_sim_vels inp))%nat ->
  inferGoals inp st
  = '(st', r) ← update reset_priors (goal_sequence_size inp)
                  (agent_likelihoods inp 0) st;
    Ok (st', [r]).
Proof.
  intros Hone Hlen. unfold inferGoals. rewrite inferGoals_from_run, Hone. simpl.
  rewrite inferGoals_agent_eq by (simpl; lia).
  by destruct (update _ _ _ _) as [[st' r]|v i].
Qed.

(** A tick with two agents is two updates, the second on the filter the
    first left. *)
Lemma inferGoals_two_agents {F : Type} `{Arith F} `{Libm F} (inp : Inputs F)
    (st : Filter F) :
  agents_size inp = 2%nat ->
  (2 * goal_sequence_size inp <= length (sequence_sim_vels inp))%nat ->
  inferGoals inp st
  = '(st1, r0) ← update reset_priors (goal_sequence_size inp)
                   (agent_likelihoods inp 0) st;
    '(st2, r1) ← update reset_priors (goal_sequence_size inp)
                   (agent_likelihoods inp 1) st1;
    Ok (st2, [r0; r1]).
Proof.
  intros Htwo Hlen. unfold inferGoals. rewrite inferGoals_from_run, Htwo.
  cbn [agents_run]. rewrite inferGoals_agent_eq by lia.
  destruct (update _ _ _ _) as [[st1 r0]|v i]; [|done].
  cbn [mbind result_bind]. rewrite inferGoals_agent_eq by lia.
  by destruct (update _ _ _ _) as [[st2 r1]|v i].
Qed.

(** The first tick of the scenario: whatever the likelihoods, the belief is
    uniform. *)
Lemma scenario_first_tick :
  exists r, inferGoals scenario init = Ok (thirds, [r]) /\
            norm_posteriors r = [1 / 3; 1 / 3; 1 / 3].
Proof.
  rewrite inferGoals_one_agent by (simpl; lia). rewrite scenario_likelihoods.
  change (goal_sequence_size scenario) with 3%nat.
  change (@init R _) with (mkFilter [false; false; false] [Q2R 0; Q2R 0; Q2R 0]).
  rewrite update_uniform_R by (right; done). simpl. eexists. split; reflexivity.
Qed.

(** The second tick of the scenario, from the uniform prior. *)
Lemma scenario_second_tick :
  exists b0 b1 b2,
    inferGoals scenario thirds
    = Ok (mkFilter [true; true; true] [b0; 5 / 1000; 5 / 1000],
          [mkAgentInference [lik_on; lik_side; lik_back]
             [lik_on * (1 / 3); lik_side * (1 / 3); lik_back * (1 / 3)]
             (lik_on * (1 / 3) + lik_side * (1 / 3) + lik_back * (1 / 3))
             [b0; b1; b2]]) /\
    0 < lik_on * (1 / 3) + lik_side * (1 / 3) + lik_back * (1 / 3) /\
    b0 > 98 / 100 /\ 0 < b1 < 1 / 100 /\ 0 < b2 < 1 / 100.
Proof.
  destruct lik_bounds as (Hl0 & Hl1 & Hl2 & H01 & H02).
  destruct (update_dominant_R lik_on lik_side lik_back (1 / 3) (1 / 3) (1 / 3))
    as (b0 & b1 & b2 & Hupd & _ & _ & _ & Hb); try lra.
  exists b0, b1, b2. split; [|split; [lra | exact Hb]].
  rewrite inferGoals_one_agent by (simpl; lia). rewrite scenario_likelihoods.
  change (goal_sequence_size scenario) with 3%nat.
  unfold thirds, reset_priors. rewrite Hupd. reflexivity.
Qed.
End Runs.

(** ** The claims *)







(** C4.  When the normaliser of an update compares equal to zero, the
    belief is [uniform_prior] for every goal, [prev_prior_] is left as it
    was, and the next update multiplies its likelihoods with those
    untouched priors.  Holds for every model of the arithmetic and every
    filter, hence for the update of every agent in every tick
    ([inferGoals_agent_eq], [agents_run_lookup]). *)
Theorem degenerate_keeps_prior {F : Type} `{Arith F}
    (n : nat) (g_lik : list F) (st st' : Filter F) (r : AgentInference F) :
  update reset_priors n g_lik st = Ok (st', r) ->
  f_eqb (posterior_norm r) (f_of_Z 0) = true ->
  norm_posteriors r = replicate n (uniform_prior n) /\
  prev_prior_ st' = prev_prior_ st /\
  forall n2 g_lik2 st2 r2,
    update reset_priors n2 g_lik2 st' = Ok (st2, r2) ->
    forall g, (g < n)%nat -> (g < n2)%nat ->
      exists l q, g_lik2 !! g = Some l /\ prev_prior_ st !! g = Some q /\
                  g_posteriors r2 !! g = Some (l * q)%fl.
Proof.
  intros Hupd%update_inv Hzero.
  destruct Hupd as [_ _ _ _ _ _ _ _ _ Hflags _ Hnorm].
  rewrite Hzero in Hnorm. destruct Hnorm as [Hprior Hbelief].
  split; [done|]. split; [done|].
  intros n2 g_lik2 st2 r2 Hnext%update_inv g Hg Hg2.
  destruct (post_entry _ _ _ _ _ _ Hnext g Hg2)
    as (p & Hp & [[[Hreset|Hflag] _]|(_ & _ & l & q & Hl & Hq & ->)]).
  - done.
  - rewrite (Hflags g Hg) in Hflag. done.
  - exists l, q. by rewrite <- Hprior.
Qed.

(** In binary32: all three likelihoods have underflowed to zero. *)
Lemma degenerate_keeps_prior_witness :
  exists st' r,
    update reset_priors 3 underflowed thirds32 = Ok (st', r) /\
    norm_posteriors r = replicate 3 (uniform_prior 3) /\
    prev_prior_ st' = prev_prior_ thirds32 /\
    forall n2 g_lik2 st2 r2,
      update reset_priors n2 g_lik2 st' = Ok (st2, r2) ->
      forall g, (g < 3)%nat -> (g < n2)%nat ->
        exists l q, g_lik2 !! g = Some l /\ prev_prior_ thirds32 !! g = Some q /\
                    g_posteriors r2 !! g = Some (l * q)%fl.
Proof.
  eexists _, _. split; [vm_compute; reflexivity|].
  apply (degenerate_keeps_prior 3 underflowed thirds32); vm_compute; reflexivity.
Defined.

(** C5.  When the normaliser of an update does not compare equal to zero,
    then for every goal the belief is the unnormalised posterior divided by
    the normaliser, and the prior stored for the next update is that belief
    if it is greater than 0.01 and 0.005 otherwise; the belief itself is
    reported unclamped.  Holds for every model of the arithmetic and every
    filter. *)
Theorem floor_on_stored_prior {F : Type} `{Arith F}
    (n : nat) (g_lik : list F) (st st' : Filter F) (r : AgentInference F) :
  update reset_priors n g_lik st = Ok (st', r) ->
  f_eqb (posterior_norm r) (f_of_Z 0) = false ->
  forall g, (g < n)%nat ->
    exists p,
      g_posteriors r !! g = Some p /\
      norm_posteriors r !! g = Some (p / posterior_norm r)%fl /\
      prev_prior_ st' !! g
      = Some (if f_gtb (p / posterior_norm r)%fl (f_lit (1 # 100))
              then (p / posterior_norm r)%fl
              else f_lit (5 # 1000)).
Proof.
  intros Hupd%update_inv Hnz g Hg.
  pose proof (post_normalise _ _ _ _ _ _ Hupd) as Hnorm.
  rewrite Hnz in Hnorm. destruct Hnorm as (_ & Hdone & _).
  exact (Hdone g Hg).
Qed.

(** In binary32: the belief is (1, 0, 0); the first prior is kept, the
    other two are floored. *)
Lemma floor_on_stored_prior_witness :
  exists st' r,
    update reset_priors 3 peaked thirds32 = Ok (st', r) /\
    norm_posteriors r = [B32.of_Z 1; S754_zero false; S754_zero false] /\
    prev_prior_ st' = [B32.of_Z 1; B32.of_Q (5 # 1000); B32.of_Q (5 # 1000)] /\
    forall g, (g < 3)%nat ->
      exists p,
        g_posteriors r !! g = Some p /\
        norm_posteriors r !! g = Some (p / posterior_norm r)%fl /\
        prev_prior_ st' !! g
        = Some (if f_gtb (p / posterior_norm r)%fl (f_lit (1 # 100))
                then (p / posterior_norm r)%fl
                else f_lit (5 # 1000)).
Proof.
  eexists _, _. split; [vm_compute; reflexivity|].
  split; [vm_compute; reflexivity|]. split; [vm_compute; reflexivity|].
  apply (floor_on_stored_prior 3 peaked thirds32); vm_compute; reflexivity.
Defined.

(** C6, as stated, fails: on the first tick of the scenario the posterior
    loop finds no flag set and stores the uniform prior itself as the
    unnormalised posterior, without the likelihood, so the belief of the
    first goal is 1/3. *)
Lemma first_tick_is_uniform :
  exists r,
    inferGoals scenario init = Ok (thirds, [r]) /\
    norm_posteriors r !! 0%nat = Some (1 / 3)%R /\
    ~ (1 / 3 > 98 / 100)%R.
Proof.
  destruct scenario_first_tick as (r & Hrun & Hbelief).
  exists r. split; [done|]. rewrite Hbelief. split; [done | lra].
Qed.

(** C6, amended.  On the first tick of the scenario (three goals, predicted
    velocities (1,0), (0,1), (-1,0), observed velocity (1,0), filter as
    [init] leaves it) the belief is 1/3 for every goal and 1/3 is stored as
    every prior.  On the second tick with the same inputs the belief of the
    first goal exceeds 0.98 and the other two are not negative and below
    0.01; the stored priors are that belief for the first goal and the floor
    0.005 for the other two.  Proved in exact real arithmetic, where the
    other two beliefs are positive; in binary32 their likelihoods underflow
    and both beliefs are zero, which the bounds allow. *)
Theorem scenario_two_ticks :
  exists r1 st2 r2 b0 b1 b2,
    inferGoals scenario init = Ok (thirds, [r1]) /\
    norm_posteriors r1 = [1 / 3; 1 / 3; 1 / 3]%R /\
    inferGoals scenario thirds = Ok (st2, [r2]) /\
    norm_posteriors r2 = [b0; b1; b2] /\
    (b0 > 98 / 100)%R /\ (0 <= b1 < 1 / 100)%R /\ (0 <= b2 < 1 / 100)%R /\
    prev_prior_ st2 = [b0; 5 / 1000; 5 / 1000]%R.
Proof.
  destruct scenario_first_tick as (r1 & Hrun1 & Hbelief1).
  destruct scenario_second_tick as (b0 & b1 & b2 & Hrun2 & _ & Hb0 & Hb1 & Hb2).
  eexists r1, _, _, b0, b1, b2.
  split; [exact Hrun1|]. split; [exact Hbelief1|]. split; [exact Hrun2|].
  simpl. repeat split; try done; lra.
Qed.

(** C7, as stated, fails: there is one filter for all agents, so the
    predictions of one agent reach the belief of the next through
    [prev_prior_].  Two ticks start from the same filter, with the same
    observed velocity and the same predictions for the second agent; they
    differ only in the predictions for the first agent, and the beliefs of
    the second agent differ. *)
Lemma other_agent_interferes :
  exists stA rA0 rA1 stB rB0 rB1 a,
    inferGoals (two_agents predicted stay) thirds = Ok (stA, [rA0; rA1]) /\
    inferGoals (two_agents stay stay) thirds = Ok (stB, [rB0; rB1]) /\
    norm_posteriors rA1 !! 0%nat = Some a /\ (a > 98 / 100)%R /\
    norm_posteriors rB1 !! 0%nat = Some (1 / 3)%R.
Proof.
  destruct lik_bounds as (Hl0 & Hl1 & Hl2 & H01 & H02).
  destruct (update_dominant_R lik_on lik_side lik_back (1 / 3) (1 / 3) (1 / 3))
    as (b0 & b1 & b2 & HupdA0 & _ & _ & _ & Hb0 & _); try lra.
  pose proof (update_equal_R lik_on b0 (5 / 1000) (5 / 1000) Hl0 ltac:(lra)) as HupdA1.
  pose proof (update_equal_R lik_on (1 / 3) (1 / 3) (1 / 3) Hl0 ltac:(lra)) as HupdB.
  replace (1 / 3 / (1 / 3 + 1 / 3 + 1 / 3))%R with (1 / 3)%R in HupdB by lra.
  rewrite stored_prior_keep in HupdB by lra. fold thirds in HupdB.
  eexists _, _, _, _, _, _, (b0 / (b0 + 5 / 1000 + 5 / 1000))%R.
  split; [|split; [|split; [|split]]].
  - rewrite inferGoals_two_agents by (simpl; lia).
    change (agent_likelihoods (two_agents predicted stay) 0)
      with [lik_on; lik_side; lik_back].
    change (agent_likelihoods (two_agents predicted stay) 1)
      with [lik_on; lik_on; lik_on].
    change (goal_sequence_size (two_agents predicted stay)) with 3%nat.
    unfold thirds, reset_priors. rewrite HupdA0. cbn [mbind result_bind].
    rewrite HupdA1. reflexivity.
  - rewrite inferGoals_two_agents by (simpl; lia).
    change (agent_likelihoods (two_agents stay stay) 0)
      with [lik_on; lik_on; lik_on].
    change (agent_likelihoods (two_agents stay stay) 1)
      with [lik_on; lik_on; lik_on].
    change (goal_sequence_size (two_agents stay stay)) with 3%nat.
    unfold reset_priors. rewrite HupdB. cbn [mbind result_bind].
    rewrite HupdB. reflexivity.
  - reflexivity.
  - apply Rdiv_gt_bound; lra.
  - reflexivity.
Qed.

(** C7, amended.  The inference made for agent [a] depends on the observed
    velocity [robot_vel_] (one for all agents), the number of goals, the
    filter as the tick finds it (one for all agents) and the predicted
    velocities of the agents up to and including [a]: two ticks that
    complete and differ only in the predictions of later agents make the
    same inference for agent [a].  Holds for every model of the
    arithmetic. *)
Theorem later_agents_do_not_interfere {F : Type} `{Arith F} `{Libm F}
    (inp inp' : Inputs F) (st st1 st1' : Filter F)
    (rs rs' : list (AgentInference F)) (a : nat) :
  robot_vel_ inp = robot_vel_ inp' ->
  goal_sequence_size inp = goal_sequence_size inp' ->
  take ((a + 1) * goal_sequence_size inp) (sequence_sim_vels inp)
  = take ((a + 1) * goal_sequence_size inp) (sequence_sim_vels inp') ->
  (a < agents_size inp)%nat -> (a < agents_size inp')%nat ->
  inferGoals inp st = Ok (st1, rs) ->
  inferGoals inp' st = Ok (st1', rs') ->
  rs !! a = rs' !! a.
Proof.
  intros Hvel Hn Hsims Ha Ha' Hrun Hrun'. unfold inferGoals in *.
  rewrite inferGoals_from_run in Hrun, Hrun'.
  pose proof (agents_run_length _ _ _ _ _ _ _ Hrun) as Hlen.
  pose proof (agents_run_length _ _ _ _ _ _ _ Hrun') as Hlen'.
  destruct (lookup_lt_is_Some_2 rs a) as [r Hr]; [lia|].
  destruct (lookup_lt_is_Some_2 rs' a) as [r' Hr']; [lia|].
  rewrite Hr, Hr'. f_equal.
  destruct (agents_run_lookup _ _ _ _ _ _ _ _ Hrun Hr)
    as (st_a & st_b & rs_a & Hpre & _ & Hagent).
  destruct (agents_run_lookup _ _ _ _ _ _ _ _ Hrun' Hr')
    as (st_a' & st_b' & rs_a' & Hpre' & _ & Hagent').
  assert ((st_a, rs_a) = (st_a', rs_a')) as [= <- <-].
  { apply (agents_run_slices reset_priors inp inp' 0 a st); try done.
    apply (f_equal (take (a * goal_sequence_size inp))) in Hsims.
    rewrite !take_take in Hsims.
    by replace ((a * goal_sequence_size inp)
                  `min` ((a + 1) * goal_sequence_size inp))%nat
      with (a * goal_sequence_size inp)%nat in Hsims by lia. }
  assert ((st_b, r) = (st_b', r')) as [= _ <-]; [|done].
  by apply (inferGoals_agent_slice reset_priors inp inp' a st_a).
Qed.

(** Two ticks that differ in the second agent's predictions agree on the
    first agent. *)
Lemma later_agents_do_not_interfere_witness :
  exists st1 rs st1' rs',
    inferGoals (two_agents predicted stay) thirds = Ok (st1, rs) /\
    inferGoals (two_agents predicted predicted) thirds = Ok (st1', rs') /\
    rs !! 0%nat = rs' !! 0%nat.
Proof.
  assert (sized thirds) as Hsized by done.
  destruct (agents_run_total reset_priors (two_agents predicted stay) 0 2 thirds)
    as (st1 & rs & Hrun & _); [done | done | simpl; lia |].
  destruct (agents_run_total reset_priors (two_agents predicted predicted) 0 2 thirds)
    as (st1' & rs' & Hrun' & _); [done | done | simpl; lia |].
  exists st1, rs, st1', rs'.
  assert (inferGoals (two_agents predicted stay) thirds = Ok (st1, rs)) as H1
    by (unfold inferGoals; by rewrite inferGoals_from_run).
  assert (inferGoals (two_agents predicted predicted) thirds = Ok (st1', rs')) as H2
    by (unfold inferGoals; by rewrite inferGoals_from_run).
  split; [exact H1|]. split; [exact H2|].
  apply (later_agents_do_not_interfere (two_agents predicted stay)
           (two_agents predicted predicted) thirds st1 st1' rs rs' 0);
    try done; simpl; lia.
Defined.

(** C8, as stated, fails: [inferGoals] keeps no record of the number of
    goals of the previous tick and never sets [reset_priors].  After two
    ticks of the scenario, a tick with five goals (and no agent) follows;
    the next tick has three goals again, which differs from the previous
    tick's five, and its belief is not uniform. *)
Lemma goal_count_change_keeps_priors :
  exists r1 st2 r2 st4 r4 c,
    inferGoals scenario init = Ok (thirds, [r1]) /\
    inferGoals scenario thirds = Ok (st2, [r2]) /\
    inferGoals five_goals_no_agent st2 = Ok (st2, []) /\
    goal_sequence_size scenario <> goal_sequence_size five_goals_no_agent /\
    inferGoals scenario st2 = Ok (st4, [r4]) /\
    norm_posteriors r4 !! 0%nat = Some c /\ (c > 98 / 100)%R.
Proof.
  destruct scenario_first_tick as (r1 & Hrun1 & _).
  destruct scenario_second_tick as (b0 & b1 & b2 & Hrun2 & _ & Hb0 & _).
  destruct lik_bounds as (Hl0 & Hl1 & Hl2 & H01 & H02).
  destruct (update_dominant_R lik_on lik_side lik_back b0 (5 / 1000) (5 / 1000))
    as (c0 & c1 & c2 & Hupd & _ & _ & _ & Hc0 & _); try lra.
  eexists r1, _, _, _, _, c0.
  split; [exact Hrun1|]. split; [exact Hrun2|]. split; [reflexivity|].
  split; [simpl; lia|]. split.
  - rewrite inferGoals_one_agent by (simpl; lia). rewrite scenario_likelihoods.
    change (goal_sequence_size scenario) with 3%nat.
    unfold reset_priors. rewrite Hupd. reflexivity.
  - split; [reflexivity | exact Hc0].
Qed.

(** C8, amended.  In exact real arithmetic, an update made with
    [reset_priors] true reports the uniform belief [1/N] for every goal,
    whatever the filter stored, and stores for every goal what lines 174-178
    make of [1/N].  ([inferGoals] fixes [reset_priors] to false on line 103
    and does not compare the number of goals with that of the previous
    tick, so a change of that number alone resets nothing.) *)
Theorem reset_gives_uniform (n : nat) (g_lik : list R) (st st' : Filter R)
    (r : AgentInference R) :
  update true n g_lik st = Ok (st', r) ->
  norm_posteriors r = replicate n (1 / INR n)%R /\
  forall g, (g < n)%nat -> prev_prior_ st' !! g = Some (stored_prior (1 / INR n)%R).
Proof.
  intros Hupd%update_inv.
  destruct Hupd as [Hthree _ _ Hlen_post Hlen_norm _ _ Hentry Hsum _ _ Hnorm].
  assert (g_posteriors r = replicate n (1 / INR n)%R) as Hpost.
  { apply list_eq. intros g. destruct (decide (g < n)%nat) as [Hlt|Hge].
    - rewrite lookup_replicate_2 by done.
      destruct (Hentry g Hlt) as (p & -> & [[_ ->]|(Hreset & _)]); [|done].
      by rewrite uniform_prior_R.
    - rewrite lookup_ge_None_2 by lia. symmetry. apply lookup_replicate_None. lia. }
  assert (posterior_norm r = 1%R) as HZ.
  { rewrite Hsum, Hpost. cbn [f_add f_lit R_arith].
    rewrite foldl_Rplus, Q2R_0, sum_list_replicate. field.
    apply not_0_INR. lia. }
  rewrite HZ in Hnorm. cbn [f_eqb f_of_Z f_div R_arith] in Hnorm.
  rewrite (proj2 (Reqb_false 1 0)) in Hnorm by lra.
  destruct Hnorm as (_ & Hdone & _).
  assert (forall g, (g < n)%nat ->
            norm_posteriors r !! g = Some (1 / INR n)%R /\
            prev_prior_ st' !! g = Some (stored_prior (1 / INR n)%R)) as Hall.
  { intros g Hg. destruct (Hdone g Hg) as (p & Hp & -> & ->).
    rewrite Hpost, lookup_replicate_2 in Hp by done. injection Hp as <-.
    by replace (1 / INR n / 1)%R with (1 / INR n)%R by lra. }
  split; [|intros g Hg; by apply Hall].
  apply list_eq. intros g. destruct (decide (g < n)%nat) as [Hlt|Hge].
  - rewrite lookup_replicate_2 by done. by apply Hall.
  - rewrite lookup_ge_None_2 by lia. symmetry. apply lookup_replicate_None. lia.
Qed.

(** A reset on a filter whose priors favour the first goal. *)
Lemma reset_gives_uniform_witness :
  exists st' r,
    update true 3 [lik_on; lik_side; lik_back] skewed = Ok (st', r) /\
    norm_posteriors r = replicate 3 (1 / INR 3)%R /\
    forall g, (g < 3)%nat -> prev_prior_ st' !! g = Some (stored_prior (1 / INR 3)%R).
Proof.
  eexists _, _. split; [unfold skewed; apply update_uniform_R; by left|].
  apply (reset_gives_uniform 3 [lik_on; lik_side; lik_back] skewed).
  unfold skewed. apply update_uniform_R. by left.
Defined.

(** *** Values that are not numbers, in binary32 *)

Lemma SFsub_nan_r (x : spec_float) :
  SFsub B32.prec B32.emax x S754_nan = S754_nan.
Proof. by destruct x. Qed.

Lemma SFmul_nan_r (x : spec_float) :
  SFmul B32.prec B32.emax x S754_nan = S754_nan.
Proof. by destruct x. Qed.

(** With an observed velocity whose first component is not a number, the
    argument handed to [exp] is not a number. *)
Lemma nan_reaches_exp (m : B32.libm) (uy : spec_float) (v : Vector2 spec_float) :
  exists p,
    @goal_likelihood _ B32.arith (B32.libm_of m) (mkVector2 B32.nan uy) v
    = SFmul B32.prec B32.emax p (B32.expf m B32.nan).
Proof.
  unfold goal_likelihood.
  cbn [x_ y_ f_add f_sub f_mul f_div f_opp f_exp B32.arith B32.libm_of].
  unfold B32.nan. rewrite !SFsub_nan_r, !SFmul_nan_r. cbn [SFmul SFdiv].
  by eexists.
Qed.

(** C9, as stated, fails: nothing in [inferGoals] inspects its inputs.  In
    binary32, with an observed velocity whose first component is NaN, the
    tick completes whatever the C library computes; and if its [expf]
    returns NaN for NaN, as the C standard has it, the likelihoods, the
    normaliser and the beliefs are all NaN, and every stored prior is
    overwritten with the floor 0.005. *)
Lemma nan_is_not_rejected :
  (forall m : B32.libm,
     is_ok (@inferGoals _ B32.arith (B32.libm_of m) nan_inputs thirds32) = true) /\
  (forall m : B32.libm,
     B32.expf m B32.nan = B32.nan ->
     @inferGoals _ B32.arith (B32.libm_of m) nan_inputs thirds32
     = Ok (mkFilter [true; true; true] (replicate 3 (B32.of_Q (5 # 1000))),
           [mkAgentInference (replicate 3 B32.nan) (replicate 3 B32.nan) B32.nan
              (replicate 3 B32.nan)])).
Proof.
  split; intros m.
  - apply inferGoals_from_ok; [done|]. right. split; [done | simpl; lia].
  - intros Hexp. rewrite inferGoals_one_agent by (simpl; lia).
    assert (@agent_likelihoods _ B32.arith (B32.libm_of m) nan_inputs 0
            = replicate 3 B32.nan) as ->.
    { unfold agent_likelihoods, nan_inputs.
      cbn [robot_vel_ goal_sequence_size sequence_sim_vels Nat.mul drop take
           fmap list_fmap replicate].
      repeat match goal with
             | |- context [goal_likelihood (mkVector2 B32.nan ?uy) ?v] =>
                 let p := fresh "p" in
                 let Hp := fresh "Hp" in
                 destruct (nan_reaches_exp m uy v) as [p Hp];
                 rewrite Hp, Hexp; unfold B32.nan at 1; rewrite SFmul_nan_r;
                 clear p Hp
             end.
      reflexivity. }
    vm_compute. reflexivity.
Qed.

(** C9, amended.  [inferGoals] validates nothing: with the filter sized as
    [init] sizes it, a tick completes exactly when there is no agent, or
    there are three goals and [sequence_sim_vels] holds three predicted
    velocities for each agent -- a condition on sizes in which no velocity
    component occurs -- and the likelihoods of a completed tick are
    [goal_likelihood] applied to the components as they come.  Holds for
    every model of the arithmetic, binary32 with its infinities and NaN
    included. *)
Theorem no_input_validation {F : Type} `{Arith F} `{Libm F}
    (inp : Inputs F) (st : Filter F) :
  sized st ->
  (is_ok (inferGoals inp st) = true <->
   agents_size inp = 0%nat \/
   (goal_sequence_size inp = 3%nat /\
    (agents_size inp * 3 <= length (sequence_sim_vels inp))%nat)) /\
  forall st' rs agent r,
    inferGoals inp st = Ok (st', rs) -> rs !! agent = Some r ->
    g_likelihoods r = agent_likelihoods inp agent.
Proof.
  intros Hsized. split; [by apply inferGoals_from_ok|].
  intros st' rs agent r Hrun Hr. unfold inferGoals in Hrun.
  rewrite inferGoals_from_run in Hrun.
  destruct (agents_run_lookup _ _ _ _ _ _ _ _ Hrun Hr)
    as (st_a & st_b & rs_a & _ & _ & Hagent).
  apply inferGoals_agent_inv in Hagent as [_ Hupd%update_inv].
  exact (post_lik _ _ _ _ _ _ Hupd).
Qed.

(** The scenario, on the filter as [init] leaves it. *)
Lemma no_input_validation_witness :
  (is_ok (inferGoals scenario init) = true <->
   agents_size scenario = 0%nat \/
   (goal_sequence_size scenario = 3%nat /\
    (agents_size scenario * 3 <= length (sequence_sim_vels scenario))%nat)) /\
  forall st' rs agent r,
    inferGoals scenario init = Ok (st', rs) -> rs !! agent = Some r ->
    g_likelihoods r = agent_likelihoods scenario agent.
Proof.
  apply (no_input_validation scenario init). split; reflexivity.
Defined.

(** C10, as stated, fails in both directions: a tick with five goals and
    no agent indexes no vector at all, and a tick with three goals and one
    agent leaves [sequence_sim_vels] when it holds no predicted velocity. *)
Lemma bounds_do_not_follow_goal_count :
  (goal_sequence_size five_goals_no_agent = 5%nat /\
   inferGoals five_goals_no_agent init = Ok (init, [])) /\
  (goal_sequence_size no_predictions = 3%nat /\
   inferGoals no_predictions init = OutOfRange v_sequence_sim_vels 3).
Proof. by repeat split. Qed.

(** C10, amended.  Take a filter sized as [init] sizes it (three flags,
    three stored priors) and a tick with at least one agent whose
    [sequence_sim_vels] holds a slice for every agent.  Then every vector
    access of the tick stays within bounds exactly when there are three
    goals; with more than three goals the posterior loop of the first agent
    indexes [init_liks_] at 3, past its end, and with fewer than three goals
    the read-out on line 183 indexes the [N]-element [norm_posteriors] at
    [N].  Holds for every model of the arithmetic. *)
Theorem three_goals_or_out_of_range {F : Type} `{Arith F} `{Libm F}
    (inp : Inputs F) (st : Filter F) :
  sized st ->
  (0 < agents_size inp)%nat ->
  (agents_size inp * goal_sequence_size inp <= length (sequence_sim_vels inp))%nat ->
  (is_ok (inferGoals inp st) = true <-> goal_sequence_size inp = 3%nat) /\
  ((3 < goal_sequence_size inp)%nat ->
   inferGoals inp st = OutOfRange v_init_liks 3) /\
  ((goal_sequence_size inp < 3)%nat ->
   inferGoals inp st = OutOfRange v_norm_posteriors (goal_sequence_size inp)).
Proof.
  intros [Hil Hpp] Hagents Hlen.
  assert (0 * goal_sequence_size inp + goal_sequence_size inp
            <= length (sequence_sim_vels inp))%nat as Hfirst by nia.
  assert (forall v i, inferGoals_agent reset_priors inp 0 st = OutOfRange v i ->
            inferGoals inp st = OutOfRange v i) as Hfault.
  { intros v i Hagent. unfold inferGoals. rewrite inferGoals_from_run.
    destruct (agents_size inp) as [|k]; [lia|]. simpl. by rewrite Hagent. }
  split; [|split].
  - unfold inferGoals. rewrite (inferGoals_from_ok reset_priors inp st) by done. split.
    + intros [Hzero|[Hthree _]]; [lia | done].
    + intros Hthree. right. split; [done|]. rewrite Hthree in Hlen. lia.
  - intros Hmany. apply Hfault. rewrite inferGoals_agent_eq by done.
    rewrite <- Hil. apply update_many.
    + lia.
    + rewrite agent_likelihoods_length by done. lia.
    + lia.
  - intros Hfew. apply Hfault. rewrite inferGoals_agent_eq by done.
    apply update_few.
    + done.
    + rewrite agent_likelihoods_length by done. lia.
    + lia.
    + lia.
Qed.

(** The scenario has one agent, three goals and three predicted
    velocities. *)
Lemma three_goals_or_out_of_range_witness :
  (is_ok (inferGoals scenario init) = true <-> goal_sequence_size scenario = 3%nat) /\
  ((3 < goal_sequence_size scenario)%nat ->
   inferGoals scenario init = OutOfRange v_init_liks 3) /\
  ((goal_sequence_size scenario < 3)%nat ->
   inferGoals scenario init
   = OutOfRange v_norm_posteriors (goal_sequence_size scenario)).
Proof.
  apply (three_goals_or_out_of_range scenario init).
  - split; reflexivity.
  - simpl. lia.
  - simpl. lia.
Defined.

(** ** Further properties *)

(** The literals of the source as binary32 values: 1.2f is 0x3F99999A, 0.1f
    is 0x3DCCCCCD, 0.01f is 0x3C23D70A, 0.005f is 0x3BA3D70A, and [PI] is
    the float nearest to the decimal on line 102. *)
Example literals_binary32 :
  B32.of_Q (12 # 10) = S754_finite false 10066330 (-23) /\
  B32.of_Q (1 # 10) = S754_finite false 13421773 (-27) /\
  B32.of_Q (1 # 100) = S754_finite false 10737418 (-30) /\
  B32.of_Q (5 # 1000) = S754_finite false 10737418 (-31) /\
  B32.of_Q (314159265358979323846 # 100000000000000000000) = B32.PI.
Proof. repeat split; vm_compute; reflexivity. Qed.

(** In binary32 the first update with three goals reports the float nearest
    to 1/3 (0x3EAAAAAB) for every goal, whatever the likelihoods, with the
    normaliser exactly 1, and stores that float as every prior. *)
Theorem first_update_binary32 (l0 l1 l2 : spec_float) :
  update reset_priors 3 [l0; l1; l2] init
  = Ok (thirds32,
        mkAgentInference [l0; l1; l2]
          (replicate 3 (S754_finite false 11184811 (-25)))
          (B32.of_Z 1)
          (replicate 3 (S754_finite false 11184811 (-25)))).
Proof.
  change (@init spec_float _)
    with (mkFilter [false; false; false]
            [B32.of_Q 0; B32.of_Q 0; B32.of_Q 0]).
  unfold reset_priors. rewrite update_three. vm_compute. reflexivity.
Qed.

(** A tick that completes leaves the filter sized as it found it, makes one
    inference per agent, and, if there was an agent, leaves every flag of
    the current goals set. *)
Theorem tick_keeps_filter_sized {F : Type} `{Arith F} `{Libm F}
    (inp : Inputs F) (st st' : Filter F) (rs : list (AgentInference F)) :
  sized st ->
  inferGoals inp st = Ok (st', rs) ->
  sized st' /\ length rs = agents_size inp /\
  ((0 < agents_size inp)%nat -> initialised (goal_sequence_size inp) st').
Proof.
  intros Hsized Hrun. unfold inferGoals in Hrun.
  rewrite inferGoals_from_run in Hrun.
  pose proof (agents_run_length _ _ _ _ _ _ _ Hrun) as Hlen.
  assert (forall lo cnt s s' l,
            agents_run reset_priors inp lo cnt s = Ok (s', l) ->
            sized s -> sized s') as Hkeep.
  { intros lo cnt. revert lo. induction cnt as [|c IH]; intros lo s s' l; simpl.
    - by intros [= <- <-].
    - intros ([s1 r] & Hr & Hrest)%bind_Ok [Hil Hpp].
      apply bind_Ok in Hrest as ([s2 l'] & Hl & [= <- <-]).
      apply (IH _ _ _ _ Hl).
      apply inferGoals_agent_inv in Hr as [_ Hupd%update_inv].
      split.
      + by rewrite (post_len_init _ _ _ _ _ _ Hupd).
      + by rewrite (post_len_prior _ _ _ _ _ _ Hupd). }
  split; [by apply (Hkeep _ _ _ _ _ Hrun)|]. split; [done|].
  intros Hagents. destruct (agents_size inp) as [|k]; [lia|].
  simpl in Hrun. apply bind_Ok in Hrun as ([s1 r] & Hr & Hrest).
  apply bind_Ok in Hrest as ([s2 l'] & Hl & [= <- <-]).
  apply (agents_run_initialised _ _ _ _ _ _ _ Hl).
  apply inferGoals_agent_inv in Hr as [_ Hupd%update_inv].
  intros g Hg. by apply (post_flags _ _ _ _ _ _ Hupd).
Qed.

Lemma tick_keeps_filter_sized_witness :
  exists r,
    inferGoals scenario init = Ok (thirds, [r]) /\
    sized thirds /\ length [r] = agents_size scenario /\
    ((0 < agents_size scenario)%nat ->
     initialised (goal_sequence_size scenario) thirds).
Proof.
  destruct scenario_first_tick as (r & Hrun & _).
  exists r. split; [exact Hrun|].
  apply (tick_keeps_filter_sized scenario init thirds [r]); [|exact Hrun].
  split; reflexivity.
Defined.


(** ** Further properties of the filter *)

Section RealFloor.
Local Open Scope R_scope.

Lemma stored_prior_floored (b : R) :
  b <= 1 -> stored_prior b = 5 / 1000 \/ 1 / 100 < stored_prior b <= 1.
Proof.
  intros Hle. destruct (Rgt_dec b (1 / 100)) as [Hb|Hb].
  - rewrite stored_prior_keep by done. right. lra.
  - rewrite stored_prior_floor by lra. by left.
Qed.

Lemma prior_floored_nonneg (st : Filter R) : prior_floored st -> prior_nonneg st.
Proof. intros Hinv g q Hflag Hq. destruct (Hinv g q Hflag Hq); lra. Qed.

(** What an update on likelihoods that are not negative computes: the
    unnormalised posteriors are not negative, those of goals without a flag
    are positive, and the normaliser is their sum. *)
Lemma update_posteriors reset n g_lik st st' r :
  prior_nonneg st ->
  Forall (fun l => 0 <= l) g_lik ->
  update reset n g_lik st = Ok (st', r) ->
  Forall (fun p => 0 <= p) (g_posteriors r) /\
  (forall g p, g_posteriors r !! g = Some p ->
     init_liks_ st !! g <> Some true -> 0 < p) /\
  posterior_norm r = sum_list (g_posteriors r).
Proof.
  intros Hinv Hlik Hrun. destruct (update_inv _ _ _ _ _ _ Hrun)
    as [Hthree Hinit_len _ Hlen_post _ _ _ Hentry Hsum _ _ _].
  pose proof (uniform_prior_pos n ltac:(lia)) as Hu.
  assert (forall g p, g_posteriors r !! g = Some p ->
            0 <= p /\ (init_liks_ st !! g <> Some true -> 0 < p)) as Hp.
  { intros g p Hg. apply lookup_lt_Some in Hg as Hlt. rewrite Hlen_post in Hlt.
    destruct (Hentry g Hlt) as (p' & Hp' & Hcase).
    assert (p' = p) as -> by congruence.
    destruct Hcase as [[_ ->]|(_ & Hflag & l & q & Hl & Hq & ->)].
    - split; [lra | done].
    - split; [|done].
      pose proof (proj1 (Forall_lookup _ _) Hlik g l Hl) as Hl_pos.
      pose proof (Hinv g q Hflag Hq). cbn [f_mul R_arith] in *.
      apply Rmult_le_pos; lra. }
  split; [|split].
  - apply Forall_lookup. intros g p Hg. by apply Hp in Hg as [? _].
  - intros g p Hg. by apply Hp in Hg as [_ ?].
  - rewrite Hsum. cbn [f_add f_lit R_arith]. rewrite foldl_Rplus, Q2R_0. lra.
Qed.

(** An update on likelihoods that are not negative keeps the stored priors
    that are read at the floor or above 0.01, whichever branch of line 168
    it takes. *)
Lemma update_floored reset n g_lik st st' r :
  prior_floored st ->
  Forall (fun l => 0 <= l) g_lik ->
  update reset n g_lik st = Ok (st', r) ->
  prior_floored st'.
Proof.
  intros Hinv Hlik Hrun.
  destruct (update_posteriors _ _ _ _ _ _ (prior_floored_nonneg _ Hinv) Hlik Hrun)
    as (Hpost & Hfresh & HZ).
  destruct (update_inv _ _ _ _ _ _ Hrun)
    as [Hthree Hinit_len _ Hlen_post _ _ _ Hentry _ Hflags Hflags_rest Hnorm].
  pose proof (sum_list_nonneg _ Hpost) as HZ_nonneg.
  cbn [f_eqb f_of_Z f_div R_arith] in Hnorm.
  destruct (Reqb (posterior_norm r) 0) eqn:Hzero.
  - apply Reqb_true in Hzero. destruct Hnorm as [Hprior _].
    intros g q Hflag Hq. rewrite Hprior in Hq.
    destruct (decide (g < n)%nat) as [Hlt|Hge].
    + destruct (Hentry g Hlt) as (p & Hg & _).
      destruct (decide (init_liks_ st !! g = Some true)) as [Hset|Hunset].
      * by apply (Hinv g q).
      * pose proof (Hfresh g p Hg Hunset).
        pose proof (sum_list_lookup_le _ g p Hpost Hg). lra.
    + rewrite Hflags_rest in Hflag by lia. by apply (Hinv g q).
  - apply Reqb_false in Hzero. destruct Hnorm as (_ & Hdone & Hrest).
    assert (0 < posterior_norm r) as HZ_pos by lra.
    intros g q Hflag Hq. destruct (decide (g < n)%nat) as [Hlt|Hge].
    + destruct (Hdone g Hlt) as (p & Hg & _ & Hstored).
      assert (q = stored_prior (p / posterior_norm r)) as -> by congruence.
      apply stored_prior_floored.
      pose proof (sum_list_lookup_le _ g p Hpost Hg) as Hle.
      apply (Rmult_le_reg_r (posterior_norm r)); [done|].
      unfold Rdiv. rewrite Rmult_assoc, Rinv_l by lra. lra.
    + rewrite Hflags_rest in Hflag by lia. rewrite Hrest in Hq by lia.
      by apply (Hinv g q).
Qed.

Lemma agent_likelihoods_nonneg (inp : Inputs R) (agent : nat) :
  Forall (fun l => 0 <= l) (agent_likelihoods inp agent).
Proof.
  eapply Forall_impl; [apply agent_likelihoods_pos|]. simpl. intros; lra.
Qed.

Lemma agents_run_floored reset inp lo cnt st st' rs :
  prior_floored st ->
  agents_run reset inp lo cnt st = Ok (st', rs) ->
  prior_floored st'.
Proof.
  revert lo st st' rs. induction cnt as [|c IH]; intros lo st st' rs Hinv; simpl.
  - by intros [= <- <-].
  - intros ([st1 r] & Hr & Hrun)%bind_Ok.
    apply bind_Ok in Hrun as ([st2 rs'] & Hrs & [= <- <-]).
    apply inferGoals_agent_inv in Hr as [_ Hupd].
    apply (IH _ _ _ _ (update_floored _ _ _ _ _ _ Hinv
                         (agent_likelihoods_nonneg inp lo) Hupd) Hrs).
Qed.

Lemma init_prior_floored : prior_floored init.
Proof. intros g q Hflag _. by apply lookup_replicate in Hflag as [? _]. Qed.

End RealFloor.

(** In exact real arithmetic, after any run of completed ticks from [init],
    every stored prior that the filter will read is either the floor 0.005
    or greater than 0.01 and at most 1: whichever branch of line 168 the
    updates took, no stored prior lies below the floor, between the floor
    and 0.01, or above one. *)
Theorem stored_priors_stay_floored (ticks : list (Inputs R)) (st : Filter R) :
  run_ticks ticks init = Ok st -> prior_floored st.
Proof.
  assert (forall ts s s', prior_floored s -> run_ticks ts s = Ok s' ->
            prior_floored s') as Hrun.
  { induction ts as [|inp rest IH]; intros s s' Hinv; simpl.
    - by intros [= <-].
    - intros ([s1 rs] & Htick & Hrest)%bind_Ok.
      unfold inferGoals in Htick. rewrite inferGoals_from_run in Htick.
      apply (IH s1 s'); [|done].
      by apply (agents_run_floored _ _ _ _ _ _ _ Hinv Htick). }
  apply Hrun, init_prior_floored.
Qed.

(** The first two ticks of the scenario. *)
Lemma stored_priors_stay_floored_witness :
  exists st,
    run_ticks [scenario; scenario] init = Ok st /\ prior_floored st.
Proof.
  destruct scenario_first_tick as (r1 & Hrun1 & _).
  destruct scenario_second_tick as (b0 & b1 & b2 & Hrun2 & _).
  assert (run_ticks [scenario; scenario] init
          = Ok (mkFilter [true; true; true] [b0; 5 / 1000; 5 / 1000]%R)) as Hrun.
  { simpl. rewrite Hrun1. simpl. rewrite Hrun2. reflexivity. }
  eexists. split; [exact Hrun|].
  exact (stored_priors_stay_floored [scenario; scenario] _ Hrun).
Defined.



Section Sized.
Context {F : Type} `{Arith F} `{Libm F}.

(** The agent loop keeps the filter sized. *)
Lemma agents_run_sized reset inp lo cnt st st' rs :
  agents_run reset inp lo cnt st = Ok (st', rs) -> sized st -> sized st'.
Proof.
  revert lo st st' rs. induction cnt as [|c IH]; intros lo st st' rs; simpl.
  - by intros [= <- <-].
  - intros ([s1 r] & Hr & Hrest)%bind_Ok [Hil Hpp].
    apply bind_Ok in Hrest as ([s2 l'] & Hl & [= <- <-]).
    apply (IH _ _ _ _ Hl).
    apply inferGoals_agent_inv in Hr as [_ Hupd%update_inv].
    split.
    + by rewrite (post_len_init _ _ _ _ _ _ Hupd).
    + by rewrite (post_len_prior _ _ _ _ _ _ Hupd).
Qed.

End Sized.

(** In exact real arithmetic, take a filter sized as [init] sizes it whose
    stored priors that are read are not negative, likelihoods that are not
    negative (zero included), and an update that completes with a normaliser
    that does not compare equal to zero.  Then the belief has no negative
    entry and adds up to one; the priors the update leaves are what lines
    174-178 make of that belief, entry by entry, and they are not
    renormalised: their sum lies between 0.99 and 1.01. *)
Theorem stored_priors_nearly_sum_to_one (n : nat) (g_lik : list R)
    (st st' : Filter R) (r : AgentInference R) :
  sized st -> prior_nonneg st ->
  Forall (fun l => (0 <= l)%R) g_lik ->
  update reset_priors n g_lik st = Ok (st', r) ->
  f_eqb (posterior_norm r) (f_of_Z 0) = false ->
  exists b0 b1 b2,
    norm_posteriors r = [b0; b1; b2] /\
    (0 <= b0)%R /\ (0 <= b1)%R /\ (0 <= b2)%R /\ (b0 + b1 + b2 = 1)%R /\
    prev_prior_ st' = [stored_prior b0; stored_prior b1; stored_prior b2] /\
    (99 / 100 <= stored_prior b0 + stored_prior b1 + stored_prior b2 <= 101 / 100)%R.
Proof.
  intros [Hil Hpp] Hinv Hlik Hrun Hnz.
  destruct (update_posteriors _ _ _ _ _ _ Hinv Hlik Hrun) as (Hpost & _ & HZ).
  destruct (update_inv _ _ _ _ _ _ Hrun)
    as [Hthree Hinit_len _ Hlen_post Hlen_norm _ Hlen_prior _ _ _ _ Hnorm].
  assert (n = 3%nat) as -> by lia.
  rewrite Hnz in Hnorm. destruct Hnorm as (_ & Hdone & _).
  cbn [f_eqb f_of_Z R_arith] in Hnz. apply Reqb_false in Hnz.
  pose proof (sum_list_nonneg _ Hpost) as HZ_nonneg.
  assert (0 < posterior_norm r)%R as HZ_pos by lra.
  rewrite Hpp in Hlen_prior.
  destruct (Hdone 0%nat ltac:(lia)) as (p0 & Hp0 & Hb0 & Hs0).
  destruct (Hdone 1%nat ltac:(lia)) as (p1 & Hp1 & Hb1 & Hs1).
  destruct (Hdone 2%nat ltac:(lia)) as (p2 & Hp2 & Hb2 & Hs2).
  destruct (g_posteriors r) as [|c0 [|c1 [|c2 [|? ?]]]] eqn:Hg; try done.
  destruct (norm_posteriors r) as [|b0 [|b1 [|b2 [|? ?]]]]; try done.
  destruct (prev_prior_ st') as [|s0 [|s1 [|s2 [|? ?]]]]; try done.
  simpl in Hp0, Hp1, Hp2, Hb0, Hb1, Hb2, Hs0, Hs1, Hs2.
  injection Hp0 as ->. injection Hp1 as ->. injection Hp2 as ->.
  injection Hb0 as ->. injection Hb1 as ->. injection Hb2 as ->.
  injection Hs0 as ->. injection Hs1 as ->. injection Hs2 as ->.
  cbn [f_div R_arith].
  apply Forall_cons in Hpost as [Hc0 Hpost].
  apply Forall_cons in Hpost as [Hc1 Hpost].
  apply Forall_cons in Hpost as [Hc2 _].
  unfold sum_list in HZ. simpl in HZ.
  set (Z := posterior_norm r) in *.
  assert (0 <= p0 / Z)%R as Hq0 by (apply Rle_mult_inv_pos; done).
  assert (0 <= p1 / Z)%R as Hq1 by (apply Rle_mult_inv_pos; done).
  assert (0 <= p2 / Z)%R as Hq2 by (apply Rle_mult_inv_pos; done).
  assert (p0 / Z + p1 / Z + p2 / Z = 1)%R as Hsum by (rewrite HZ; field; lra).
  eexists _, _, _. split; [reflexivity|].
  split; [done|]. split; [done|]. split; [done|]. split; [done|].
  split; [reflexivity|].
  destruct (Rgt_dec (p0 / Z) (1 / 100)) as [Hg0|Hg0];
    [rewrite (stored_prior_keep (p0 / Z)) by done
    |rewrite (stored_prior_floor (p0 / Z)) by lra];
    (destruct (Rgt_dec (p1 / Z) (1 / 100)) as [Hg1|Hg1];
      [rewrite (stored_prior_keep (p1 / Z)) by done
      |rewrite (stored_prior_floor (p1 / Z)) by lra]);
    (destruct (Rgt_dec (p2 / Z) (1 / 100)) as [Hg2|Hg2];
      [rewrite (stored_prior_keep (p2 / Z)) by done
      |rewrite (stored_prior_floor (p2 / Z)) by lra]);
    lra.
Qed.

(** Likelihoods of which two are zero, on the uniform prior. *)
Lemma stored_priors_nearly_sum_to_one_witness :
  exists st' r b0 b1 b2,
    update reset_priors 3 [1; 0; 0]%R thirds = Ok (st', r) /\
    norm_posteriors r = [b0; b1; b2] /\
    (0 <= b0)%R /\ (0 <= b1)%R /\ (0 <= b2)%R /\ (b0 + b1 + b2 = 1)%R /\
    prev_prior_ st' = [stored_prior b0; stored_prior b1; stored_prior b2] /\
    (99 / 100 <= stored_prior b0 + stored_prior b1 + stored_prior b2 <= 101 / 100)%R.
Proof.
  pose proof (update_three_R false 1 0 0 true true true (1 / 3) (1 / 3) (1 / 3)
                (1 * (1 / 3)) (0 * (1 / 3)) (0 * (1 / 3))
                (1 * (1 / 3) + 0 * (1 / 3) + 0 * (1 / 3))
                eq_refl eq_refl eq_refl eq_refl ltac:(lra)) as Hupd.
  assert (prior_nonneg thirds) as Hinv.
  { intros g q _ Hq. destruct g as [|[|[|g]]]; simpl in Hq; try done;
      injection Hq as <-; lra. }
  assert (Forall (fun l => (0 <= l)%R) [1; 0; 0]%R) as Hlik
    by (repeat constructor; lra).
  destruct (stored_priors_nearly_sum_to_one 3 [1; 0; 0]%R thirds _ _
              ltac:(split; reflexivity) Hinv Hlik Hupd
              ltac:(apply Reqb_false; simpl; lra))
    as (b0 & b1 & b2 & H).
  eexists _, _, b0, b1, b2. split; [exact Hupd | exact H].
Defined.



Section Binary32.

Lemma SFadd_nan_l (x : spec_float) :
  SFadd B32.prec B32.emax S754_nan x = S754_nan.
Proof. done. Qed.

Lemma SFadd_nan_r (x : spec_float) :
  SFadd B32.prec B32.emax x S754_nan = S754_nan.
Proof. by destruct x. Qed.

Lemma SFmul_nan_l (x : spec_float) :
  SFmul B32.prec B32.emax S754_nan x = S754_nan.
Proof. done. Qed.

Lemma SFdiv_nan_r (x : spec_float) :
  SFdiv B32.prec B32.emax x S754_nan = S754_nan.
Proof. by destruct x. Qed.

(** Neither branch of lines 174-178 stores NaN: NaN is not greater than
    0.01. *)
Lemma stored_prior_not_nan (x : spec_float) : stored_prior x <> S754_nan.
Proof.
  unfold stored_prior. destruct x as [s|s| |s m e]; cbn [f_gtb B32.arith].
  - by destruct (SFltb _ _).
  - by destruct (SFltb _ _).
  - by vm_compute.
  - by destruct (SFltb _ _).
Qed.

End Binary32.

(** In binary32, an update never stores NaN: if no stored prior is NaN
    before an update, none is after it, whatever the likelihoods are (NaN
    and the infinities included), since [norm_posterior > 0.01f] is false
    for NaN and line 177 then stores the floor. *)
Theorem stored_priors_never_nan (reset : bool) (n : nat) (g_lik : list spec_float)
    (st st' : Filter spec_float) (r : AgentInference spec_float) :
  prior_clean st ->
  update reset n g_lik st = Ok (st', r) ->
  prior_clean st'.
Proof.
  intros Hclean Hupd%update_inv.
  destruct Hupd as [_ _ _ _ _ _ Hlen_prior _ _ _ _ Hnorm].
  destruct (f_eqb (posterior_norm r) (f_of_Z 0)).
  - destruct Hnorm as [Hsame _]. unfold prior_clean. by rewrite Hsame.
  - destruct Hnorm as (_ & Hdone & Hrest).
    apply Forall_lookup. intros g q Hq.
    destruct (decide (g < n)%nat) as [Hlt|Hge].
    + destruct (Hdone g Hlt) as (p & _ & _ & Hs).
      assert (q = stored_prior (p / posterior_norm r)%fl) as -> by congruence.
      apply stored_prior_not_nan.
    + rewrite Hrest in Hq by lia.
      by apply (proj1 (Forall_lookup _ _) Hclean g q).
Qed.

(** Likelihoods NaN, 1 and infinity. *)
Lemma stored_priors_never_nan_witness :
  exists st' r,
    prior_clean thirds32 /\
    update reset_priors 3 [S754_nan; B32.of_Z 1; S754_infinity false] thirds32
    = Ok (st', r) /\
    prior_clean st'.
Proof.
  assert (prior_clean thirds32) as Hclean by (repeat constructor; by vm_compute).
  assert (exists x, update reset_priors 3 [S754_nan; B32.of_Z 1; S754_infinity false]
                      thirds32 = Ok x) as [[st' r] Hrun]
    by (eexists; vm_compute; reflexivity).
  exists st', r. split; [exact Hclean|]. split; [exact Hrun|].
  exact (stored_priors_never_nan _ _ _ _ _ _ Hclean Hrun).
Defined.

(** In binary32, with every flag set, a single likelihood that is NaN makes
    the normaliser NaN and every entry of the belief NaN, and overwrites all
    three stored priors with the floor 0.005: the belief accumulated so far
    is lost. *)
Theorem nan_likelihood_floors_priors (l0 l1 l2 q0 q1 q2 : spec_float) :
  l0 = S754_nan \/ l1 = S754_nan \/ l2 = S754_nan ->
  update reset_priors 3 [l0; l1; l2] (mkFilter [true; true; true] [q0; q1; q2])
  = Ok (mkFilter [true; true; true] (replicate 3 (B32.of_Q (5 # 1000))),
        mkAgentInference [l0; l1; l2] [l0 * q0; l1 * q1; l2 * q2]%fl S754_nan
          (replicate 3 S754_nan)).
Proof.
  intros Hnan. unfold reset_priors. rewrite update_three.
  cbn [orb negb f_add f_mul f_div f_lit f_of_Z f_eqb B32.arith].
  assert (SFadd B32.prec B32.emax
            (SFadd B32.prec B32.emax
               (SFadd B32.prec B32.emax (B32.of_Q 0)
                  (SFmul B32.prec B32.emax l0 q0))
               (SFmul B32.prec B32.emax l1 q1))
            (SFmul B32.prec B32.emax l2 q2) = S754_nan) as ->.
  { destruct Hnan as [-> | [-> | ->]]; rewrite SFmul_nan_l.
    - by rewrite SFadd_nan_r.
    - by rewrite SFadd_nan_r.
    - by rewrite SFadd_nan_r. }
  rewrite !SFdiv_nan_r. reflexivity.
Qed.

(** The first likelihood is NaN. *)
Lemma nan_likelihood_floors_priors_witness :
  (S754_nan = S754_nan \/ B32.of_Z 1 = S754_nan \/ B32.of_Z 1 = S754_nan) /\
  update reset_priors 3 [S754_nan; B32.of_Z 1; B32.of_Z 1] thirds32
  = Ok (mkFilter [true; true; true] (replicate 3 (B32.of_Q (5 # 1000))),
        mkAgentInference [S754_nan; B32.of_Z 1; B32.of_Z 1]
          [S754_nan * uniform_prior 3; B32.of_Z 1 * uniform_prior 3;
           B32.of_Z 1 * uniform_prior 3]%fl S754_nan
          (replicate 3 S754_nan)).
Proof.
  split; [by left|].
  apply (nan_likelihood_floors_priors S754_nan (B32.of_Z 1) (B32.of_Z 1)). by left.
Defined.

(** *** Underflow, in binary32 *)

Lemma flushing_underflows : underflows flushing.
Proof.
  split.
  - reflexivity.
  - intros []; reflexivity.
  - intros x Hx. unfold flushing. cbn [B32.expf]. by rewrite Hx.
Qed.

(** One likelihood, for a library that meets [underflows]: the squares are
    rewritten to products, the argument of [exp] is computed, and [exp]
    there is one or zero. *)
Ltac exp_value m Hm :=
  unfold goal_likelihood;
  cbn [x_ y_ f_add f_sub f_mul f_div f_opp f_exp f_pow f_sqrt f_of_Z f_lit f_PI
       B32.arith B32.libm_of Z.of_nat Pos.of_succ_nat Pos.succ];
  rewrite !(pow_square m Hm);
  match goal with
  | |- context [B32.expf m ?a] =>
      let v := eval vm_compute in a in
      replace a with v by (vm_compute; reflexivity)
  end;
  first [ rewrite (exp_zero m Hm)
        | rewrite (exp_underflow m Hm) by (vm_compute; reflexivity) ];
  vm_compute; reflexivity.

(** The likelihoods of the scenario: 44.2097 (0x4230D6BB) and two zeros. *)
Lemma scenario32_likelihoods (m : B32.libm) :
  underflows m ->
  @agent_likelihoods _ B32.arith (B32.libm_of m) scenario32 0
  = [S754_finite false 11589307 (-18); S754_zero false; S754_zero false].
Proof.
  intros Hm. unfold agent_likelihoods, scenario32.
  cbn [robot_vel_ goal_sequence_size sequence_sim_vels Nat.mul drop take
       fmap list_fmap].
  repeat (apply (f_equal2 cons); [exp_value m Hm|]). reflexivity.
Qed.

(** Far from every prediction, every likelihood is zero. *)
Lemma far32_likelihoods (m : B32.libm) :
  underflows m ->
  @agent_likelihoods _ B32.arith (B32.libm_of m) far32 0 = underflowed.
Proof.
  intros Hm. unfold agent_likelihoods, far32.
  cbn [robot_vel_ goal_sequence_size sequence_sim_vels Nat.mul drop take
       fmap list_fmap].
  repeat (apply (f_equal2 cons); [exp_value m Hm|]). reflexivity.
Qed.

(** In binary32, with a C library that meets [underflows], three ticks from
    [init].  The first tick of the scenario reports the uniform belief.  The
    second computes the likelihoods 44.2097, 0 and 0 (the exponentials of
    -277.8 and -555.6 underflow), reports the belief (1, 0, 0) exactly and
    stores the priors 1, 0.005 and 0.005.  A third tick whose observed
    velocity (5,5) is far from every prediction has all likelihoods zero;
    its normaliser compares equal to zero, so the branch of line 168 is
    taken: the belief is uniform again and the stored priors stay as the
    second tick left them. *)
Theorem underflow_reaches_degenerate_branch (m : B32.libm) :
  underflows m ->
  exists r1 st2 r2 r3,
    @inferGoals _ B32.arith (B32.libm_of m) scenario32 init = Ok (thirds32, [r1]) /\
    norm_posteriors r1 = replicate 3 (uniform_prior 3) /\
    @inferGoals _ B32.arith (B32.libm_of m) scenario32 thirds32 = Ok (st2, [r2]) /\
    g_likelihoods r2
    = [S754_finite false 11589307 (-18); S754_zero false; S754_zero false] /\
    norm_posteriors r2 = [B32.of_Z 1; S754_zero false; S754_zero false] /\
    prev_prior_ st2 = [B32.of_Z 1; B32.of_Q (5 # 1000); B32.of_Q (5 # 1000)] /\
    @inferGoals _ B32.arith (B32.libm_of m) far32 st2 = Ok (st2, [r3]) /\
    g_likelihoods r3 = underflowed /\
    f_eqb (posterior_norm r3) (f_of_Z 0) = true /\
    norm_posteriors r3 = replicate 3 (uniform_prior 3).
Proof.
  intros Hm.
  rewrite !inferGoals_one_agent by (simpl; lia).
  rewrite (scenario32_likelihoods m Hm).
  change (goal_sequence_size scenario32) with 3%nat.
  change (@init spec_float _)
    with (mkFilter [false; false; false]
            [B32.of_Q 0; B32.of_Q 0; B32.of_Q 0]).
  unfold reset_priors, thirds32.
  cbn [replicate]. rewrite !update_three.
  eexists _, _, _, _.
  split; [vm_compute; reflexivity|]. split; [vm_compute; reflexivity|].
  split; [vm_compute; reflexivity|]. split; [reflexivity|].
  split; [vm_compute; reflexivity|]. split; [vm_compute; reflexivity|].
  rewrite inferGoals_one_agent by (simpl; lia).
  rewrite (far32_likelihoods m Hm).
  change (goal_sequence_size far32) with 3%nat.
  split; [vm_compute; reflexivity|]. split; [reflexivity|].
  split; vm_compute; reflexivity.
Qed.

(** The library [flushing]. *)
Lemma underflow_reaches_degenerate_branch_witness :
  underflows flushing /\
  exists r1 st2 r2 r3,
    @inferGoals _ B32.arith (B32.libm_of flushing) scenario32 init
    = Ok (thirds32, [r1]) /\
    norm_posteriors r1 = replicate 3 (uniform_prior 3) /\
    @inferGoals _ B32.arith (B32.libm_of flushing) scenario32 thirds32
    = Ok (st2, [r2]) /\
    g_likelihoods r2
    = [S754_finite false 11589307 (-18); S754_zero false; S754_zero false] /\
    norm_posteriors r2 = [B32.of_Z 1; S754_zero false; S754_zero false] /\
    prev_prior_ st2 = [B32.of_Z 1; B32.of_Q (5 # 1000); B32.of_Q (5 # 1000)] /\
    @inferGoals _ B32.arith (B32.libm_of flushing) far32 st2 = Ok (st2, [r3]) /\
    g_likelihoods r3 = underflowed /\
    f_eqb (posterior_norm r3) (f_of_Z 0) = true /\
    norm_posteriors r3 = replicate 3 (uniform_prior 3).
Proof.
  split; [exact flushing_underflows|].
  exact (underflow_reaches_degenerate_branch flushing flushing_underflows).
Defined.

Section RealRecovery.
Local Open Scope R_scope.

(** A goal whose product of likelihood and prior is at least [c] times
    the sum of the other two products has a belief of at least
    [c / (c + 1)]. *)
Lemma share_bound (p rest c : R) :
  0 < p -> 0 <= rest -> 0 < c -> c * rest <= p -> c / (c + 1) <= p / (p + rest).
Proof.
  intros Hp Hrest Hc Hle.
  apply (Rmult_le_reg_r ((c + 1) * (p + rest))); [nra|].
  replace (c / (c + 1) * ((c + 1) * (p + rest))) with (c * (p + rest))
    by (field; lra).
  replace (p / (p + rest) * ((c + 1) * (p + rest))) with (p * (c + 1))
    by (field; lra).
  nra.
Qed.

End RealRecovery.

(** In exact real arithmetic, with every flag set and every stored prior
    between the floor 0.005 and 1 (as [inferGoals] leaves them), a goal whose
    likelihood is at least [K] times that of each other goal gets a belief
    of at least [K / (K + 400)], however small its stored prior: the floor
    keeps every hypothesis recoverable. *)
Theorem floor_keeps_hypotheses_alive (K l0 l1 l2 q0 q1 q2 : R) (g : nat) (lg : R) :
  (0 < K)%R ->
  (0 < l0)%R -> (0 < l1)%R -> (0 < l2)%R ->
  (5 / 1000 <= q0 <= 1)%R -> (5 / 1000 <= q1 <= 1)%R -> (5 / 1000 <= q2 <= 1)%R ->
  [l0; l1; l2] !! g = Some lg ->
  (forall h lh, h <> g -> [l0; l1; l2] !! h = Some lh -> (K * lh <= lg)%R) ->
  exists st' r b,
    update reset_priors 3 [l0; l1; l2] (mkFilter [true; true; true] [q0; q1; q2])
    = Ok (st', r) /\
    norm_posteriors r !! g = Some b /\
    (K / (K + 400) <= b)%R.
Proof.
  intros HK Hl0 Hl1 Hl2 [Hq0 Hq0'] [Hq1 Hq1'] [Hq2 Hq2'] Hg Hratio.
  assert (0 < l0 * q0)%R as Hp0 by (apply Rmult_lt_0_compat; lra).
  assert (0 < l1 * q1)%R as Hp1 by (apply Rmult_lt_0_compat; lra).
  assert (0 < l2 * q2)%R as Hp2 by (apply Rmult_lt_0_compat; lra).
  rewrite (update_three_R reset_priors l0 l1 l2 true true true q0 q1 q2
             (l0 * q0) (l1 * q1) (l2 * q2) (l0 * q0 + l1 * q1 + l2 * q2))%R;
    try reflexivity; [|lra].
  assert (K / 400 / (K / 400 + 1) = K / (K + 400))%R as Hshape by (field; lra).
  destruct g as [|[|[|g]]]; simpl in Hg; [| | |done]; injection Hg as <-.
  - pose proof (Hratio 1%nat l1 ltac:(lia) eq_refl) as H1.
    pose proof (Hratio 2%nat l2 ltac:(lia) eq_refl) as H2.
    eexists _, _, _. split; [reflexivity|]. split; [reflexivity|].
    rewrite <- Hshape.
    replace (l0 * q0 + l1 * q1 + l2 * q2)%R with (l0 * q0 + (l1 * q1 + l2 * q2))%R
      by ring.
    apply share_bound; [lra | lra | lra |]. nra.
  - pose proof (Hratio 0%nat l0 ltac:(lia) eq_refl) as H0.
    pose proof (Hratio 2%nat l2 ltac:(lia) eq_refl) as H2.
    eexists _, _, _. split; [reflexivity|]. split; [reflexivity|].
    rewrite <- Hshape.
    replace (l0 * q0 + l1 * q1 + l2 * q2)%R with (l1 * q1 + (l0 * q0 + l2 * q2))%R
      by ring.
    apply share_bound; [lra | lra | lra |]. nra.
  - pose proof (Hratio 0%nat l0 ltac:(lia) eq_refl) as H0.
    pose proof (Hratio 1%nat l1 ltac:(lia) eq_refl) as H1.
    eexists _, _, _. split; [reflexivity|]. split; [reflexivity|].
    rewrite <- Hshape.
    replace (l0 * q0 + l1 * q1 + l2 * q2)%R with (l2 * q2 + (l0 * q0 + l1 * q1))%R
      by ring.
    apply share_bound; [lra | lra | lra |]. nra.
Qed.

(** A goal at the floor whose likelihood is 400 times the others'. *)
Lemma floor_keeps_hypotheses_alive_witness :
  (0 < 400)%R /\ (0 < 400)%R /\ (0 < 1)%R /\ (0 < 1)%R /\
  (5 / 1000 <= 5 / 1000 <= 1)%R /\ (5 / 1000 <= 1 <= 1)%R /\ (5 / 1000 <= 1 <= 1)%R /\
  [400; 1; 1]%R !! 0%nat = Some 400%R /\
  (forall h lh, h <> 0%nat -> [400; 1; 1]%R !! h = Some lh -> (400 * lh <= 400)%R) /\
  exists st' r b,
    update reset_priors 3 [400; 1; 1]%R
      (mkFilter [true; true; true] [5 / 1000; 1; 1]%R) = Ok (st', r) /\
    norm_posteriors r !! 0%nat = Some b /\
    (400 / (400 + 400) <= b)%R.
Proof.
  assert (forall h lh, h <> 0%nat -> [400; 1; 1]%R !! h = Some lh ->
            (400 * lh <= 400)%R) as Hratio.
  { intros [|[|[|h]]] lh Hh Hlh; simpl in Hlh; try done; injection Hlh as <-; lra. }
  repeat (split; [first [lra | reflexivity | exact Hratio | (split; lra)]|]).
  apply (floor_keeps_hypotheses_alive 400 400 1 1 (5 / 1000) 1 1 0 400);
    first [lra | reflexivity | exact Hratio | (split; lra)].
Defined.

Section Flags.
Context {F : Type} `{Arith F} `{Libm F}.

(** A tick that completes with an agent has three goals. *)
Lemma tick_three_goals (inp : Inputs F) (st st' : Filter F)
    (rs : list (AgentInference F)) :
  sized st -> (0 < agents_size inp)%nat ->
  inferGoals inp st = Ok (st', rs) ->
  goal_sequence_size inp = 3%nat.
Proof.
  intros Hsized Hagents Hrun.
  assert (is_ok (inferGoals_from reset_priors inp st) = true) as Hok
    by (unfold inferGoals in Hrun; by rewrite Hrun).
  apply (inferGoals_from_ok reset_priors inp st Hsized) in Hok as [Hz|[Hthree _]];
    [lia | done].
Qed.

(** A tick keeps the filter sized and the flags of three goals set. *)
Lemma tick_keeps_flags (inp : Inputs F) (st st' : Filter F)
    (rs : list (AgentInference F)) :
  sized st -> initialised 3 st ->
  inferGoals inp st = Ok (st', rs) ->
  sized st' /\ initialised 3 st'.
Proof.
  intros Hsized Hinit Hrun.
  destruct (decide (agents_size inp = 0)%nat) as [Hz|Hnz].
  - unfold inferGoals, inferGoals_from in Hrun. rewrite Hz in Hrun.
    by injection Hrun as <- <-.
  - pose proof (tick_three_goals inp st st' rs Hsized ltac:(lia) Hrun) as Hthree.
    unfold inferGoals in Hrun. rewrite inferGoals_from_run in Hrun.
    split; [by apply (agents_run_sized _ _ _ _ _ _ _ Hrun)|].
    rewrite <- Hthree. apply (agents_run_initialised _ _ _ _ _ _ _ Hrun).
    by rewrite Hthree.
Qed.

Lemma run_ticks_keeps_flags (ticks : list (Inputs F)) (st st' : Filter F) :
  sized st -> initialised 3 st ->
  run_ticks ticks st = Ok st' ->
  sized st' /\ initialised 3 st'.
Proof.
  revert st. induction ticks as [|inp rest IH]; intros st Hsized Hinit; simpl.
  - by intros [= <-].
  - intros ([st1 rs] & Hrun & Hrest)%bind_Ok.
    destruct (tick_keeps_flags inp st st1 rs Hsized Hinit Hrun) as [Hsized1 Hinit1].
    by apply (IH st1).
Qed.

End Flags.

(** Once a tick with an agent has completed on a filter sized as [init]
    sizes it, the filter never returns to the uniform prior: in every later
    tick, after any number of ticks in between, the unnormalised posterior
    of every goal of every agent is the product of its likelihood and the
    prior stored for it.  Holds for every model of the arithmetic. *)
Theorem filter_never_resets {F : Type} `{Arith F} `{Libm F}
    (inp0 : Inputs F) (st0 st1 : Filter F) (rs0 : list (AgentInference F))
    (ticks : list (Inputs F)) (inp : Inputs F) (st st' : Filter F)
    (rs : list (AgentInference F)) (a : nat) (r : AgentInference F) :
  sized st0 -> (0 < agents_size inp0)%nat ->
  inferGoals inp0 st0 = Ok (st1, rs0) ->
  run_ticks ticks st1 = Ok st ->
  inferGoals inp st = Ok (st', rs) ->
  rs !! a = Some r ->
  goal_sequence_size inp = 3%nat /\
  exists st_a rs_a,
    agents_run reset_priors inp 0 a st = Ok (st_a, rs_a) /\
    forall g, (g < 3)%nat ->
      exists l q,
        g_likelihoods r !! g = Some l /\ prev_prior_ st_a !! g = Some q /\
        g_posteriors r !! g = Some (l * q)%fl.
Proof.
  intros Hsized0 Hagents0 Hrun0 Hticks Hrun Hr.
  pose proof (tick_three_goals inp0 st0 st1 rs0 Hsized0 Hagents0 Hrun0) as Hthree0.
  assert (sized st1 /\ initialised 3 st1) as [Hsized1 Hinit1].
  { unfold inferGoals in Hrun0. rewrite inferGoals_from_run in Hrun0.
    split; [by apply (agents_run_sized _ _ _ _ _ _ _ Hrun0)|].
    destruct (agents_size inp0) as [|k]; [lia|].
    simpl in Hrun0. apply bind_Ok in Hrun0 as ([s1 r1] & Hr1 & Hrest).
    apply bind_Ok in Hrest as ([s2 l'] & Hl & [= <- <-]).
    rewrite <- Hthree0. apply (agents_run_initialised _ _ _ _ _ _ _ Hl).
    apply inferGoals_agent_inv in Hr1 as [_ Hupd%update_inv].
    intros g Hg. by apply (post_flags _ _ _ _ _ _ Hupd). }
  destruct (run_ticks_keeps_flags ticks st1 st Hsized1 Hinit1 Hticks) as [Hsized Hinit].
  assert (0 < agents_size inp)%nat as Hagents.
  { unfold inferGoals in Hrun. rewrite inferGoals_from_run in Hrun.
    apply agents_run_length in Hrun. apply lookup_lt_Some in Hr. lia. }
  pose proof (tick_three_goals inp st st' rs Hsized Hagents Hrun) as Hthree.
  split; [done|].
  unfold inferGoals in Hrun. rewrite inferGoals_from_run in Hrun.
  destruct (agents_run_lookup _ _ _ _ _ _ _ _ Hrun Hr)
    as (st_a & st_b & rs_a & Hpre & _ & Hagent).
  exists st_a, rs_a. split; [done|].
  assert (initialised 3 st_a) as Hinit_a.
  { rewrite <- Hthree. apply (agents_run_initialised _ _ _ _ _ _ _ Hpre).
    by rewrite Hthree. }
  apply inferGoals_agent_inv in Hagent as [_ Hupd%update_inv].
  destruct Hupd as [_ _ Hlik _ _ _ _ Hentry _ _ _ _].
  rewrite Hthree in Hentry. intros g Hg.
  destruct (Hentry g Hg)
    as (p & Hp & [[[Hreset|Hflag] _]|(_ & _ & l & q & Hl & Hq & ->)]).
  - done.
  - rewrite (Hinit_a g Hg) in Hflag. done.
  - exists l, q. by rewrite Hlik.
Qed.

(** The scenario: the tick after the first. *)
Lemma filter_never_resets_witness :
  exists r0 st' r,
    sized (@init R _) /\ (0 < agents_size scenario)%nat /\
    inferGoals scenario init = Ok (thirds, [r0]) /\
    run_ticks [] thirds = Ok thirds /\
    inferGoals scenario thirds = Ok (st', [r]) /\
    [r] !! 0%nat = Some r /\
    goal_sequence_size scenario = 3%nat /\
    exists st_a rs_a,
      agents_run reset_priors scenario 0 0 thirds = Ok (st_a, rs_a) /\
      forall g, (g < 3)%nat ->
        exists l q,
          g_likelihoods r !! g = Some l /\ prev_prior_ st_a !! g = Some q /\
          g_posteriors r !! g = Some (l * q)%fl.
Proof.
  destruct scenario_first_tick as (r0 & Hrun0 & _).
  destruct scenario_second_tick as (b0 & b1 & b2 & Hrun & _).
  assert (sized (@init R _)) as Hsized by (split; reflexivity).
  assert (0 < agents_size scenario)%nat as Hagents by (simpl; lia).
  eexists r0, _, _. split; [exact Hsized|]. split; [exact Hagents|].
  split; [exact Hrun0|]. split; [reflexivity|]. split; [exact Hrun|].
  split; [reflexivity|].
  exact (filter_never_resets scenario init thirds [r0] [] scenario thirds _ _ 0 _
           Hsized Hagents Hrun0 eq_refl Hrun eq_refl).
Defined.

Section RealTwoTicks.
Local Open Scope R_scope.

Lemma stored_prior_le (b : R) : 0 < b <= 1 -> 0 < stored_prior b <= b + 5 / 1000.
Proof.
  intros [Hb Hb1]. destruct (Rgt_dec b (1 / 100)) as [Hgt|Hle].
  - rewrite stored_prior_keep by done. lra.
  - rewrite stored_prior_floor by lra. lra.
Qed.

(** Two updates in a row in which one product dominates: [p] is the
    product of likelihood and prior of the goal in the first update and
    [r1], [r2] those of the other goals; [l], [m1], [m2] are the likelihoods
    of the second update. *)
Lemma two_steps_bound (p r1 r2 l m1 m2 : R) :
  0 < p -> 0 < r1 -> 0 < r2 -> 0 < l -> 0 < m1 -> 0 < m2 ->
  278 / 400 * (r1 + r2) <= p ->
  278 * m1 <= l -> 278 * m2 <= l ->
  let Z := p + r1 + r2 in
  let Z' := l * stored_prior (p / Z) + m1 * stored_prior (r1 / Z)
            + m2 * stored_prior (r2 / Z) in
  0 < Z /\ 0 < Z' /\ l * stored_prior (p / Z) / Z' > 98 / 100.
Proof.
  intros Hp Hr1 Hr2 Hl Hm1 Hm2 Hdom H1 H2 Z Z'.
  assert (0 < Z) as HZ by (unfold Z; lra).
  set (b := p / Z). set (b1 := r1 / Z). set (b2 := r2 / Z).
  assert (0 < b) as Hb by (by apply Rdiv_lt_0_compat).
  assert (0 < b1) as Hb1 by (by apply Rdiv_lt_0_compat).
  assert (0 < b2) as Hb2 by (by apply Rdiv_lt_0_compat).
  assert (b + b1 + b2 = 1) as Hsum by (unfold b, b1, b2, Z; field; lra).
  assert (278 / 678 <= b) as Hshare.
  { replace (278 / 678) with (278 / 400 / (278 / 400 + 1)) by field.
    unfold b, Z. replace (p + r1 + r2) with (p + (r1 + r2)) by ring.
    apply share_bound; lra. }
  assert (stored_prior b = b) as Hs by (apply stored_prior_keep; lra).
  destruct (stored_prior_le b1 ltac:(lra)) as [Hs1 Hs1'].
  destruct (stored_prior_le b2 ltac:(lra)) as [Hs2 Hs2'].
  fold b b1 b2 in Z'. unfold Z'. rewrite Hs.
  set (s1 := stored_prior b1) in *. set (s2 := stored_prior b2) in *.
  assert (0 < l * b) as Hlb by (by apply Rmult_lt_0_compat).
  assert (0 < m1 * s1) as Hms1 by (by apply Rmult_lt_0_compat).
  assert (0 < m2 * s2) as Hms2 by (by apply Rmult_lt_0_compat).
  split; [done|]. split; [lra|].
  apply Rdiv_gt_bound; [lra|].
  assert (278 * (m1 * s1) <= l * s1) as Hd1
    by (rewrite <- Rmult_assoc; apply Rmult_le_compat_r; lra).
  assert (278 * (m2 * s2) <= l * s2) as Hd2
    by (rewrite <- Rmult_assoc; apply Rmult_le_compat_r; lra).
  assert (l * s1 + l * s2 <= l * (101 / 100 - b)) as Hrest.
  { rewrite <- Rmult_plus_distr_l. apply Rmult_le_compat_l; lra. }
  assert (49 * (l * (101 / 100 - b)) < 278 * (l * b)) as Hkey.
  { assert (49 * (101 / 100 - b) < 278 * b) as Hb' by lra.
    apply (Rmult_lt_compat_l l) in Hb'; lra. }
  lra.
Qed.

End RealTwoTicks.

(** In exact real arithmetic, with every flag set and every stored prior
    between the floor 0.005 and 1, two updates in a row in which the
    likelihood of one goal is at least 278 times that of each other goal
    bring the belief of that goal above 0.98, whatever the stored priors
    were.  (In the scenario of the specification the ratio is above 278.) *)
Theorem two_dominant_updates_suffice (l0 l1 l2 m0 m1 m2 q0 q1 q2 : R) (g : nat)
    (lg mg : R) :
  (0 < l0)%R -> (0 < l1)%R -> (0 < l2)%R ->
  (0 < m0)%R -> (0 < m1)%R -> (0 < m2)%R ->
  (5 / 1000 <= q0 <= 1)%R -> (5 / 1000 <= q1 <= 1)%R -> (5 / 1000 <= q2 <= 1)%R ->
  [l0; l1; l2] !! g = Some lg -> [m0; m1; m2] !! g = Some mg ->
  (forall h lh, h <> g -> [l0; l1; l2] !! h = Some lh -> (278 * lh <= lg)%R) ->
  (forall h mh, h <> g -> [m0; m1; m2] !! h = Some mh -> (278 * mh <= mg)%R) ->
  exists st1 r1 st2 r2 b,
    update reset_priors 3 [l0; l1; l2] (mkFilter [true; true; true] [q0; q1; q2])
    = Ok (st1, r1) /\
    update reset_priors 3 [m0; m1; m2] st1 = Ok (st2, r2) /\
    norm_posteriors r2 !! g = Some b /\
    (b > 98 / 100)%R.
Proof.
  intros Hl0 Hl1 Hl2 Hm0 Hm1 Hm2 [Hq0 Hq0'] [Hq1 Hq1'] [Hq2 Hq2'] Hg Hg' Hl Hm.
  assert (0 < l0 * q0)%R as Hp0 by (apply Rmult_lt_0_compat; lra).
  assert (0 < l1 * q1)%R as Hp1 by (apply Rmult_lt_0_compat; lra).
  assert (0 < l2 * q2)%R as Hp2 by (apply Rmult_lt_0_compat; lra).
  set (Z := (l0 * q0 + l1 * q1 + l2 * q2)%R).
  rewrite (update_three_R reset_priors l0 l1 l2 true true true q0 q1 q2
             (l0 * q0) (l1 * q1) (l2 * q2) Z)%R;
    try reflexivity; [|unfold Z; lra].
  set (s0 := stored_prior (l0 * q0 / Z)%R).
  set (s1 := stored_prior (l1 * q1 / Z)%R).
  set (s2 := stored_prior (l2 * q2 / Z)%R).
  destruct g as [|[|[|g]]]; simpl in Hg, Hg'; [| | |done];
    injection Hg as <-; injection Hg' as <-.
  - pose proof (Hl 1%nat l1 ltac:(lia) eq_refl) as Ha.
    pose proof (Hl 2%nat l2 ltac:(lia) eq_refl) as Hb.
    pose proof (Hm 1%nat m1 ltac:(lia) eq_refl) as Hc.
    pose proof (Hm 2%nat m2 ltac:(lia) eq_refl) as Hd.
    destruct (two_steps_bound (l0 * q0) (l1 * q1) (l2 * q2) m0 m1 m2)
      as (_ & HZ' & Hbound); try done; [nra|].
    fold Z s0 s1 s2 in HZ', Hbound.
    eexists _, _, _, _, _. split; [reflexivity|].
    rewrite (update_three_R reset_priors m0 m1 m2 true true true s0 s1 s2
               (m0 * s0) (m1 * s1) (m2 * s2) (m0 * s0 + m1 * s1 + m2 * s2))%R;
      try reflexivity; [|lra].
    split; [reflexivity|]. split; [reflexivity | exact Hbound].
  - pose proof (Hl 0%nat l0 ltac:(lia) eq_refl) as Ha.
    pose proof (Hl 2%nat l2 ltac:(lia) eq_refl) as Hb.
    pose proof (Hm 0%nat m0 ltac:(lia) eq_refl) as Hc.
    pose proof (Hm 2%nat m2 ltac:(lia) eq_refl) as Hd.
    destruct (two_steps_bound (l1 * q1) (l0 * q0) (l2 * q2) m1 m0 m2)
      as (_ & HZ' & Hbound); try done; [nra|].
    replace (l1 * q1 + l0 * q0 + l2 * q2)%R with Z in HZ', Hbound by (unfold Z; ring).
    fold s0 s1 s2 in HZ', Hbound.
    eexists _, _, _, _, _. split; [reflexivity|].
    rewrite (update_three_R reset_priors m0 m1 m2 true true true s0 s1 s2
               (m0 * s0) (m1 * s1) (m2 * s2) (m0 * s0 + m1 * s1 + m2 * s2))%R;
      try reflexivity; [|lra].
    split; [reflexivity|]. split; [reflexivity|].
    by replace (m0 * s0 + m1 * s1 + m2 * s2)%R with (m1 * s1 + m0 * s0 + m2 * s2)%R
      by ring.
  - pose proof (Hl 0%nat l0 ltac:(lia) eq_refl) as Ha.
    pose proof (Hl 1%nat l1 ltac:(lia) eq_refl) as Hb.
    pose proof (Hm 0%nat m0 ltac:(lia) eq_refl) as Hc.
    pose proof (Hm 1%nat m1 ltac:(lia) eq_refl) as Hd.
    destruct (two_steps_bound (l2 * q2) (l0 * q0) (l1 * q1) m2 m0 m1)
      as (_ & HZ' & Hbound); try done; [nra|].
    replace (l2 * q2 + l0 * q0 + l1 * q1)%R with Z in HZ', Hbound by (unfold Z; ring).
    fold s0 s1 s2 in HZ', Hbound.
    eexists _, _, _, _, _. split; [reflexivity|].
    rewrite (update_three_R reset_priors m0 m1 m2 true true true s0 s1 s2
               (m0 * s0) (m1 * s1) (m2 * s2) (m0 * s0 + m1 * s1 + m2 * s2))%R;
      try reflexivity; [|lra].
    split; [reflexivity|]. split; [reflexivity|].
    by replace (m0 * s0 + m1 * s1 + m2 * s2)%R with (m2 * s2 + m0 * s0 + m1 * s1)%R
      by ring.
Qed.

(** The likelihoods of the scenario, twice, from the uniform prior. *)
Lemma two_dominant_updates_suffice_witness :
  (0 < lik_on)%R /\ (0 < lik_side)%R /\ (0 < lik_back)%R /\
  (5 / 1000 <= 1 / 3 <= 1)%R /\
  [lik_on; lik_side; lik_back] !! 0%nat = Some lik_on /\
  (forall h lh, h <> 0%nat -> [lik_on; lik_side; lik_back] !! h = Some lh ->
     (278 * lh <= lik_on)%R) /\
  exists st1 r1 st2 r2 b,
    update reset_priors 3 [lik_on; lik_side; lik_back] thirds = Ok (st1, r1) /\
    update reset_priors 3 [lik_on; lik_side; lik_back] st1 = Ok (st2, r2) /\
    norm_posteriors r2 !! 0%nat = Some b /\
    (b > 98 / 100)%R.
Proof.
  destruct lik_bounds as (Hl0 & Hl1 & Hl2 & H01 & H02).
  assert (5 / 1000 <= 1 / 3 <= 1)%R as Hq by lra.
  assert (forall h lh, h <> 0%nat -> [lik_on; lik_side; lik_back] !! h = Some lh ->
            (278 * lh <= lik_on)%R) as Hratio.
  { intros [|[|[|h]]] lh Hh Hlh; simpl in Hlh; try done; injection Hlh as <-; lra. }
  split; [exact Hl0|]. split; [exact Hl1|]. split; [exact Hl2|]. split; [exact Hq|].
  split; [reflexivity|]. split; [exact Hratio|].
  exact (two_dominant_updates_suffice lik_on lik_side lik_back lik_on lik_side lik_back
           (1 / 3) (1 / 3) (1 / 3) 0 lik_on lik_on
           Hl0 Hl1 Hl2 Hl0 Hl1 Hl2 Hq Hq Hq eq_refl eq_refl Hratio Hratio).
Defined.

(** ** The model node *)

Section NodeFacts.
Context {F : Type} `{Arith F} `{Libm F} `{Node.Outside F}.

Lemma setupModel_keeps (w : Node.wrapper) :
  Node.hypotheses_ (Node.setupModel w) = Node.hypotheses_ w /\
  Node.filter (Node.setupModel w) = Node.filter w /\
  Node.robot_vel_ (Node.setupModel w) = Node.robot_vel_ w.
Proof.
  unfold Node.setupModel. destruct (Node.robot_model_ w); cbn;
    destruct (Node.goals (Node.hypotheses_ w)); cbn; try done;
    destruct (Node.sampling (Node.goal_hypothesis (Node.hypotheses_ w))); cbn;
    by repeat (destruct (Node.goalSampling _ _ _) || destruct (Node.goalSequence _ _)).
Qed.

Lemma runSims_keeps (w : Node.wrapper) :
  Node.hypotheses_ (Node.runSims w) = Node.hypotheses_ w /\
  Node.filter (Node.runSims w) = Node.filter w /\
  Node.robot_vel_ (Node.runSims w) = Node.robot_vel_ w.
Proof.
  unfold Node.runSims. cbn. destruct (Node.goals (Node.hypotheses_ w)); cbn; try done.
  destruct (Node.sampling (Node.goal_hypothesis (Node.hypotheses_ w))); cbn; try done.
  by destruct (Node.calcSimVels _ _ _).
Qed.

Lemma runSims_without_sequence (w : Node.wrapper) :
  Node.goals (Node.hypotheses_ w) = false \/
  Node.sampling (Node.goal_hypothesis (Node.hypotheses_ w)) = true ->
  Node.sequence_sim_vels (Node.runSims w) = [].
Proof.
  unfold Node.runSims. cbn. intros [Hg|Hs].
  - by rewrite Hg.
  - rewrite Hs. by destruct (Node.goals (Node.hypotheses_ w)).
Qed.

(** Without a predicted velocity, a tick with an agent leaves a vector:
    [sequence_sim_vels] if there is a goal, [norm_posteriors] if there is
    none. *)
Lemma inferGoals_no_velocities (inp : Inputs F) (st : Filter F) :
  sequence_sim_vels inp = [] -> (0 < agents_size inp)%nat ->
  is_ok (inferGoals inp st) = false.
Proof.
  intros Hnil Hagents. unfold inferGoals. rewrite inferGoals_from_run.
  destruct (agents_size inp) as [|k]; [lia|]. cbn [agents_run].
  destruct (decide (goal_sequence_size inp = 0)%nat) as [Hz|Hnz].
  - rewrite inferGoals_agent_eq by (rewrite Hz; simpl; lia).
    rewrite update_few; [done | lia | | | ]; rewrite Hz; lia.
  - rewrite inferGoals_agent_short; [done|]. rewrite Hnil. simpl. lia.
Qed.

End NodeFacts.

(** When the hypotheses ask for no goals, or for sampled goals, [runSims]
    leaves [sequence_sim_vels] empty, whatever it held; [runModel] then
    completes exactly when there is no agent, and with an agent
    [inferGoals] leaves a vector. *)
Theorem runModel_needs_sequence_sims {F : Type} `{Arith F} `{Libm F} `{Node.Outside F}
    (w : Node.wrapper) :
  Node.goals (Node.hypotheses_ w) = false \/
  Node.sampling (Node.goal_hypothesis (Node.hypotheses_ w)) = true ->
  Node.sequence_sim_vels (Node.runSims (Node.setupModel w)) = [] /\
  (is_ok (Node.runModel w) = true <-> Node.agents (Node.hypotheses_ w) = []).
Proof.
  intros Hmode.
  destruct (setupModel_keeps w) as (Hh1 & _ & _).
  destruct (runSims_keeps (Node.setupModel w)) as (Hh2 & _ & _).
  assert (Node.sequence_sim_vels (Node.runSims (Node.setupModel w)) = []) as Hnil.
  { apply runSims_without_sequence. by rewrite Hh1. }
  split; [exact Hnil|]. unfold Node.runModel. cbv zeta.
  set (w' := Node.runSims (Node.setupModel w)) in *.
  destruct (Node.agents (Node.hypotheses_ w)) as [|a rest] eqn:Hagents.
  - split; [done|]. intros _.
    assert (agents_size (Node.inputs w') = 0%nat) as Hzero
      by (unfold Node.inputs; simpl; by rewrite Hh2, Hh1, Hagents).
    unfold inferGoals, inferGoals_from. rewrite Hzero. reflexivity.
  - split; [|done]. intros Hok.
    assert (is_ok (inferGoals (Node.inputs w') (Node.filter w')) = false) as Hfail.
    { apply inferGoals_no_velocities; [done|].
      unfold Node.inputs. simpl. rewrite Hh2, Hh1, Hagents. simpl. lia. }
    destruct (inferGoals (Node.inputs w') (Node.filter w')) as [[st rs]|v i];
      simpl in *; done.
Qed.

(** A node that is asked to sample goals. *)
Lemma runModel_needs_sequence_sims_witness :
  (Node.goals (Node.hypotheses_ Node.sampling_node) = false \/
   Node.sampling (Node.goal_hypothesis (Node.hypotheses_ Node.sampling_node)) = true) /\
  Node.sequence_sim_vels (Node.runSims (Node.setupModel Node.sampling_node)) = [] /\
  (is_ok (Node.runModel Node.sampling_node) = true <->
   Node.agents (Node.hypotheses_ Node.sampling_node) = []).
Proof.
  split; [by right|].
  apply (@runModel_needs_sequence_sims R _ _ Node.still Node.sampling_node). by right.
Defined.

(** With the filter sized as [init] sizes it, [runModel] completes exactly
    when there is no agent, or there are three goals and the velocities
    that [runSims] left are at least three per agent; and when the
    hypotheses ask for a sequence of goals, those velocities are what
    [calcSimVels] returned for the simulations that [setupModel] stored,
    whatever [sequence_sim_vels] held before. *)
Theorem runModel_needs_three_velocities_per_agent {F : Type} `{Arith F} `{Libm F}
    `{Node.Outside F} (w : Node.wrapper) :
  sized (Node.filter w) ->
  (is_ok (Node.runModel w) = true <->
   Node.agents (Node.hypotheses_ w) = [] \/
   (length (Node.goal_sequence (Node.goal_hypothesis (Node.hypotheses_ w))) = 3%nat /\
    (length (Node.agents (Node.hypotheses_ w)) * 3
     <= length (Node.sequence_sim_vels (Node.runSims (Node.setupModel w))))%nat)) /\
  (Node.goals (Node.hypotheses_ w) = true ->
   Node.sampling (Node.goal_hypothesis (Node.hypotheses_ w)) = false ->
   Node.sequence_sim_vels (Node.runSims (Node.setupModel w))
   = snd (Node.calcSimVels (Node.sequence_sims_ (Node.setupModel w))
            (length (Node.goal_sequence (Node.goal_hypothesis (Node.hypotheses_ w))))
            (Node.sim_wrapper_ (Node.setupModel w)))).
Proof.
  intros Hsized.
  destruct (setupModel_keeps w) as (Hh1 & Hf1 & _).
  destruct (runSims_keeps (Node.setupModel w)) as (Hh2 & Hf2 & _).
  split.
  - unfold Node.runModel. cbv zeta.
    set (w' := Node.runSims (Node.setupModel w)) in *.
    assert (is_ok ('(st, rs) ← inferGoals (Node.inputs w') (Node.filter w');
                   Ok (Node.set_filter st w', rs))
            = is_ok (inferGoals (Node.inputs w') (Node.filter w'))) as ->
      by (by destruct (inferGoals _ _) as [[? ?]|? ?]).
    unfold inferGoals.
    rewrite (inferGoals_from_ok reset_priors (Node.inputs w') (Node.filter w'))
      by (by rewrite Hf2, Hf1).
    unfold Node.inputs. cbn [agents_size goal_sequence_size sequence_sim_vels].
    rewrite Hh2, Hh1.
    split; (intros [Hz|Hthree]; [left | by right]).
    + by apply length_zero_iff_nil.
    + by rewrite Hz.
  - intros Hg Hs. unfold Node.runSims. cbn. rewrite Hh1, Hg, Hs.
    by destruct (Node.calcSimVels _ _ _).
Qed.

(** A node that is asked for a sequence of goals. *)
Lemma runModel_needs_three_velocities_per_agent_witness :
  sized (Node.filter Node.sequence_node) /\
  (is_ok (Node.runModel Node.sequence_node) = true <->
   Node.agents (Node.hypotheses_ Node.sequence_node) = [] \/
   (length (Node.goal_sequence
              (Node.goal_hypothesis (Node.hypotheses_ Node.sequence_node))) = 3%nat /\
    (length (Node.agents (Node.hypotheses_ Node.sequence_node)) * 3
     <= length (Node.sequence_sim_vels
                  (Node.runSims (Node.setupModel Node.sequence_node))))%nat)) /\
  (Node.goals (Node.hypotheses_ Node.sequence_node) = true ->
   Node.sampling (Node.goal_hypothesis (Node.hypotheses_ Node.sequence_node)) = false ->
   Node.sequence_sim_vels (Node.runSims (Node.setupModel Node.sequence_node))
   = snd (Node.calcSimVels (Node.sequence_sims_ (Node.setupModel Node.sequence_node))
            (length (Node.goal_sequence
                       (Node.goal_hypothesis (Node.hypotheses_ Node.sequence_node))))
            (Node.sim_wrapper_ (Node.setupModel Node.sequence_node)))).
Proof.
  assert (sized (Node.filter Node.sequence_node)) as Hsized by (split; reflexivity).
  split; [exact Hsized|].
  exact (@runModel_needs_three_velocities_per_agent R _ _ Node.still
           Node.sequence_node Hsized).
Defined.

(** ** Reasoning about [write] and [loop] *)

Section Checked.

Lemma write_Some {A} (l : list A) (i : nat) (x : A) :
  i < length l -> write l i x = Some (<[i := x]> l).
Proof. intros Hi. unfold write. by rewrite decide_True. Qed.

Lemma loop_app {St} (body : nat -> St -> option St) (lo a b : nat) (s : St) :
  loop body lo (a + b) s = s' ← loop body lo a s; loop body (lo + a) b s'.
Proof.
  revert lo s. induction a as [|a IH]; intros lo s; simpl.
  - by rewrite Nat.add_0_r.
  - destruct (body lo s) as [s1|]; simpl; [|done].
    rewrite IH. by replace (S lo + a) with (lo + S a) by lia.
Qed.

End Checked.

(** ** The experiment node *)

Section ExperimentFacts.
Import Experiment.
Context {D : Type}.

Lemma sequence_ok_Forall (goal_no : nat) (seq : list nat) :
  sequence_ok goal_no seq = true <-> Forall (fun id => id < goal_no) seq.
Proof.
  induction seq as [|id rest IH]; simpl.
  - split; [constructor | done].
  - destruct (decide (goal_no <= id)) as [Hge|Hlt].
    + split; [done|]. intros Hall. apply Forall_cons in Hall as [Hid _]. lia.
    + rewrite IH. split.
      * intros Hrest. constructor; [lia | done].
      * intros Hall. by apply Forall_cons in Hall as [_ Hrest].
Qed.

Lemma setPlan_loop_spec (robot : string) (plan : Plan) (goal_no : nat)
    (robots : list string) (i : nat) (plans : list Plan) :
  i + length robots <= length plans ->
  exists plans' ok seq_ok,
    setPlan_loop robot plan goal_no robots i plans = Some (plans', ok, seq_ok) /\
    (ok = true <-> robot ∈ robots /\ Forall (fun id => id < goal_no) (sequence plan)) /\
    (ok = true ->
     exists k, robots !! k = Some robot /\
               (forall j, j < k -> robots !! j <> Some robot) /\
               plans' = <[i + k := plan]> plans) /\
    (ok = false -> plans' = plans).
Proof.
  revert i. induction robots as [|r rest IH]; intros i Hlen; simpl in *.
  - eexists _, _, _. split; [reflexivity|]. split; [|split; done].
    split; [done|]. intros [Hin _]. by apply elem_of_nil in Hin.
  - destruct (String.eqb robot r) eqn:Heq.
    + apply String.eqb_eq in Heq as <-.
      destruct (sequence_ok goal_no (sequence plan)) eqn:Hseq.
      * rewrite write_Some by lia. simpl.
        eexists _, _, _. split; [reflexivity|]. split; [|split; [|done]].
        -- split; [|done]. intros _. split; [apply list_elem_of_here|].
           by apply sequence_ok_Forall.
        -- intros _. exists 0. split; [done|]. split; [intros j Hj; lia|].
           by rewrite Nat.add_0_r.
      * eexists _, _, _. split; [reflexivity|]. split; [|split; done].
        split; [done|]. intros [_ Hall%sequence_ok_Forall]. congruence.
    + apply String.eqb_neq in Heq.
      destruct (IH (S i) ltac:(lia)) as (plans' & ok & seq_ok & Hrun & Hok & Hset & Hkeep).
      exists plans', ok, seq_ok. split; [exact Hrun|]. split; [|split; [|done]].
      * rewrite Hok. split; intros [Hin Hall]; (split; [|done]).
        -- by apply list_elem_of_further.
        -- apply elem_of_cons in Hin as [->|Hin]; done.
      * intros Htrue. destruct (Hset Htrue) as (k & Hk & Hfirst & ->).
        exists (S k). split; [done|]. split.
        -- intros [|j] Hj; simpl; [congruence|]. apply Hfirst. lia.
        -- f_equal. lia.
Qed.

Lemma planningCB_loop_spec (data : bool) (robot : string) (robots : list string)
    (i : nat) (planning : list bool) :
  i + length robots <= length planning ->
  exists planning',
    planningCB_loop data robot robots i planning = Some planning' /\
    (((robot ∉ robots) /\ planning' = planning) \/
     exists k, robots !! k = Some robot /\
               (forall j, j < k -> robots !! j <> Some robot) /\
               planning' = <[i + k := data]> planning).
Proof.
  revert i. induction robots as [|r rest IH]; intros i Hlen; simpl in *.
  - eexists. split; [reflexivity|]. left. split; [apply not_elem_of_nil | done].
  - destruct (String.eqb robot r) eqn:Heq.
    + apply String.eqb_eq in Heq as <-. rewrite write_Some by lia.
      eexists. split; [reflexivity|]. right. exists 0.
      split; [done|]. split; [intros j Hj; lia|]. by rewrite Nat.add_0_r.
    + apply String.eqb_neq in Heq.
      destruct (IH (S i) ltac:(lia)) as (planning' & Hrun & Hcase).
      exists planning'. split; [exact Hrun|].
      destruct Hcase as [[Hnot ->]|(k & Hk & Hfirst & ->)].
      * left. split; [|done]. by apply not_elem_of_cons.
      * right. exists (S k). split; [done|]. split.
        -- intros [|j] Hj; simpl; [congruence|]. apply Hfirst. lia.
        -- f_equal. lia.
Qed.

Lemma load_goals_length (zero : D) (ps : params D) (i cnt : nat)
    (goals : list (Pose2D D)) (shutdown : bool) :
  let r := load_goals zero ps i cnt goals shutdown in
  length (fst r) <= length goals + cnt /\
  (snd r = false -> shutdown = false /\ length (fst r) = length goals + cnt).
Proof.
  revert i goals shutdown. induction cnt as [|c IH]; intros i goals shutdown; simpl.
  - split; [lia|]. intros ->. split; [done | lia].
  - destruct (load_goal zero ps i) as [goal|].
    + destruct (IH (S i) (goals ++ [goal]) shutdown) as [Hle Heq].
      rewrite length_app in Hle, Heq. simpl in Hle, Heq.
      split; [lia|]. intros Hno. destruct (Heq Hno) as [-> Hlen]. split; [done | lia].
    + destruct (IH (S i) goals true) as [Hle Heq].
      split; [lia|]. intros Hno. by destruct (Heq Hno).
Qed.

Lemma resize_one_head (l : list nat) : resize 1 0 l = [default 0 (head l)].
Proof. by destruct l as [|a [|b l]]. Qed.

Lemma load_plans_spec (ind : bool) (id_of_int : Z -> nat) (ps : params D)
    (robots : list string) (plans setup_plans : list Plan) :
  let r := load_plans ind id_of_int ps robots plans setup_plans in
  length plans = length setup_plans ->
  (forall i p, plans !! i = Some p ->
     setup_plans !! i = Some (mkPlan false [default 0 (head (sequence p))])) ->
  length (fst r) = length plans + length robots /\
  length (snd r) = length plans + length robots /\
  (forall i p, fst r !! i = Some p ->
     snd r !! i = Some (mkPlan false [default 0 (head (sequence p))])).
Proof.
  revert plans setup_plans.
  induction robots as [|robot rest IH]; intros plans setup_plans; simpl.
  - intros Hlen Hshape. split; [lia|]. split; [lia | done].
  - intros Hlen Hshape.
    destruct (IH (plans ++ [(load_plan ind id_of_int ps robot).1])
                (setup_plans ++ [(load_plan ind id_of_int ps robot).2]))
      as (H1 & H2 & H3).
    + rewrite !length_app. simpl. lia.
    + intros i p Hp. apply lookup_app_Some in Hp as [Hp|[Hge Hp]].
      * apply lookup_lt_Some in Hp as Hlt.
        rewrite lookup_app_l by lia. by apply Hshape.
      * rewrite lookup_app_r by lia. rewrite <- Hlen.
        destruct (i - length plans) as [|k]; [|done]. simpl in *.
        injection Hp as <-. unfold load_plan. cbn [fst snd sequence].
        by rewrite resize_one_head.
    + rewrite !length_app in H1, H2. simpl in H1, H2.
      split; [lia|]. split; [lia | done].
Qed.

End ExperimentFacts.

(** [setGoal] always answers [ok].  A goal number below the number of goals
    replaces that goal; any other goal number appends the goal at the end,
    whatever the number was, and sets [goal_no_] to the new number of
    goals.  No other goal changes, none is ever removed, and [goal_no_]
    stays the number of goals if it was. *)
Theorem setGoal_replaces_or_appends {D : Type} (n : nat)
    (g : Experiment.Pose2D D) (e : Experiment.state D) :
  let k := Nat.min n (length (Experiment.goals_ e)) in
  exists goal_no goals,
    Experiment.setGoal n g e = (Experiment.set_goals goal_no goals e, true) /\
    goals !! k = Some g /\
    (forall i, i <> k -> goals !! i = Experiment.goals_ e !! i) /\
    length goals = Nat.max (length (Experiment.goals_ e)) (S k) /\
    (Experiment.goal_no_ e = length (Experiment.goals_ e) -> goal_no = length goals).
Proof.
  intros k. unfold Experiment.setGoal, k.
  destruct (decide (n < length (Experiment.goals_ e))) as [Hlt|Hge].
  - eexists _, _. split; [reflexivity|].
    rewrite Nat.min_l by lia. split; [by apply list_lookup_insert_eq|].
    split; [intros i Hi; by apply list_lookup_insert_ne|].
    rewrite length_insert. split; [lia | done].
  - eexists _, _. split; [reflexivity|].
    rewrite Nat.min_r by lia. split.
    { rewrite lookup_app_r by lia. by rewrite Nat.sub_diag. }
    split.
    { intros i Hi. destruct (decide (i < length (Experiment.goals_ e))) as [Hi'|Hi'].
      - by rewrite lookup_app_l by lia.
      - rewrite lookup_app_r by lia.
        rewrite (lookup_ge_None_2 (Experiment.goals_ e)) by lia.
        destruct (i - length (Experiment.goals_ e)) as [|j] eqn:Hj; [lia | done]. }
    rewrite length_app. simpl. split; [lia | done].
Qed.

(** With one plan per robot, [setPlan] answers [ok] exactly when the robot
    is one of [robots_] and every goal number of the plan is below
    [goal_no_]; it then replaces the plan of the first robot of that name and
    changes nothing else, and otherwise changes nothing at all.  The set-up
    plans are never touched. *)
Theorem setPlan_checks_robot_and_goals {D : Type} (robot : string)
    (plan : Experiment.Plan) (e : Experiment.state D) :
  length (Experiment.plans_ e) = length (Experiment.robots_ e) ->
  exists plans ok,
    Experiment.setPlan robot plan e = Some (Experiment.set_plans plans e, ok) /\
    (ok = true <->
     robot ∈ Experiment.robots_ e /\
     Forall (fun id => id < Experiment.goal_no_ e) (Experiment.sequence plan)) /\
    (ok = true ->
     exists i, Experiment.robots_ e !! i = Some robot /\
               (forall j, j < i -> Experiment.robots_ e !! j <> Some robot) /\
               plans = <[i := plan]> (Experiment.plans_ e)) /\
    (ok = false -> plans = Experiment.plans_ e).
Proof.
  intros Hlen. unfold Experiment.setPlan.
  destruct (setPlan_loop_spec robot plan (Experiment.goal_no_ e)
              (Experiment.robots_ e) 0 (Experiment.plans_ e) ltac:(lia))
    as (plans & ok & seq_ok & -> & Hok & Hset & Hkeep).
  exists plans, ok. split; [reflexivity|]. split; [exact Hok|]. split; [|exact Hkeep].
  intros Htrue. destruct (Hset Htrue) as (k & Hk & Hfirst & ->).
  exists k. done.
Qed.

(** A new plan for the second of two robots. *)
Lemma setPlan_checks_robot_and_goals_witness :
  length (Experiment.plans_ Experiment.two_robots)
  = length (Experiment.robots_ Experiment.two_robots) /\
  exists plans ok,
    Experiment.setPlan "youbot_2" (Experiment.mkPlan true [1; 0]) Experiment.two_robots
    = Some (Experiment.set_plans plans Experiment.two_robots, ok) /\
    (ok = true <->
     "youbot_2" ∈ Experiment.robots_ Experiment.two_robots /\
     Forall (fun id => id < Experiment.goal_no_ Experiment.two_robots)
       (Experiment.sequence (Experiment.mkPlan true [1; 0]))) /\
    (ok = true ->
     exists i, Experiment.robots_ Experiment.two_robots !! i = Some "youbot_2" /\
               (forall j, j < i ->
                  Experiment.robots_ Experiment.two_robots !! j <> Some "youbot_2") /\
               plans = <[i := Experiment.mkPlan true [1; 0]]>
                         (Experiment.plans_ Experiment.two_robots)) /\
    (ok = false -> plans = Experiment.plans_ Experiment.two_robots).
Proof.
  split; [reflexivity|].
  apply (setPlan_checks_robot_and_goals "youbot_2" (Experiment.mkPlan true [1; 0])
           Experiment.two_robots).
  reflexivity.
Defined.

Lemma serve_plans_valid {D : Type} (c : Experiment.call) (e : Experiment.state D) :
  Experiment.plans_valid e ->
  exists e', Experiment.serve c e = Some e' /\ Experiment.plans_valid e' /\
             Experiment.robots_ e' = Experiment.robots_ e /\
             Experiment.setup_plans_ e' = Experiment.setup_plans_ e /\
             length (Experiment.goals_ e) <= length (Experiment.goals_ e').
Proof.
  intros (Hno & Hlen & Hall). destruct c as [n g|robot plan]; simpl.
  - destruct (setGoal_replaces_or_appends n g e)
      as (goal_no & goals & -> & _ & _ & Hlen' & Hno').
    eexists. split; [reflexivity|]. simpl.
    split; [|split; [done|split; [done | lia]]].
    split; [by apply Hno'|]. split; [done|].
    eapply Forall_impl; [exact Hall|]. simpl. intros p Hp.
    eapply Forall_impl; [exact Hp|]. simpl. intros id Hid. lia.
  - destruct (setPlan_checks_robot_and_goals robot plan e Hlen)
      as (plans & ok & -> & Hok & Hset & Hkeep).
    eexists. split; [reflexivity|].
    assert (length plans = length (Experiment.plans_ e) /\
            Forall (fun p => Forall (fun id => id < length (Experiment.goals_ e))
                               (Experiment.sequence p)) plans) as [Hl Hf].
    { destruct ok.
      - destruct (Hset eq_refl) as (i & _ & _ & ->).
        rewrite length_insert. split; [done|].
        destruct (proj1 Hok eq_refl) as [_ Hplan]. rewrite Hno in Hplan.
        destruct (decide (i < length (Experiment.plans_ e))) as [Hi|Hi].
        + by apply Forall_insert.
        + by rewrite list_insert_ge by lia.
      - by rewrite (Hkeep eq_refl). }
    split; [|done]. split; [done|]. split; [|done]. simpl. congruence.
Qed.

(** If [goal_no_] is the number of goals, there is one plan per robot and
    every plan names existing goals, then all that stays so through any
    sequence of calls of the two services; no call fails, goals are never
    removed, and the robots and the set-up plans stay as they were. *)
Theorem service_calls_keep_plans_valid {D : Type} (calls : list Experiment.call)
    (e : Experiment.state D) :
  Experiment.plans_valid e ->
  exists e', Experiment.serve_all calls e = Some e' /\ Experiment.plans_valid e' /\
             Experiment.robots_ e' = Experiment.robots_ e /\
             Experiment.setup_plans_ e' = Experiment.setup_plans_ e /\
             length (Experiment.goals_ e) <= length (Experiment.goals_ e').
Proof.
  revert e. induction calls as [|c rest IH]; intros e Hvalid; simpl.
  - exists e. done.
  - destruct (serve_plans_valid c e Hvalid) as (e1 & -> & Hvalid1 & Hr1 & Hs1 & Hg1).
    simpl. destruct (IH e1 Hvalid1) as (e' & Hrun & Hvalid' & Hr & Hs & Hg).
    exists e'. split; [done|]. split; [done|].
    split; [congruence|]. split; [congruence | lia].
Qed.

(** A goal is appended, then three plans are sent: one uses the new goal,
    one is for an unknown robot, one names a goal that does not exist. *)
Lemma service_calls_keep_plans_valid_witness :
  Experiment.plans_valid Experiment.two_robots /\
  exists e',
    Experiment.serve_all
      [Experiment.SetGoal 7 (Experiment.mkPose2D 2 2 0)%Z;
       Experiment.SetPlan "youbot_1" (Experiment.mkPlan false [2; 0]);
       Experiment.SetPlan "youbot_3" (Experiment.mkPlan false [0]);
       Experiment.SetPlan "youbot_2" (Experiment.mkPlan false [3])]
      Experiment.two_robots = Some e' /\
    Experiment.plans_valid e' /\
    Experiment.robots_ e' = Experiment.robots_ Experiment.two_robots /\
    Experiment.setup_plans_ e' = Experiment.setup_plans_ Experiment.two_robots /\
    length (Experiment.goals_ Experiment.two_robots) <= length (Experiment.goals_ e').
Proof.
  assert (Experiment.plans_valid Experiment.two_robots) as Hvalid.
  { split; [reflexivity|]. split; [reflexivity|]. simpl.
    repeat constructor. }
  split; [exact Hvalid|].
  exact (service_calls_keep_plans_valid _ Experiment.two_robots Hvalid).
Defined.

(** With one flag per robot, [planningCB] sets the flag of the first robot
    of the given name and no other; for a name that is not in [robots_] it
    changes nothing.  The number of flags stays the number of robots. *)
Theorem planningCB_sets_first_match {D : Type} (data : bool) (robot : string)
    (e : Experiment.state D) :
  length (Experiment.robots_planning_ e) = length (Experiment.robots_ e) ->
  exists planning,
    Experiment.planningCB data robot e = Some (Experiment.set_planning planning e) /\
    length planning = length (Experiment.robots_ e) /\
    (((robot ∉ Experiment.robots_ e) /\ planning = Experiment.robots_planning_ e) \/
     exists i, Experiment.robots_ e !! i = Some robot /\
               (forall j, j < i -> Experiment.robots_ e !! j <> Some robot) /\
               planning = <[i := data]> (Experiment.robots_planning_ e)).
Proof.
  intros Hlen. unfold Experiment.planningCB.
  destruct (planningCB_loop_spec data robot (Experiment.robots_ e) 0
              (Experiment.robots_planning_ e) ltac:(lia)) as (planning & -> & Hcase).
  exists planning. split; [reflexivity|]. split; [|exact Hcase].
  destruct Hcase as [[_ ->]|(k & _ & _ & ->)]; [done|].
  by rewrite length_insert.
Qed.

(** The second of two robots starts planning. *)
Lemma planningCB_sets_first_match_witness :
  length (Experiment.robots_planning_ Experiment.two_robots)
  = length (Experiment.robots_ Experiment.two_robots) /\
  exists planning,
    Experiment.planningCB true "youbot_2" Experiment.two_robots
    = Some (Experiment.set_planning planning Experiment.two_robots) /\
    length planning = length (Experiment.robots_ Experiment.two_robots) /\
    ((("youbot_2" ∉ Experiment.robots_ Experiment.two_robots) /\
      planning = Experiment.robots_planning_ Experiment.two_robots) \/
     exists i, Experiment.robots_ Experiment.two_robots !! i = Some "youbot_2" /\
               (forall j, j < i ->
                  Experiment.robots_ Experiment.two_robots !! j <> Some "youbot_2") /\
               planning = <[i := true]>
                            (Experiment.robots_planning_ Experiment.two_robots)).
Proof.
  split; [reflexivity|].
  apply (planningCB_sets_first_match true "youbot_2" Experiment.two_robots).
  reflexivity.
Defined.

(** Whatever the parameter server holds, the constructor leaves one plan,
    one set-up plan and one cleared planning flag per robot; the set-up plan
    of a robot does not repeat and consists of the first goal of the robot's
    plan, or of goal 0 if that plan is empty; there are at most [goal_no_]
    goals, and exactly [goal_no_], at least one, if [ros::shutdown] was not
    called. *)
Theorem constructor_sizes {D : Type} (zero : D) (indeterminate : bool)
    (id_of_int : Z -> nat) (ps : Experiment.params D) :
  let e := fst (Experiment.construct zero indeterminate id_of_int ps) in
  let shutdown := snd (Experiment.construct zero indeterminate id_of_int ps) in
  length (Experiment.plans_ e) = length (Experiment.robots_ e) /\
  length (Experiment.setup_plans_ e) = length (Experiment.robots_ e) /\
  Experiment.robots_planning_ e = replicate (length (Experiment.robots_ e)) false /\
  (forall i p, Experiment.plans_ e !! i = Some p ->
     Experiment.setup_plans_ e !! i
     = Some (Experiment.mkPlan false [default 0 (head (Experiment.sequence p))])) /\
  length (Experiment.goals_ e) <= Experiment.goal_no_ e /\
  (shutdown = false ->
   length (Experiment.goals_ e) = Experiment.goal_no_ e /\ 0 < Experiment.goal_no_ e).
Proof.
  intros e shutdown. subst e shutdown.
  unfold Experiment.construct, Experiment.loadParams.
  cbn [Experiment.robots_ Experiment.goals_ Experiment.plans_ Experiment.setup_plans_
       Experiment.fresh].
  set (robots := default [] (Experiment.get_strings ps "/experiment/robots")).
  set (goal_no := Z.to_nat (default 0%Z (Experiment.get_int ps "/experiment/goals/number")
                            mod 2 ^ 64)).
  pose proof (load_plans_spec indeterminate id_of_int ps robots [] []) as Hplans.
  pose proof (load_goals_length zero ps 0 goal_no [] false) as Hgoals.
  destruct (Experiment.load_plans indeterminate id_of_int ps robots [] [])
    as [plans setup_plans].
  destruct (Hplans eq_refl ltac:(done)) as (Hp & Hs & Hshape). simpl in Hp, Hs, Hshape.
  destruct (decide (goal_no = 0)) as [Hz|Hnz].
  - cbn. split; [lia|]. split; [lia|]. split; [apply resize_nil|]. split; [done|].
    split; [lia | done].
  - destruct (Experiment.load_goals zero ps 0 goal_no [] false) as [goals sd].
    simpl in Hgoals. destruct Hgoals as [Hle Heq]. cbn.
    split; [lia|]. split; [lia|]. split; [apply resize_nil|]. split; [done|].
    split; [lia|]. intros Hno. destruct (Heq Hno) as [_ Hlen]. lia.
Qed.

(** [waitReturn] returns exactly when the input still holds a newline or a
    [q]; otherwise it reads to the end of the input and loops for ever.
    When it returns it has consumed the input up to and including the first
    of those keys, and [interrupted_] is set if that key was [q] and left as
    it was if it was the newline. *)
Theorem waitReturn_stops_at_first_key (input : list ascii) (interrupted : bool) :
  (is_Some (Experiment.waitReturn input interrupted) <->
   Exists (fun c => c = "010"%char \/ c = "q"%char) input) /\
  forall interrupted' rest,
    Experiment.waitReturn input interrupted = Some (interrupted', rest) ->
    exists skipped key,
      input = skipped ++ key :: rest /\
      Forall (fun c => c <> "010"%char /\ c <> "q"%char) skipped /\
      ((key = "010"%char /\ interrupted' = interrupted) \/
       (key = "q"%char /\ interrupted' = true)).
Proof.
  induction input as [|key input [IHret IHres]]; simpl.
  - split.
    + split; [by intros [? ?] | by intros ?%Exists_nil].
    + done.
  - destruct (Ascii.eqb key "010") eqn:Hnl.
    { apply Ascii.eqb_eq in Hnl as ->. split.
      - split; [intros _; apply Exists_cons_hd; by left | by eexists].
      - intros i' rest [= <- <-]. exists [], "010"%char.
        split; [done|]. split; [constructor|]. by left. }
    destruct (Ascii.eqb key "q") eqn:Hq.
    { apply Ascii.eqb_eq in Hq as ->. split.
      - split; [intros _; apply Exists_cons_hd; by right | by eexists].
      - intros i' rest [= <- <-]. exists [], "q"%char.
        split; [done|]. split; [constructor|]. by right. }
    apply Ascii.eqb_neq in Hnl, Hq. split.
    + rewrite IHret. split.
      * intros Hex. by apply Exists_cons_tl.
      * intros Hex. apply Exists_cons in Hex as [[?|?]|Hex]; done.
    + intros i' rest Hrun.
      destruct (IHres i' rest Hrun) as (skipped & k & -> & Hskip & Hkey).
      exists (key :: skipped), k. split; [done|]. split; [|done].
      by constructor.
Qed.

(** With at most 255 robots the loop of [rosSetup] ends, after one test of
    its condition per robot and one more, and has advertised the planning
    topic of every robot, in order.  With 256 robots or more it never ends:
    the 8-bit counter returns to 0 before it reaches the number of
    robots. *)
Theorem rosSetup_ends_up_to_255_robots (robots : list string) :
  (length robots <= 255 ->
   forall fuel, length robots < fuel ->
     Experiment.rosSetup_loop fuel 0 robots []
     = Some (Experiment.planning_topic <$> robots)) /\
  (255 < length robots ->
   forall fuel, Experiment.rosSetup_loop fuel 0 robots [] = None).
Proof.
  split.
  - intros Hsmall.
    assert (forall k fuel topics,
              k <= length robots -> length robots - k < fuel ->
              Experiment.rosSetup_loop fuel k robots topics
              = Some (topics ++ (Experiment.planning_topic <$> drop k robots)))
      as Hloop.
    { intros k fuel. revert k. induction fuel as [|fuel IH]; intros k topics Hk Hfuel;
        [lia|].
      cbn [Experiment.rosSetup_loop].
      destruct (decide (k < length robots)) as [Hlt|Hge].
      - rewrite Nat.mod_small by lia. rewrite IH by lia.
        destruct (lookup_lt_is_Some_2 robots k Hlt) as [r Hr].
        rewrite (list_lookup_total_correct _ _ _ Hr).
        rewrite (drop_S _ _ _ Hr). cbn [fmap list_fmap].
        rewrite <- app_assoc. simpl. by replace (k + 1) with (S k) by lia.
      - rewrite drop_ge by lia. by rewrite app_nil_r. }
    intros fuel Hfuel. rewrite Hloop by lia. by rewrite drop_0.
  - intros Hbig fuel.
    assert (forall k topics, k < 256 ->
              Experiment.rosSetup_loop fuel k robots topics = None) as Hloop.
    { induction fuel as [|fuel IH]; intros k topics Hk; [done|].
      cbn [Experiment.rosSetup_loop]. rewrite decide_True by lia.
      apply IH. apply Nat.mod_upper_bound. lia. }
    apply Hloop. lia.
Qed.

(** ** The planner node *)

Section PlannerFacts.
Import Planner.
Context {D F Ids Settings RVO Nav : Type} `{Outside D F Ids Settings RVO Nav}.

Lemma init_planner_ok (s : wrapper) :
  rvo_planner_ s = None -> ros_navigation_ s = None -> planner_ok (init s).
Proof.
  intros Hrvo Hnav. unfold planner_ok, init. simpl. rewrite Hrvo, Hnav.
  repeat split; try done; try (by intros [? ?]); try (by intros [?|?]).
Qed.

(** The copying loop, after [k] iterations. *)
Lemma copy_loop_spec (env : EnvironmentData D Ids) (k : nat) :
  let n := length (agent_poses env) in
  let blank := replicate n (mkVector2 zero_F zero_F) in
  k <= n ->
  loop (copy_agent env) 0 k (blank, blank)
  = if decide (k <= length (agent_vels env)) then
      Some (((fun p => mkVector2 (to_F (x p)) (to_F (y p)))
               <$> take k (agent_poses env)) ++ replicate (n - k) (mkVector2 zero_F zero_F),
            ((fun v => mkVector2 (to_F (linear_x v)) (to_F (linear_y v)))
               <$> take k (agent_vels env)) ++ replicate (n - k) (mkVector2 zero_F zero_F))
    else None.
Proof.
  intros n blank. induction k as [|k IH]; intros Hk.
  - cbn [loop]. rewrite decide_True by lia. by rewrite Nat.sub_0_r.
  - replace (S k) with (k + 1) by lia. rewrite loop_app, IH by lia.
    destruct (decide (k <= length (agent_vels env))) as [Hle|Hgt]; simpl.
    2:{ by rewrite decide_False by lia. }
    destruct (lookup_lt_is_Some_2 (agent_poses env) k ltac:(unfold n in *; lia)) as [p Hp].
    rewrite Hp. simpl.
    rewrite write_Some
      by (rewrite length_app, length_fmap, length_take, length_replicate;
          unfold n in *; lia).
    simpl.
    destruct (agent_vels env !! k) as [v|] eqn:Hv; simpl.
    + apply lookup_lt_Some in Hv as Hlt. rewrite decide_True by lia.
      rewrite write_Some
        by (rewrite length_app, length_fmap, length_take, length_replicate;
            unfold n in *; lia).
      simpl. f_equal. f_equal.
      * rewrite insert_app_r_alt
          by (rewrite length_fmap, length_take; unfold n in *; lia).
        rewrite length_fmap, length_take.
        replace (k - Nat.min k (length (agent_poses env))) with 0
          by (unfold n in *; lia).
        replace (n - k) with (S (n - (k + 1))) by lia. simpl.
        replace (k + 1) with (S k) by lia.
        rewrite (take_S_r _ _ _ Hp), fmap_app. simpl.
        by rewrite <- app_assoc.
      * rewrite insert_app_r_alt by (rewrite length_fmap, length_take; lia).
        rewrite length_fmap, length_take.
        replace (k - Nat.min k (length (agent_vels env))) with 0 by lia.
        replace (n - k) with (S (n - (k + 1))) by lia. simpl.
        replace (k + 1) with (S k) by lia.
        rewrite (take_S_r _ _ _ Hv), fmap_app. simpl.
        by rewrite <- app_assoc.
    + apply lookup_ge_None in Hv. by rewrite decide_False by lia.
Qed.

Lemma environment_vectors_spec (env : EnvironmentData D Ids) :
  environment_vectors env
  = if decide (length (agent_poses env) <= length (agent_vels env)) then
      Some ((fun p => mkVector2 (to_F (x p)) (to_F (y p))) <$> agent_poses env,
            (fun v => mkVector2 (to_F (linear_x v)) (to_F (linear_y v)))
              <$> take (length (agent_poses env)) (agent_vels env))
    else None.
Proof.
  unfold environment_vectors. rewrite copy_loop_spec by lia.
  destruct (decide _); [|done].
  by rewrite Nat.sub_diag, firstn_all, !app_nil_r.
Qed.

End PlannerFacts.

Section PlannerSteps.
Import Planner.
Context {D F Ids Settings RVO Nav : Type} `{Outside D F Ids Settings RVO Nav}.

Ltac settle :=
  intuition (try discriminate; try (by eexists);
             try (match goal with Hn : is_Some None |- _ => by destruct Hn end);
             try congruence).

Ltac flags s :=
  destruct s as [use_rvo use_nav planning arrived aborted pinit cp gp tp cv nv rv env
                   [rvo|] [nav|]];
  unfold planner_ok, set_rvo, set_nav, planningCB, pubPlanning, pubArrived in *;
  cbn in *.

Lemma handle_planner_ok (ev : event) (s s' : wrapper) (out : list (published D)) :
  planner_ok s -> handle ev s = Some (s', out) -> planner_ok s'.
Proof.
  intros Hok Hrun. destruct ev as [t|ts df|msg|msg|data|msg|].
  - cbn in Hrun. unfold setupNewPlanner in Hrun.
    flags s; destruct (t =? RVO_PLANNER)%N, (t =? ROS_NAVIGATION)%N, pinit;
      cbn in *; simplify_eq; unfold set_rvo, set_nav; cbn; settle.
  - cbn in Hrun. unfold setupRVOPlanner in Hrun.
    flags s; simplify_eq; unfold set_rvo, set_nav; cbn; settle.
  - cbn in Hrun. unfold currPoseCB in Hrun.
    flags s; destruct use_rvo; cbn in *; simplify_eq; unfold set_rvo, set_nav; cbn; settle.
  - cbn in Hrun. unfold targetGoalCB in Hrun.
    flags s; destruct use_rvo, use_nav; cbn in *; simplify_eq; unfold set_rvo, set_nav; cbn; settle.
  - cbn in Hrun. flags s; simplify_eq; unfold set_rvo, set_nav; cbn; settle.
  - cbn in Hrun. unfold environmentDataCB in Hrun. cbn in Hrun.
    destruct (use_rvo_planner_ s) eqn:Huse.
    + destruct (environment_vectors msg) as [[poses vels]|]; [|done].
      flags s; simplify_eq; unfold set_rvo, set_nav; cbn; settle.
    + flags s; simplify_eq; unfold set_rvo, set_nav; cbn; settle.
  - cbn in Hrun. unfold plannerStep in Hrun.
    flags s; destruct planning, use_rvo, use_nav; cbn in *;
      repeat (match goal with
              | Hr : context [planStep ?r] |- _ => destruct (planStep r) as [? ?]
              | Hr : context [getArrived ?r] |- _ => destruct (getArrived r)
              | Hr : context [nav_getArrived ?r] |- _ => destruct (nav_getArrived r)
              | Hr : context [if ?b then _ else _] |- _ => destruct b
              end; cbn in * );
      simplify_eq; unfold set_rvo, set_nav; cbn; settle.
Qed.

(** With the flags telling which pointer is assigned, an event is handled
    without dereferencing an unassigned pointer and without leaving a
    vector exactly when: it is a call of [setupRVOPlanner] and the RVO
    planner is in use; or it is an environment message and, if the RVO
    planner is in use, the message has at least as many velocities as
    poses; or it is any other event. *)
Theorem planner_events_are_safe (ev : event) (s : wrapper) :
  planner_ok s -> is_Some (handle ev s) <-> handled ev s.
Proof.
  intros Hok. destruct ev as [t|ts df|msg|msg|data|msg|]; cbn.
  - split; [done | by eexists].
  - unfold setupRVOPlanner. flags s; split; try done; try (by eexists);
      try (intros [? ?]; settle); settle.
  - unfold currPoseCB. flags s; destruct use_rvo; cbn;
      split; try done; try (by eexists); settle.
  - unfold targetGoalCB. flags s; destruct use_rvo, use_nav; cbn;
      split; try done; try (by eexists); settle.
  - split; [done | by eexists].
  - unfold environmentDataCB. cbn. rewrite environment_vectors_spec.
    destruct (use_rvo_planner_ s) eqn:Huse.
    + destruct (decide _) as [Hle|Hgt]; cbn.
      * split; [done|]. intros _. flags s; cbn; try (by eexists); settle.
      * split; [by intros [? ?] | intros Hlen; specialize (Hlen eq_refl); lia].
    + split; [done | by eexists].
  - unfold plannerStep.
    flags s; destruct planning, use_rvo, use_nav; cbn;
      repeat (match goal with
              | |- context [planStep ?r] => destruct (planStep r) as [? ?]
              | |- context [getArrived ?r] => destruct (getArrived r)
              | |- context [nav_getArrived ?r] => destruct (nav_getArrived r)
              | |- context [if ?b then _ else _] => destruct b
              end; cbn);
      split; try done; try (by eexists); settle.
Qed.

End PlannerSteps.

Section PlannerRuns.
Import Planner.
Context {D F Ids Settings RVO Nav : Type} `{Outside D F Ids Settings RVO Nav}.

Lemma run_planner_ok (evs : list event) (s s' : wrapper) (out : list (published D)) :
  planner_ok s -> run evs s = Some (s', out) -> planner_ok s'.
Proof.
  revert s out. induction evs as [|ev rest IH]; intros s out Hok; simpl.
  - by intros [= <- <-].
  - destruct (handle ev s) as [[s1 out1]|] eqn:Hev; [|done]. simpl.
    destruct (run rest s1) as [[s2 out2]|] eqn:Hrest; [|done]. simpl.
    intros [= <- <-]. apply (IH s1 out2); [|done].
    by apply (handle_planner_ok ev s s1 out1).
Qed.

End PlannerRuns.

(** From an object whose two planner pointers are not assigned, [init]
    followed by any sequence of service calls, messages and steps that
    completes leaves the flags telling which pointer is assigned:
    [use_rvo_planner_] is set exactly when [rvo_planner_] is assigned,
    [use_ros_navigation_] exactly when [ros_navigation_] is, never both, and
    [planner_init] exactly when one of them is. *)
Theorem one_planner_for_good {D F Ids Settings RVO Nav : Type}
    `{Planner.Outside D F Ids Settings RVO Nav}
    (evs : list Planner.event) (s s' : Planner.wrapper)
    (out : list (Planner.published D)) :
  Planner.rvo_planner_ s = None -> Planner.ros_navigation_ s = None ->
  Planner.run evs (Planner.init s) = Some (s', out) ->
  Planner.planner_ok s'.
Proof.
  intros Hrvo Hnav. apply run_planner_ok. by apply init_planner_ok.
Qed.

(** The session with the counting planner. *)
Lemma one_planner_for_good_witness :
  exists s' out,
    Planner.rvo_planner_ Planner.unassigned = None /\
    Planner.ros_navigation_ Planner.unassigned = None /\
    @Planner.run _ _ _ _ _ _ Planner.counting Planner.session
      (@Planner.init _ _ _ _ _ _ Planner.counting Planner.unassigned) = Some (s', out) /\
    @Planner.planner_ok Z Z (list nat) nat nat s'.
Proof.
  assert (exists x, @Planner.run _ _ _ _ _ _ Planner.counting Planner.session
                      (@Planner.init _ _ _ _ _ _ Planner.counting Planner.unassigned)
                    = Some x) as [[s' out] Hrun]
    by (eexists; vm_compute; reflexivity).
  exists s', out. split; [reflexivity|]. split; [reflexivity|]. split; [exact Hrun|].
  exact (@one_planner_for_good _ _ _ _ _ _ Planner.counting Planner.session
           Planner.unassigned s' out eq_refl eq_refl Hrun).
Defined.

(** [setupRVOPlanner] right after [init]: no planner is set up. *)
Lemma planner_events_are_safe_witness :
  @Planner.planner_ok Z Z (list nat) nat nat
    (@Planner.init _ _ _ _ _ _ Planner.counting Planner.unassigned) /\
  (is_Some (@Planner.handle _ _ _ _ _ _ Planner.counting
              (Planner.SetupRVOPlanner 1%Z tt)
              (@Planner.init _ _ _ _ _ _ Planner.counting Planner.unassigned)) <->
   Planner.handled (Planner.SetupRVOPlanner 1%Z tt)
     (@Planner.init _ _ _ _ _ _ Planner.counting Planner.unassigned)).
Proof.
  assert (@Planner.planner_ok Z Z (list nat) nat nat
            (@Planner.init _ _ _ _ _ _ Planner.counting Planner.unassigned)) as Hok
    by (by apply (@init_planner_ok _ _ _ _ _ _ Planner.counting)).
  split; [exact Hok|].
  exact (@planner_events_are_safe _ _ _ _ _ _ Planner.counting
           (Planner.SetupRVOPlanner 1%Z tt) _ Hok).
Defined.

(** [setupNewPlanner] answers [ok] exactly when no planner has been set up
    and the type asked for is one of the two it knows; it then sets
    [planner_init], after which every further call answers not [ok] and
    changes nothing.  A call that answers not [ok] changes nothing. *)
Theorem setupNewPlanner_only_once {D F Ids Settings RVO Nav : Type}
    `{Planner.Outside D F Ids Settings RVO Nav}
    (t : N) (s : Planner.wrapper) :
  let s' := fst (Planner.setupNewPlanner t s) in
  let ok := snd (Planner.setupNewPlanner t s) in
  (ok = true <->
   Planner.planner_init s = false /\
   (t = Planner.RVO_PLANNER \/ t = Planner.ROS_NAVIGATION)) /\
  (ok = false -> s' = s) /\
  (ok = true ->
   Planner.planner_init s' = true /\
   forall t', Planner.setupNewPlanner t' s' = (s', false)).
Proof.
  intros s' ok. subst s' ok. unfold Planner.setupNewPlanner.
  destruct (Planner.planner_init s) eqn:Hinit.
  - rewrite !andb_false_r. cbn.
    split; [split; [done | by intros [? _]]|]. split; done.
  - rewrite !andb_true_r.
    destruct (N.eqb_spec t Planner.RVO_PLANNER) as [Hr|Hr];
      [|destruct (N.eqb_spec t Planner.ROS_NAVIGATION) as [Hn|Hn]]; cbn.
    + split; [split; [intros _; split; [done | by left] | done]|].
      split; [done|]. intros _. split; [done|]. intros t'.
      by rewrite !andb_false_r.
    + split; [split; [intros _; split; [done | by right] | done]|].
      split; [done|]. intros _. split; [done|]. intros t'.
      by rewrite !andb_false_r.
    + split; [split; [done | intros [_ [?|?]]; congruence]|]. split; done.
Qed.

(** The vectors handed to the RVO planner hold, for each pose of the
    message, its [x] and [y] and the linear [x] and [y] of the velocity of
    the same index; velocities beyond the number of poses are dropped.  With
    fewer velocities than poses the loop reads [agent_vels] past its end. *)
Theorem environment_needs_a_velocity_per_pose {D F Ids Settings RVO Nav : Type}
    `{Planner.Outside D F Ids Settings RVO Nav}
    (env : Planner.EnvironmentData D Ids) :
  (is_Some (Planner.environment_vectors env) <->
   length (Planner.agent_poses env) <= length (Planner.agent_vels env)) /\
  forall poses vels,
    Planner.environment_vectors env = Some (poses, vels) ->
    poses = (fun p => mkVector2 (Planner.to_F (Planner.x p)) (Planner.to_F (Planner.y p)))
              <$> Planner.agent_poses env /\
    vels = (fun v => mkVector2 (Planner.to_F (Planner.linear_x v))
                       (Planner.to_F (Planner.linear_y v)))
             <$> take (length (Planner.agent_poses env)) (Planner.agent_vels env).
Proof.
  rewrite environment_vectors_spec.
  destruct (decide (length (Planner.agent_poses env) <= length (Planner.agent_vels env)))
    as [Hle|Hgt].
  - split; [split; [done | by eexists]|]. by intros poses vels [= <- <-].
  - split; [|done]. split; [by intros [? ?] | lia].
Qed.

(** With the flags telling which pointer is assigned, a step of the main
    loop completes and keeps [planning_].  It publishes a velocity command
    exactly when the node is planning with the RVO planner, and after it the
    arrival exactly when the node is planning and [arrived_] is then set.
    When the node is not planning it publishes nothing, keeps the command
    and [arrived_], and gives the RVO planner, if there is one, the velocity
    [null_vect_]. *)
Theorem plannerStep_publishes {D F Ids Settings RVO Nav : Type}
    `{Planner.Outside D F Ids Settings RVO Nav} (s : Planner.wrapper) :
  Planner.planner_ok s ->
  exists s' out,
    Planner.plannerStep s = Some (s', out) /\
    Planner.planning_ s' = Planner.planning_ s /\
    out = (if Planner.planning_ s && Planner.use_rvo_planner_ s
           then [Planner.on_cmd_vel (Planner.cmd_vel_ s')] else []) ++
          (if Planner.planning_ s && Planner.arrived_ s'
           then [Planner.on_arrived true] else []) /\
    (Planner.planning_ s = false ->
     Planner.cmd_vel_ s' = Planner.cmd_vel_ s /\
     Planner.arrived_ s' = Planner.arrived_ s /\
     forall rvo, Planner.rvo_planner_ s = Some rvo ->
       Planner.rvo_planner_ s'
       = Some (Planner.setCurrVel (Planner.null_vect_ s) rvo)).
Proof.
  intros Hok. unfold Planner.plannerStep.
  destruct s as [use_rvo use_nav planning arrived aborted pinit cp gp tp cv nv rv env
                   [rvo|] [nav|]];
    unfold Planner.planner_ok, Planner.set_rvo, Planner.pubArrived in *; cbn in *;
    destruct planning, use_rvo, use_nav; cbn;
    repeat (match goal with
            | |- context [Planner.planStep ?r] =>
                destruct (Planner.planStep r) as [? ?]
            | |- context [Planner.getArrived ?r] => destruct (Planner.getArrived r)
            | |- context [Planner.nav_getArrived ?r] =>
                destruct (Planner.nav_getArrived r)
            | |- context [if ?b then _ else _] => destruct b
            end; cbn);
    try (exfalso; intuition congruence);
    eexists _, _; (split; [reflexivity|]); cbn;
    (split; [reflexivity|]); (split; [reflexivity|]);
    intros Hp; try discriminate; (split; [reflexivity|]); (split; [reflexivity|]);
    intros r Hr; congruence.
Qed.

(** A step right after [init]. *)
Lemma plannerStep_publishes_witness :
  @Planner.planner_ok Z Z (list nat) nat nat
    (@Planner.init _ _ _ _ _ _ Planner.counting Planner.unassigned) /\
  exists s' out,
    @Planner.plannerStep _ _ _ _ _ _ Planner.counting
      (@Planner.init _ _ _ _ _ _ Planner.counting Planner.unassigned) = Some (s', out) /\
    Planner.planning_ s'
    = Planner.planning_ (@Planner.init _ _ _ _ _ _ Planner.counting Planner.unassigned) /\
    out = (if Planner.planning_
                (@Planner.init _ _ _ _ _ _ Planner.counting Planner.unassigned)
              && Planner.use_rvo_planner_
                   (@Planner.init _ _ _ _ _ _ Planner.counting Planner.unassigned)
           then [Planner.on_cmd_vel (Planner.cmd_vel_ s')] else []) ++
          (if Planner.planning_
                (@Planner.init _ _ _ _ _ _ Planner.counting Planner.unassigned)
              && Planner.arrived_ s'
           then [Planner.on_arrived true] else []) /\
    (Planner.planning_ (@Planner.init _ _ _ _ _ _ Planner.counting Planner.unassigned)
     = false ->
     Planner.cmd_vel_ s'
     = Planner.cmd_vel_ (@Planner.init _ _ _ _ _ _ Planner.counting Planner.unassigned) /\
     Planner.arrived_ s'
     = Planner.arrived_ (@Planner.init _ _ _ _ _ _ Planner.counting Planner.unassigned) /\
     forall rvo,
       Planner.rvo_planner_
         (@Planner.init _ _ _ _ _ _ Planner.counting Planner.unassigned) = Some rvo ->
       Planner.rvo_planner_ s'
       = Some (@Planner.setCurrVel _ _ _ _ _ _ Planner.counting
                 (Planner.null_vect_
                    (@Planner.init _ _ _ _ _ _ Planner.counting Planner.unassigned))
                 rvo)).
Proof.
  assert (@Planner.planner_ok Z Z (list nat) nat nat
            (@Planner.init _ _ _ _ _ _ Planner.counting Planner.unassigned)) as Hok
    by (by apply (@init_planner_ok _ _ _ _ _ _ Planner.counting)).
  split; [exact Hok|].
  exact (@plannerStep_publishes _ _ _ _ _ _ Planner.counting _ Hok).
Defined.

(** ** The visualizer *)

Section VisualizerFacts.
Import Visualizer.

Lemma read_item_spec (delim : ascii) (s : list ascii) :
  let '(item, rest) := read_item delim s in
  (delim ∉ item) /\
  ((s = item /\ rest = []) \/ s = item ++ delim :: rest).
Proof.
  induction s as [|c s IH]; simpl.
  - split; [apply not_elem_of_nil | by left].
  - destruct (Ascii.eqb c delim) eqn:Hc.
    + apply Ascii.eqb_eq in Hc as ->. split; [apply not_elem_of_nil | by right].
    + apply Ascii.eqb_neq in Hc. destruct (read_item delim s) as [item rest].
      destruct IH as [Hnot Hcase]. split.
      * apply not_elem_of_cons. split; [congruence | done].
      * destruct Hcase as [[-> ->]| ->]; [by left | by right].
Qed.

Lemma join_cons (delim : ascii) (item : list ascii) (items : list (list ascii)) :
  items <> [] -> join delim (item :: items) = item ++ delim :: join delim items.
Proof. by destruct items. Qed.

Lemma split2_loop_acc (fuel : nat) (ss : list ascii) (delim : ascii)
    (elems : list (list ascii)) :
  split2_loop fuel ss delim elems = elems ++ split2_loop fuel ss delim [].
Proof.
  revert ss elems. induction fuel as [|fuel IH]; intros ss elems; simpl.
  - by rewrite app_nil_r.
  - destruct (getline ss delim) as [[item rest]|]; [|by rewrite app_nil_r].
    rewrite (IH rest (elems ++ [item])), (IH rest [item]). by rewrite <- app_assoc.
Qed.

(** The items of a string, for any number of iterations above its length. *)
Lemma split2_loop_items (delim : ascii) (n : nat) :
  forall (fuel : nat) (s : list ascii),
    length s <= n -> length s < fuel ->
    split2_loop fuel s delim [] = split s delim /\
    Forall (fun item => delim ∉ item) (split s delim) /\
    (split s delim = [] <-> s = []) /\
    (forall s', s = s' ++ [delim] -> join delim (split s delim) = s') /\
    (last s <> Some delim -> join delim (split s delim) = s).
Proof.
  induction n as [|n IH]; intros fuel s Hn Hfuel.
  { destruct s; [|simpl in Hn; lia]. destruct fuel; [lia|].
    split; [done|]. split; [constructor|]. split; [done|].
    split; [|done]. intros [|??]; done. }
  destruct s as [|c s].
  { destruct fuel; [lia|].
    split; [done|]. split; [constructor|]. split; [done|].
    split; [|done]. intros [|??]; done. }
  assert (forall f, length (c :: s) < f ->
            split2_loop f (c :: s) delim []
            = (read_item delim (c :: s)).1
              :: split (read_item delim (c :: s)).2 delim) as Hstep.
  { intros [|f] Hf; [lia|]. cbn [split2_loop getline].
    pose proof (read_item_spec delim (c :: s)) as Hspec.
    destruct (read_item delim (c :: s)) as [item rest].
    destruct Hspec as [_ Hcase]. cbn [fst snd].
    rewrite split2_loop_acc. cbn [app]. f_equal.
    apply (IH f rest).
    - destruct Hcase as [[_ ->]|Heq]; [simpl in *; lia|].
      apply (f_equal length) in Heq. rewrite length_app in Heq. simpl in *. lia.
    - destruct Hcase as [[_ ->]|Heq]; [simpl in *; lia|].
      apply (f_equal length) in Heq. rewrite length_app in Heq. simpl in *. lia. }
  assert (split (c :: s) delim
          = (read_item delim (c :: s)).1 :: split (read_item delim (c :: s)).2 delim)
    as Hsplit by (apply Hstep; simpl; lia).
  split; [rewrite Hstep by done; by rewrite Hsplit|]. rewrite Hsplit.
  pose proof (read_item_spec delim (c :: s)) as Hspec.
  destruct (read_item delim (c :: s)) as [item rest]. cbn [fst snd].
  destruct Hspec as [Hnot Hcase].
  assert (length rest <= n) as Hrest.
  { destruct Hcase as [[_ ->]|Heq]; [simpl; lia|].
    apply (f_equal length) in Heq. rewrite length_app in Heq. simpl in *. lia. }
  destruct (IH (S (length rest)) rest Hrest ltac:(lia))
    as (_ & Hall & Hnil & Hend & Hkeep).
  split; [by constructor|]. split; [done|].
  destruct Hcase as [[Hs ->]|Hs].
  - (* no delimiter in the string *)
    assert (split [] delim = []) as -> by done. cbn [join]. split.
    + intros s' Hs'. exfalso. apply Hnot. rewrite <- Hs, Hs'.
      apply elem_of_app. right. apply list_elem_of_here.
    + by intros _.
  - rewrite Hs. destruct rest as [|r rest].
    + assert (split [] delim = []) as -> by done. cbn [join]. split.
      * intros s' Hs'. by apply app_inj_tail in Hs' as [-> _].
      * intros Hlast. by rewrite last_snoc in Hlast.
    + destruct (split (r :: rest) delim) as [|i1 items] eqn:Hitems.
      { by pose proof (proj1 Hnil eq_refl). }
      rewrite join_cons by done. split.
      * intros s' Hs'.
        destruct (exists_last (l := r :: rest) ltac:(done)) as (rest' & z & Hz).
        rewrite Hz in Hs'.
        replace (item ++ delim :: rest' ++ [z]) with ((item ++ delim :: rest') ++ [z])
          in Hs' by (by rewrite <- app_assoc).
        apply app_inj_tail in Hs' as [<- ->].
        by rewrite (Hend rest' Hz).
      * intros Hlast. rewrite Hkeep; [done|].
        intros Hr. apply Hlast.
        by rewrite last_app, last_cons, Hr.
Qed.

End VisualizerFacts.

(** The loop of [split2] ends: with any number of iterations above the
    length of the string it yields the items of [split].  No item holds the
    delimiter; the string without a final delimiter, if it has one, is the
    items written with the delimiter between them; and only the empty
    string has no item. *)
Theorem split_round_trip (s : list ascii) (delim : ascii) :
  (forall fuel, length s < fuel ->
     Visualizer.split2_loop fuel s delim [] = Visualizer.split s delim) /\
  Forall (fun item => delim ∉ item) (Visualizer.split s delim) /\
  (Visualizer.split s delim = [] <-> s = []) /\
  (forall s', s = s' ++ [delim] ->
     Visualizer.join delim (Visualizer.split s delim) = s') /\
  (last s <> Some delim -> Visualizer.join delim (Visualizer.split s delim) = s).
Proof.
  split.
  - intros fuel Hfuel.
    by destruct (split2_loop_items delim (length s) fuel s ltac:(lia) Hfuel).
  - by destruct (split2_loop_items delim (length s) (S (length s)) s ltac:(lia) ltac:(lia))
      as (_ & ? & ? & ? & ?).
Qed.
